(** * mail_sorter: the SMTP verifier (services/verifier, smtp-verifier.go)

    A shallow embedding of the Go verifier and the statements of its
    specification that were checked against it.

    Conventions of the embedding.
    - Go strings are byte sequences: [string] (a list of [ascii] bytes).
    - Go [int], [uint16], [time.Time] and [time.Duration] (nanoseconds) are
      [Z]; the verifier only counts, compares and subtracts them, and its
      divisions are Go's truncating ones, [Z.quot].
    - [float64] confidences are the decimal literals of the source, kept as
      exact rationals [Q].  The backoff product of the retry loop is taken
      in exact arithmetic too: it is the float64 product of the source
      when the factor is a whole number and the products stay below 2^53
      (the default configuration), and statements about its value are
      made for such configurations only.
    - Functions returning [(T, error)] return a pair whose second component
      is an [option error]; [None] is Go's [nil].
    - Redis, DNS, the network, the clock and the caller's context are the
      outside world: an [Env] of oracles, indexed by the number of
      interactions made so far, and a [World] holding the Redis key space,
      that counter and the log of SMTP sessions opened. *)

From Stdlib Require Import ZArith QArith List Ascii String Bool Lia DecimalString.
From stdpp Require Import gmap strings list sorting fin_maps.

Open Scope string_scope.
Open Scope Z_scope.

(** ** Bytes and strings: the parts of Go's [strings] and [fmt] in use *)

Definition byte_code (c : ascii) : Z := Z.of_N (N_of_ascii c).

Definition in_range (lo hi c : ascii) : bool :=
  (byte_code lo <=? byte_code c) && (byte_code c <=? byte_code hi).

(** [c >= utf8.RuneSelf] is the test for a non-ASCII byte. *)
Definition is_ascii_byte (c : ascii) : bool := byte_code c <? 128.

Fixpoint is_ascii (s : string) : bool :=
  match s with
  | EmptyString => true
  | String c s' => is_ascii_byte c && is_ascii s'
  end.

Definition is_upper (c : ascii) : bool := in_range "A" "Z" c.
Definition is_digit (c : ascii) : bool := in_range "0" "9" c.

(** [c += 'a' - 'A'] on an upper-case ASCII letter. *)
Definition lower_byte (c : ascii) : ascii :=
  if is_upper c then ascii_of_N (N_of_ascii c + 32) else c.

Fixpoint map_bytes (f : ascii -> ascii) (s : string) : string :=
  match s with
  | EmptyString => EmptyString
  | String c s' => String (f c) (map_bytes f s')
  end.

(** The [asciiSpace] table of package strings: tab, newline, vertical tab,
    form feed, carriage return and space. *)
Definition is_space (c : ascii) : bool :=
  let n := byte_code c in
  (n =? 9) || (n =? 10) || (n =? 11) || (n =? 12) || (n =? 13) || (n =? 32).

Fixpoint trim_left (s : string) : string :=
  match s with
  | EmptyString => EmptyString
  | String c s' => if is_space c then trim_left s' else s
  end.

Definition is_empty (s : string) : bool :=
  match s with EmptyString => true | _ => false end.

Fixpoint trim_right (s : string) : string :=
  match s with
  | EmptyString => EmptyString
  | String c s' =>
      let r := trim_right s' in
      if is_space c && is_empty r then EmptyString else String c r
  end.

(** The Unicode halves of [strings.ToLower] and [strings.TrimSpace]: what
    they return on a string holding a byte of 0x80 or above.  They depend
    on the Unicode tables of the Go runtime, which are no part of this
    repository, and are taken as parameters. *)
Class Unicode := {
  MapToLower : string -> string;      (* strings.Map(unicode.ToLower, s) *)
  TrimFuncIsSpace : string -> string  (* strings.TrimFunc(s, unicode.IsSpace) *)
}.

(** [strings.ToLower]: ASCII strings are lowered byte by byte, any other
    string goes through [unicode.ToLower]. *)
Definition ToLower {U : Unicode} (s : string) : string :=
  if is_ascii s then map_bytes lower_byte s else MapToLower s.

(** [strings.TrimSpace]: on an ASCII string the leading and trailing
    [asciiSpace] bytes are cut; a string with a non-ASCII byte is handed to
    [TrimFunc(s, unicode.IsSpace)]. *)
Definition TrimSpace {U : Unicode} (s : string) : string :=
  if is_ascii s then trim_right (trim_left s) else TrimFuncIsSpace s.

Fixpoint has_prefix (p s : string) : bool :=
  match p, s with
  | EmptyString, _ => true
  | String a p', String b s' => if Ascii.eqb a b then has_prefix p' s' else false
  | String _ _, EmptyString => false
  end.

(** [strings.Contains(s, sub)]. *)
Fixpoint Contains (s sub : string) : bool :=
  has_prefix sub s ||
  match s with
  | EmptyString => false
  | String _ s' => Contains s' sub
  end.

(** [strings.TrimSuffix(s, suffix)]: [s] without the suffix when it ends
    with it, [s] itself otherwise. *)
Fixpoint TrimSuffix (s suffix : string) : string :=
  match s with
  | EmptyString => EmptyString
  | String c s' => if String.eqb s suffix then EmptyString else String c (TrimSuffix s' suffix)
  end.

(** [strings.Split(s, sep)] for a one-byte separator: the pieces between
    the occurrences of [sep], one more than there are occurrences. *)
Fixpoint Split (s : string) (sep : ascii) : list string :=
  match s with
  | EmptyString => [EmptyString]
  | String c s' =>
      if Ascii.eqb c sep then EmptyString :: Split s' sep
      else match Split s' sep with
           | p :: ps => String c p :: ps
           | [] => [String c EmptyString]
           end
  end.

(** The number of bytes of [s] equal to [c]. *)
Fixpoint count_byte (c : ascii) (s : string) : nat :=
  match s with
  | EmptyString => O
  | String b s' => (if Ascii.eqb b c then 1 else 0)%nat + count_byte c s'
  end.

(** The verb [%d] of [fmt.Sprintf]. *)
Definition itoa (n : Z) : string := NilZero.string_of_int (Z.to_int n).

(** The verb [%d] of [fmt.Sscanf] at the head of a string.  [SkipSpace]
    skips the runes of fmt's own table of spaces (U+0009 to U+000D, U+0020,
    U+0085, U+00A0, U+1680, U+2000 to U+200A, U+2028, U+2029, U+202F,
    U+205F and U+3000, here in their UTF-8 encodings) and fails on a
    newline; [scanInt] then accepts one sign and the longest run of decimal
    digits, which must not be empty, and [strconv.ParseInt] refuses a value
    outside int64.  [None] is a failed scan, which leaves the target
    untouched. *)
Definition two_byte_space (c1 c2 : ascii) : bool :=
  (byte_code c1 =? 194) && ((byte_code c2 =? 133) || (byte_code c2 =? 160)).

Definition three_byte_space (c1 c2 c3 : ascii) : bool :=
  let n1 := byte_code c1 in
  let n2 := byte_code c2 in
  let n3 := byte_code c3 in
  ((n1 =? 225) && (n2 =? 154) && (n3 =? 128))
  || ((n1 =? 226) && (n2 =? 128)
      && (((128 <=? n3) && (n3 <=? 138)) || (n3 =? 168) || (n3 =? 169) || (n3 =? 175)))
  || ((n1 =? 226) && (n2 =? 129) && (n3 =? 159))
  || ((n1 =? 227) && (n2 =? 128) && (n3 =? 128)).

Fixpoint skip_blanks (s : string) : option string :=
  match s with
  | String c s' =>
      if Ascii.eqb c "010" then None
      else if is_space c then skip_blanks s'
      else if is_ascii_byte c then Some s
      else
        match s' with
        | String c2 s2 =>
            if two_byte_space c c2 then skip_blanks s2
            else
              match s2 with
              | String c3 s3 => if three_byte_space c c2 c3 then skip_blanks s3 else Some s
              | EmptyString => Some s
              end
        | EmptyString => Some s
        end
  | EmptyString => Some EmptyString
  end.

Fixpoint scan_digits (s : string) (acc : Z) (seen : bool) : option Z :=
  match s with
  | String c s' =>
      if is_digit c then scan_digits s' (10 * acc + (byte_code c - 48)) true
      else if seen then Some acc else None
  | EmptyString => if seen then Some acc else None
  end.

(** [strconv.ParseInt(tok, 10, 64)] on a token of digits with its sign. *)
Definition ParseInt64 (negative : bool) (magnitude : Z) : option Z :=
  let v := if negative then - magnitude else magnitude in
  if (- 2 ^ 63 <=? v) && (v <? 2 ^ 63) then Some v else None.

Definition Sscanf_d (s : string) : option Z :=
  match skip_blanks s with
  | None => None
  | Some EmptyString => None
  | Some (String c s') =>
      if Ascii.eqb c "+" then scan_digits s' 0 false ≫= ParseInt64 false
      else if Ascii.eqb c "-" then scan_digits s' 0 false ≫= ParseInt64 true
      else scan_digits (String c s') 0 false ≫= ParseInt64 false
  end.

(** ** crypto/sha256 and encoding/hex

    SHA-256 as FIPS 180-4 defines it, on bytes and 32-bit words held in
    [Z].  The round constants and the initial state are written in
    decimal. *)
Module SHA256.

Definition mask32 : Z := 4294967295.
Definition add32 (a b : Z) : Z := Z.land (a + b) mask32.
Definition rotr (n x : Z) : Z :=
  Z.lor (Z.shiftr x n) (Z.land (Z.shiftl x (32 - n)) mask32).
Definition not32 (x : Z) : Z := Z.lxor x mask32.

Definition Ch (x y z : Z) : Z := Z.lxor (Z.land x y) (Z.land (not32 x) z).
Definition Maj (x y z : Z) : Z :=
  Z.lxor (Z.lxor (Z.land x y) (Z.land x z)) (Z.land y z).
Definition bsig0 (x : Z) : Z := Z.lxor (Z.lxor (rotr 2 x) (rotr 13 x)) (rotr 22 x).
Definition bsig1 (x : Z) : Z := Z.lxor (Z.lxor (rotr 6 x) (rotr 11 x)) (rotr 25 x).
Definition ssig0 (x : Z) : Z := Z.lxor (Z.lxor (rotr 7 x) (rotr 18 x)) (Z.shiftr x 3).
Definition ssig1 (x : Z) : Z := Z.lxor (Z.lxor (rotr 17 x) (rotr 19 x)) (Z.shiftr x 10).

Definition round_constants : list Z :=
 [1116352408; 1899447441; 3049323471; 3921009573; 961987163; 1508970993;
  2453635748; 2870763221; 3624381080; 310598401; 607225278; 1426881987;
  1925078388; 2162078206; 2614888103; 3248222580; 3835390401; 4022224774;
  264347078; 604807628; 770255983; 1249150122; 1555081692; 1996064986;
  2554220882; 2821834349; 2952996808; 3210313671; 3336571891; 3584528711;
  113926993; 338241895; 666307205; 773529912; 1294757372; 1396182291;
  1695183700; 1986661051; 2177026350; 2456956037; 2730485921; 2820302411;
  3259730800; 3345764771; 3516065817; 3600352804; 4094571909; 275423344;
  430227734; 506948616; 659060556; 883997877; 958139571; 1322822218;
  1537002063; 1747873779; 1955562222; 2024104815; 2227730452; 2361852424;
  2428436474; 2756734187; 3204031479; 3329325298].

Definition initial_state : list Z :=
 [1779033703; 3144134277; 1013904242; 2773480762;
  1359893119; 2600822924; 528734635; 1541459225].

(** Big-endian bytes of a word of [n] bytes. *)
Fixpoint be_bytes (n : nat) (x : Z) : list Z :=
  match n with
  | O => []
  | S n' => Z.land (Z.shiftr x (8 * Z.of_nat n')) 255 :: be_bytes n' x
  end.

Definition pad (msg : list Z) : list Z :=
  let len := Z.of_nat (length msg) in
  msg ++ [128] ++ repeat 0 (Z.to_nat ((55 - len) mod 64)) ++ be_bytes 8 (8 * len).

Fixpoint be_words (fuel : nat) (bs : list Z) : list Z :=
  match fuel, bs with
  | S fuel', b0 :: b1 :: b2 :: b3 :: rest =>
      (((b0 * 256 + b1) * 256 + b2) * 256 + b3) :: be_words fuel' rest
  | _, _ => []
  end.

(** The message schedule, newest word first: [rev_w] holds W[t-1],
    W[t-2], ... *)
Fixpoint schedule (n : nat) (rev_w : list Z) : list Z :=
  match n with
  | O => rev_w
  | S n' =>
      let w := add32 (add32 (ssig1 (nth 1 rev_w 0)) (nth 6 rev_w 0))
                     (add32 (ssig0 (nth 14 rev_w 0)) (nth 15 rev_w 0)) in
      schedule n' (w :: rev_w)
  end.

Definition round (st : list Z) (kw : Z * Z) : list Z :=
  match st with
  | [a; b; c; d; e; f; g; h] =>
      let t1 := add32 (add32 (add32 h (bsig1 e)) (add32 (Ch e f g) (fst kw))) (snd kw) in
      let t2 := add32 (bsig0 a) (Maj a b c) in
      [add32 t1 t2; a; b; c; add32 d t1; e; f; g]
  | _ => st
  end.

Definition compress (st : list Z) (block : list Z) : list Z :=
  let w := rev (schedule 48 (rev (be_words 16 block))) in
  let st' := fold_left round (combine round_constants w) st in
  map (fun p => add32 (fst p) (snd p)) (combine st st').

Fixpoint blocks (fuel : nat) (bs : list Z) (st : list Z) : list Z :=
  match fuel with
  | O => st
  | S fuel' =>
      match bs with
      | [] => st
      | _ => blocks fuel' (skipn 64 bs) (compress st (firstn 64 bs))
      end
  end.

(** [sha256.Sum256]: the 32 bytes of the digest. *)
Definition sum (msg : list Z) : list Z :=
  let p := pad msg in
  flat_map (be_bytes 4) (blocks (length p) p initial_state).

End SHA256.

Definition bytes_of_string (s : string) : list Z :=
  map byte_code (list_ascii_of_string s).

Definition hex_digit (n : Z) : ascii :=
  if n <? 10 then ascii_of_N (Z.to_N (48 + n)) else ascii_of_N (Z.to_N (87 + n)).

(** [hex.EncodeToString]. *)
Fixpoint EncodeToString (bs : list Z) : string :=
  match bs with
  | [] => EmptyString
  | b :: bs' => String (hex_digit (Z.shiftr b 4)) (String (hex_digit (Z.land b 15)) (EncodeToString bs'))
  end.

(** [hashEmail]: the hex SHA-256 digest of the lower-cased address. *)
Definition hashEmail {U : Unicode} (email : string) : string :=
  EncodeToString (SHA256.sum (bytes_of_string (ToLower email))).

(** ** Package regexp, as far as [emailRegex] needs it

    A regular expression over bytes and its matcher by derivatives.  A
    pattern anchored with [^] and [$] (no flag [m]) matches a string when
    its body matches the whole of it. *)

Inductive citem : Type :=
  | CRange (lo hi : ascii)   (* lo-hi inside a bracket *)
  | CByte (c : ascii).       (* a single byte inside a bracket *)

Definition citem_mem (c : ascii) (i : citem) : bool :=
  match i with
  | CRange lo hi => in_range lo hi c
  | CByte b => Ascii.eqb c b
  end.

Definition class_mem (cl : list citem) (c : ascii) : bool := existsb (citem_mem c) cl.

Inductive regex : Type :=
  | Void                       (* matches nothing *)
  | Eps                        (* the empty string *)
  | Class (cl : list citem)    (* one byte of a bracket expression *)
  | Cat (r1 r2 : regex)
  | Alt (r1 r2 : regex)
  | Star (r : regex).

Definition Lit (c : ascii) : regex := Class [CByte c].
Definition Plus (r : regex) : regex := Cat r (Star r).

(** [r{n,}] *)
Fixpoint AtLeast (n : nat) (r : regex) : regex :=
  match n with
  | O => Star r
  | S n' => Cat r (AtLeast n' r)
  end.

Fixpoint nullable (r : regex) : bool :=
  match r with
  | Void => false
  | Eps => true
  | Class _ => false
  | Cat r1 r2 => nullable r1 && nullable r2
  | Alt r1 r2 => nullable r1 || nullable r2
  | Star _ => true
  end.

Definition cat (r1 r2 : regex) : regex :=
  match r1, r2 with
  | Void, _ => Void
  | _, Void => Void
  | Eps, _ => r2
  | _, _ => Cat r1 r2
  end.

Definition alt (r1 r2 : regex) : regex :=
  match r1, r2 with
  | Void, _ => r2
  | _, Void => r1
  | _, _ => Alt r1 r2
  end.

Fixpoint deriv (c : ascii) (r : regex) : regex :=
  match r with
  | Void => Void
  | Eps => Void
  | Class cl => if class_mem cl c then Eps else Void
  | Cat r1 r2 =>
      if nullable r1 then alt (cat (deriv c r1) r2) (deriv c r2)
      else cat (deriv c r1) r2
  | Alt r1 r2 => alt (deriv c r1) (deriv c r2)
  | Star r1 => cat (deriv c r1) (Star r1)
  end.

Fixpoint matches (r : regex) (s : list ascii) : bool :=
  match s with
  | [] => nullable r
  | c :: s' => matches (deriv c r) s'
  end.

(** [re.MatchString(s)] for a pattern [^body$]. *)
Definition MatchString (body : regex) (s : string) : bool :=
  matches body (list_ascii_of_string s).

(** [^[a-zA-Z0-9._%+\-]+@[a-zA-Z0-9.\-]+\.[a-zA-Z]{2,}$] *)
Definition emailRegex : regex :=
  Cat (Plus (Class [CRange "a" "z"; CRange "A" "Z"; CRange "0" "9";
                    CByte "."; CByte "_"; CByte "%"; CByte "+"; CByte "-"]))
 (Cat (Lit "@")
 (Cat (Plus (Class [CRange "a" "z"; CRange "A" "Z"; CRange "0" "9";
                    CByte "."; CByte "-"]))
 (Cat (Lit ".")
      (AtLeast 2 (Class [CRange "a" "z"; CRange "A" "Z"]))))).

Definition isValidEmailSyntax (email : string) : bool :=
  MatchString emailRegex email && (Z.of_nat (String.length email) <=? 320).

(** ** Types and constants *)

Inductive ValidationStatus : Type :=
  | StatusValid      (* "valid" *)
  | StatusInvalid    (* "invalid" *)
  | StatusCatchAll   (* "catch-all" *)
  | StatusUnknown    (* "unknown" *)
  | StatusRisky.     (* "risky" *)

#[global] Instance ValidationStatus_eq_dec : EqDecision ValidationStatus.
Proof. solve_decision. Defined.

Record MXRecord : Type := mkMXRecord {
  Exchange : string;
  Priority : Z   (* uint16 *)
}.

(** [net.MX], the answer of the resolver. *)
Record NetMX : Type := mkNetMX {
  Host : string;
  Pref : Z       (* uint16 *)
}.

Record ValidationResult : Type := mkValidationResult {
  Email : string;
  EmailHash : string;
  Domain : string;
  Status : ValidationStatus;
  Reason : string;
  Confidence : Q;
  SMTPCode : Z;
  SMTPResponse : string;
  MXHost : string;
  MXRecords : list MXRecord;
  IsCatchAll : bool;
  IsDisposable : bool;
  ValidationTimeMs : Z;
  CheckedAt : Z
}.

(** [result.IsCatchAll = b] *)
Definition set_IsCatchAll (b : bool) (result : ValidationResult) : ValidationResult :=
  mkValidationResult (Email result) (EmailHash result) (Domain result) (Status result)
    (Reason result) (Confidence result) (SMTPCode result) (SMTPResponse result)
    (MXHost result) (MXRecords result) b (IsDisposable result)
    (ValidationTimeMs result) (CheckedAt result).

Record DomainMetadata : Type := mkDomainMetadata {
  MetaIsCatchAll : option bool;
  MetaCatchAllChecked : option Z;
  MetaIsDisposable : bool;
  MetaMXRecords : list MXRecord;
  MetaLastValidation : Z
}.

Record Config : Type := mkConfig {
  SMTPConnectTimeout : Z;
  SMTPReadTimeout : Z;
  SMTPWriteTimeout : Z;
  EHLOHostname : string;
  MailFrom : string;
  MaxConcurrentPerDomain : Z;
  MaxConcurrentPerMX : Z;
  DomainRateLimit : Z;
  MaxRetries : Z;
  RetryBackoff : Z;
  RetryBackoffFactor : Q;
  EnableCatchAllDetection : bool;
  CatchAllProbeCount : Z;
  MXCacheTTL : Z;
  ResultCacheTTL : Z;
  DomainMetaCacheTTL : Z
}.

(** Durations are nanoseconds. *)
Definition Second : Z := 1000000000.
Definition Hour : Z := 3600 * Second.

Definition DefaultConfig : Config := {|
  SMTPConnectTimeout := 10 * Second;
  SMTPReadTimeout := 15 * Second;
  SMTPWriteTimeout := 15 * Second;
  EHLOHostname := "mail-validator.yourdomain.com";
  MailFrom := "verify@mail-validator.yourdomain.com";
  MaxConcurrentPerDomain := 5;
  MaxConcurrentPerMX := 50;
  DomainRateLimit := 1 * Second;
  MaxRetries := 3;
  RetryBackoff := 2 * Second;
  RetryBackoffFactor := 2.0;
  EnableCatchAllDetection := true;
  CatchAllProbeCount := 2;
  MXCacheTTL := 1 * Hour;
  ResultCacheTTL := 7 * 24 * Hour;
  DomainMetaCacheTTL := 24 * Hour
|}.

(** ** Errors

    An error value is one of the two sentinels of package context, a leaf
    with its message, or a wrapper made by [fmt.Errorf("<prefix>: %w", e)]
    (the errors of package net wrap the same way). *)
Inductive error : Type :=
  | Canceled                               (* context.Canceled *)
  | DeadlineExceeded                       (* context.DeadlineExceeded *)
  | ErrorString (msg : string)             (* errors.New(msg) and the like *)
  | Wrapped (prefix : string) (e : error).

(** [err.Error()] *)
Fixpoint Error (e : error) : string :=
  match e with
  | Canceled => "context canceled"
  | DeadlineExceeded => "context deadline exceeded"
  | ErrorString msg => msg
  | Wrapped prefix e' => prefix +:+ ": " +:+ Error e'
  end.

(** [errors.Is(e, context.DeadlineExceeded)] and [errors.Is(e,
    context.Canceled)] walk the chain of wrappers. *)
Fixpoint Is_DeadlineExceeded (e : error) : bool :=
  match e with
  | DeadlineExceeded => true
  | Wrapped _ e' => Is_DeadlineExceeded e'
  | _ => false
  end.

Fixpoint Is_Canceled (e : error) : bool :=
  match e with
  | Canceled => true
  | Wrapped _ e' => Is_Canceled e'
  | _ => false
  end.

(** ** Pure helpers *)

Definition parseSMTPError (err : error) : Z * string :=
  let errStr := Error err in
  if 3 <=? Z.of_nat (String.length errStr) then
    let code := match Sscanf_d errStr with Some n => n | None => 0 end in
    if (100 <=? code) && (code <? 600) then (code, errStr) else (0, errStr)
  else (0, errStr).

Definition classifySMTPResponse (code : Z) (response : string)
  : ValidationStatus * string * Q :=
  if (code =? 250) || (code =? 251) then
    (StatusValid, "mailbox_exists", 0.98%Q)
  else if (code =? 550) || (code =? 551) || (code =? 553) then
    (StatusInvalid, "mailbox_not_found", 0.95%Q)
  else if (code =? 450) || (code =? 451) || (code =? 452) then
    (StatusUnknown, "temporary_failure", 0.3%Q)
  else if code =? 421 then
    (StatusUnknown, "rate_limited", 0.2%Q)
  else if 500 <=? code then
    (StatusInvalid, "smtp_error_" +:+ itoa code, 0.7%Q)
  else
    (StatusUnknown, "unknown_response", 0.1%Q).

Definition isRetryableError (err : option error) : bool :=
  match err with
  | None => false
  | Some e =>
      let errStr := Error e in
      if Is_DeadlineExceeded e || Is_Canceled e
         || Contains errStr "timeout"
         || Contains errStr "connection refused"
         || Contains errStr "temporary failure"
      then true
      else
        let code := fst (parseSMTPError e) in
        if (400 <=? code) && (code <? 500) then true else false
  end.

(** The swap [records[i], records[j] = records[j], records[i]]; both
    indices are in range wherever the sort uses it. *)
Definition swap (i j : nat) (records : list MXRecord) : list MXRecord :=
  match records !! i, records !! j with
  | Some a, Some b => <[i := b]> (<[j := a]> records)
  | _, _ => records
  end.

(** The inner loop [for j := ...; j < len(records); j++], with [n] rounds
    left to run. *)
Fixpoint sort_inner (n : nat) (i j : nat) (records : list MXRecord) : list MXRecord :=
  match n with
  | O => records
  | S n' =>
      let records' :=
        match records !! i, records !! j with
        | Some a, Some b => if Priority a >? Priority b then swap i j records else records
        | _, _ => records
        end in
      sort_inner n' i (S j) records'
  end.

(** The outer loop [for i := ...; i < len(records)-1; i++], with [n] rounds
    left to run. *)
Fixpoint sort_outer (n : nat) (i : nat) (records : list MXRecord) : list MXRecord :=
  match n with
  | O => records
  | S n' =>
      sort_outer n' (S i) (sort_inner (length records - S i) i (S i) records)
  end.

(** [sortMXRecords] sorts in place; the embedding returns the slice. *)
Definition sortMXRecords (records : list MXRecord) : list MXRecord :=
  sort_outer (length records - 1) 0 records.

(** The backoff of the retry loop,
    [time.Duration(float64(RetryBackoff) * float64(attempt+1) * RetryBackoffFactor)];
    the conversion to [Duration] truncates towards zero.  The product is
    exact here; float64 rounds it when the factor is not a whole number or
    a product reaches 2^53, and the conversion of a value outside int64
    is left to the platform by Go. *)
Definition truncQ (q : Q) : Z := Z.quot (Qnum q) (Zpos (Qden q)).

Definition backoff (cfg : Config) (attempt : Z) : Z :=
  truncQ (inject_Z (RetryBackoff cfg) * inject_Z (attempt + 1) * RetryBackoffFactor cfg)%Q.

(** ** The outside world *)

(** How one SMTP session of [smtpHandshake] goes: the stage at which it
    fails with its error, or the reply to RCPT TO ([None] for acceptance,
    the error of [client.Rcpt] otherwise).  STARTTLS has no outcome of its
    own: the source drops its error. *)
Inductive Session : Type :=
  | DialFails (e : error)
  | NewClientFails (e : error)
  | HelloFails (e : error)
  | MailFails (e : error)
  | RcptReplies (e : option error).

(** What [smtpHandshake] returns for each course of the session. *)
Definition handshake_returns (s : Session) : Z * string * option error :=
  match s with
  | DialFails e => (0, "", Some (Wrapped "connection failed" e))
  | NewClientFails e => (0, "", Some (Wrapped "smtp client creation failed" e))
  | HelloFails e => (0, "", Some (Wrapped "EHLO failed" e))
  | MailFails e => (0, "", Some (Wrapped "MAIL FROM failed" e))
  | RcptReplies (Some e) =>
      let (smtpCode, smtpResponse) := parseSMTPError e in (smtpCode, smtpResponse, None)
  | RcptReplies None => (250, "Recipient OK", None)
  end.

Record Env : Type := mkEnv {
  redis_ok : nat -> bool;          (* does the Redis command reach a live key space *)
  clock : nat -> Z;                (* time.Now(), in nanoseconds *)
  dns : string -> nat -> list NetMX * option error;   (* net.LookupMX *)
  smtp : string -> string -> nat -> Session;          (* MX host, recipient *)
  ctx_done : nat -> option error   (* ctx.Err() when ctx.Done() wins a select *)
}.

(** The Redis key space, one map per key prefix with the values already
    decoded from JSON, the interaction counter, the SMTP sessions opened so
    far (MX host, recipient) and the durations handed to [time.After] and
    [time.Sleep], both oldest first. *)
Record World : Type := mkWorld {
  results : gmap string ValidationResult;     (* validation:result:<hash> *)
  mx_cache : gmap string (list MXRecord);      (* mx:records:<domain> *)
  domain_meta : gmap string DomainMetadata;    (* domain:meta:<domain> *)
  catchall_flags : gmap string string;         (* domain:catchall:<domain> *)
  rate_marks : gmap string Z;                  (* ratelimit:domain:<domain>:last *)
  tick : nat;
  sessions : list (string * string);
  timers : list Z
}.

Definition set_results (f : gmap string ValidationResult -> gmap string ValidationResult) (w : World) : World :=
  mkWorld (f (results w)) (mx_cache w) (domain_meta w) (catchall_flags w) (rate_marks w)
    (tick w) (sessions w) (timers w).
Definition set_mx_cache (f : gmap string (list MXRecord) -> gmap string (list MXRecord)) (w : World) : World :=
  mkWorld (results w) (f (mx_cache w)) (domain_meta w) (catchall_flags w) (rate_marks w)
    (tick w) (sessions w) (timers w).
Definition set_catchall_flags (f : gmap string string -> gmap string string) (w : World) : World :=
  mkWorld (results w) (mx_cache w) (domain_meta w) (f (catchall_flags w)) (rate_marks w)
    (tick w) (sessions w) (timers w).
Definition set_rate_marks (f : gmap string Z -> gmap string Z) (w : World) : World :=
  mkWorld (results w) (mx_cache w) (domain_meta w) (catchall_flags w) (f (rate_marks w))
    (tick w) (sessions w) (timers w).
Definition set_tick (n : nat) (w : World) : World :=
  mkWorld (results w) (mx_cache w) (domain_meta w) (catchall_flags w) (rate_marks w)
    n (sessions w) (timers w).
Definition log_session (s : string * string) (w : World) : World :=
  mkWorld (results w) (mx_cache w) (domain_meta w) (catchall_flags w) (rate_marks w)
    (tick w) (sessions w ++ [s]) (timers w).
Definition log_timer (d : Z) (w : World) : World :=
  mkWorld (results w) (mx_cache w) (domain_meta w) (catchall_flags w) (rate_marks w)
    (tick w) (sessions w) (timers w ++ [d]).

(** The state monad of the verifier. *)
Definition M (A : Type) : Type := World -> A * World.

#[global] Instance M_ret : MRet M := λ A (a : A) w, (a, w).
#[global] Instance M_bind : MBind M := λ A B (k : A -> M B) (m : M A) w,
  let (a, w') := m w in k a w'.

Definition get_world : M World := λ w, (w, w).
Definition modify_world (f : World -> World) : M unit := λ w, (tt, f w).

(** ** The verifier *)

Section Verifier.

Context {U : Unicode}.
Variable cfg : Config.   (* v.config *)
Variable env : Env.      (* v.redis, the resolver, the network, the clock, ctx *)

(** *** Primitives: one interaction with the outside each *)

Definition interact : M nat := λ w, (tick w, set_tick (S (tick w)) w).

Definition time_Now : M Z := t ← interact; mret (clock env t).

(** [v.redis.Get(ctx, key).Result()] followed by the decoding; [None] is
    any error, [redis.Nil] for a key that is absent or has expired
    included. *)
Definition redis_Get {V : Type} (space : World -> gmap string V) (key : string) : M (option V) :=
  t ← interact;
  w ← get_world;
  mret (if redis_ok env t then space w !! key else None).

(** [v.redis.Set(ctx, key, value, ttl)]; the verifier never looks at its
    error. *)
Definition redis_Set (write : World -> World) : M unit :=
  t ← interact;
  if redis_ok env t then modify_world write else mret tt.

Definition LookupMX (domain : string) : M (list NetMX * option error) :=
  t ← interact; mret (dns env domain t).

(** [select { case <-time.After(d): case <-ctx.Done(): }]: [Some] of
    [ctx.Err()] when the context is done first. *)
Definition After_or_Done (d : Z) : M (option error) :=
  t ← interact;
  modify_world (log_timer d);;
  mret (ctx_done env t).

Definition Sleep (d : Z) : M unit :=
  _ ← interact;
  modify_world (log_timer d).

Definition open_session (mxHost rcpt : string) : M Session :=
  t ← interact;
  modify_world (log_session (mxHost, rcpt));;
  mret (smtp env mxHost rcpt t).

(** *** Helper functions *)

Definition createResult (email emailHash domain : string) (status : ValidationStatus)
    (reason : string) (confidence : Q) (smtpCode : Z) (smtpResponse mxHost : string)
    (mxRecords : list MXRecord) (startTime : Z) : M ValidationResult :=
  since ← time_Now;
  now ← time_Now;
  mret {|
    Email := email;
    EmailHash := emailHash;
    Domain := domain;
    Status := status;
    Reason := reason;
    Confidence := confidence;
    SMTPCode := smtpCode;
    SMTPResponse := smtpResponse;
    MXHost := mxHost;
    MXRecords := mxRecords;
    IsCatchAll := false;
    IsDisposable := false;
    ValidationTimeMs := Z.quot (since - startTime) 1000000;
    CheckedAt := now
  |}.

(** *** Caching layer *)

Definition getCachedResult (emailHash : string) : M (option ValidationResult) :=
  redis_Get results ("validation:result:" +:+ emailHash).

Definition cacheResult (emailHash : string) (result : ValidationResult) : M unit :=
  redis_Set (set_results (insert ("validation:result:" +:+ emailHash) result)).

Definition getCachedMXRecords (domain : string) : M (option (list MXRecord)) :=
  redis_Get mx_cache ("mx:records:" +:+ domain).

Definition cacheMXRecords (domain : string) (records : list MXRecord) : M unit :=
  redis_Set (set_mx_cache (insert ("mx:records:" +:+ domain) records)).

Definition getDomainMetadata (domain : string) : M (option DomainMetadata) :=
  redis_Get domain_meta ("domain:meta:" +:+ domain).

Definition getCachedCatchAllStatus (domain : string) : M (option bool) :=
  val ← redis_Get catchall_flags ("domain:catchall:" +:+ domain);
  mret (option_map (fun v => String.eqb v "1") val).

Definition cacheCatchAllStatus (domain : string) (isCatchAll : bool) : M unit :=
  let val := if isCatchAll then "1" else "0" in
  redis_Set (set_catchall_flags (insert ("domain:catchall:" +:+ domain) val)).

(** *** Rate limiting

    The mark is written with [time.RFC3339], whole seconds, and read
    back with [time.Parse]. *)
Definition waitForRateLimit (domain mxHost : string) : M (option error) :=
  let domainKey := "ratelimit:domain:" +:+ domain +:+ ":last" in
  lastCheck ← redis_Get rate_marks domainKey;
  interrupted ←
    match lastCheck with
    | Some lastTime =>
        now ← time_Now;
        let elapsed := now - lastTime in
        if elapsed <? DomainRateLimit cfg
        then After_or_Done (DomainRateLimit cfg - elapsed)
        else mret None
    | None => mret None
    end;
  match interrupted with
  | Some e => mret (Some e)
  | None =>
      now ← time_Now;
      redis_Set (set_rate_marks (insert domainKey (Z.quot now Second * Second)));;
      mret None
  end.

(** *** The SMTP handshake: EHLO, MAIL FROM, RCPT TO, QUIT *)
Definition smtpHandshake (email mxHost : string) : M (Z * string * option error) :=
  s ← open_session mxHost email;
  mret (handshake_returns s).

(** *** Catch-all detection *)

(** The first loop of [detectCatchAll]: [n] addresses from index [i] on. *)
Fixpoint probeEmails (n : nat) (i : Z) (domain : string) : M (list string) :=
  match n with
  | O => mret []
  | S n' =>
      nano ← time_Now;
      let randomLocal := "probeverify" +:+ itoa nano +:+ itoa i in
      rest ← probeEmails n' (i + 1) domain;
      mret ((randomLocal +:+ "@" +:+ domain) :: rest)
  end.

(** The second loop: the count of probes accepted. *)
Fixpoint countAccepted (probes : list string) (mxHost : string) (acceptCount : Z) : M Z :=
  match probes with
  | [] => mret acceptCount
  | probeEmail :: rest =>
      '(smtpCode, _, err) ← smtpHandshake probeEmail mxHost;
      let acceptCount' :=
        match err with
        | None => if (smtpCode =? 250) || (smtpCode =? 251) then acceptCount + 1 else acceptCount
        | Some _ => acceptCount
        end in
      Sleep (500 * 1000000);;
      countAccepted rest mxHost acceptCount'
  end.

(** [detectCatchAll]; its error result is always nil.  A negative
    [CatchAllProbeCount], on which [make] panics before any probe, is
    outside the embedding, which has no panic: [Z.to_nat] reads it as no
    probe at all. *)
Definition detectCatchAll (domain : string) (mx : MXRecord) : M bool :=
  cached ← getCachedCatchAllStatus domain;
  match cached with
  | Some b => mret b
  | None =>
      probes ← probeEmails (Z.to_nat (CatchAllProbeCount cfg)) 0 domain;
      acceptCount ← countAccepted probes (Exchange mx) 0;
      let isCatchAll := acceptCount >=? Z.quot (CatchAllProbeCount cfg) 2 in
      cacheCatchAllStatus domain isCatchAll;;
      mret isCatchAll
  end.

(** *** DNS MX lookup *)
Definition getMXRecords (domain : string) : M (list MXRecord * option error) :=
  cached ← getCachedMXRecords domain;
  match cached with
  | Some (r :: rs) => mret (r :: rs, None)
  | _ =>
      '(mxs, err) ← LookupMX domain;
      match err with
      | Some e => mret ([], Some e)
      | None =>
          let records :=
            map (fun mx => {| Exchange := TrimSuffix (Host mx) "."; Priority := Pref mx |}) mxs in
          let records := sortMXRecords records in
          cacheMXRecords domain records;;
          mret (records, None)
      end
  end.

(** *** SMTP verification logic *)

(** The retry loop of [verifySMTPWithMX] with [n] rounds left, [last]
    being the current [(smtpCode, smtpResponse, err)].  [inl] is the
    state at the end of the loop, [inr] the early [return nil,
    ctx.Err()]. *)
Fixpoint retryLoop (n : nat) (attempt : Z) (email mxHost : string)
    (last : Z * string * option error) : M (Z * string * option error + error) :=
  match n with
  | O => mret (inl last)
  | S n' =>
      r ← smtpHandshake email mxHost;
      match snd r with
      | None => mret (inl r)
      | Some _ =>
          if negb (isRetryableError (snd r)) then mret (inl r)
          else if attempt <? MaxRetries cfg - 1 then
            interrupted ← After_or_Done (backoff cfg attempt);
            match interrupted with
            | Some e => mret (inr e)
            | None => retryLoop n' (attempt + 1) email mxHost r
            end
          else retryLoop n' (attempt + 1) email mxHost r
      end
  end.

(** [verifySMTPWithMX]: [inl] a result (with a nil error), [inr] an error
    (with a nil result). *)
Definition verifySMTPWithMX (email domain : string) (mx : MXRecord) (startTime : Z)
  : M (ValidationResult + error) :=
  let emailHash := hashEmail email in
  limited ← waitForRateLimit domain (Exchange mx);
  match limited with
  | Some e => mret (inr e)
  | None =>
      looped ← retryLoop (Z.to_nat (MaxRetries cfg)) 0 email (Exchange mx) (0, "", None);
      match looped with
      | inr e => mret (inr e)
      | inl (_, _, Some e) => mret (inr e)
      | inl (smtpCode, smtpResponse, None) =>
          let '(status, reason, confidence) := classifySMTPResponse smtpCode smtpResponse in
          '(isCatchAll, status, reason, confidence) ←
            (if bool_decide (status = StatusValid) && EnableCatchAllDetection cfg then
               isCatchAll ← detectCatchAll domain mx;
               if isCatchAll : bool
               then mret (true, StatusCatchAll, "catch_all_domain", 0.5%Q)
               else mret (false, status, reason, confidence)
             else mret (false, status, reason, confidence));
          result ← createResult email emailHash domain status reason confidence
                     smtpCode smtpResponse (Exchange mx) [mx] startTime;
          mret (inl (set_IsCatchAll isCatchAll result))
      end
  end.

(** The loop of [performSMTPVerification] over the MX records. *)
Fixpoint tryMXRecords (mxRecords : list MXRecord) (email domain : string) (startTime : Z)
    (lastErr : option error) : M (option ValidationResult * option error) :=
  match mxRecords with
  | [] => mret (None, lastErr)
  | mx :: rest =>
      r ← verifySMTPWithMX email domain mx startTime;
      match r with
      | inl result =>
          if bool_decide (Status result = StatusValid) || bool_decide (Status result = StatusInvalid)
          then mret (Some result, None)
          else tryMXRecords rest email domain startTime None
      | inr err => tryMXRecords rest email domain startTime (Some err)
      end
  end.

Definition performSMTPVerification (email domain : string) (mxRecords : list MXRecord)
  : M (ValidationResult * option error) :=
  startTime ← time_Now;
  let emailHash := hashEmail email in
  r ← tryMXRecords mxRecords email domain startTime None;
  match r with
  | (Some result, _) => mret (result, None)
  | (None, lastErr) =>
      result ← createResult email emailHash domain StatusUnknown "all_mx_failed" 0.2%Q
                 0 "" "" mxRecords startTime;
      mret (result, lastErr)
  end.

(** *** Public API

    [Verify] validates a single email address; its error result is always
    nil. *)
Definition Verify (email : string) : M ValidationResult :=
  startTime ← time_Now;
  let email := ToLower (TrimSpace email) in
  let emailHash := hashEmail email in
  cached ← getCachedResult emailHash;
  match cached with
  | Some result => mret result
  | None =>
      if negb (isValidEmailSyntax email) then
        createResult email emailHash "" StatusInvalid "syntax_error" 1.0%Q 0 "" "" [] startTime
      else
        match Split email "@" with
        | [_; domain] =>
            '(mxRecords, err) ← getMXRecords domain;
            if bool_decide (err ≠ None) || (Z.of_nat (length mxRecords) =? 0) then
              createResult email emailHash domain StatusInvalid "no_mx_records" 0.95%Q
                0 "" "" [] startTime
            else
              domainMeta ← getDomainMetadata domain;
              if match domainMeta with Some meta => MetaIsDisposable meta | None => false end then
                createResult email emailHash domain StatusRisky "disposable_domain" 0.9%Q
                  0 "" "" mxRecords startTime
              else
                '(result, err) ← performSMTPVerification email domain mxRecords;
                match err with
                | Some e =>
                    createResult email emailHash domain StatusUnknown
                      ("smtp_error: " +:+ Error e) 0.2%Q 0 "" "" mxRecords startTime
                | None =>
                    cacheResult emailHash result;;
                    mret result
                end
        | _ =>
            createResult email emailHash "" StatusInvalid "invalid_format" 1.0%Q
              0 "" "" [] startTime
        end
  end.

(** The loop of [handleBatchValidate] (main.go): the addresses of a batch
    are verified one after the other; [Verify] never returns an error, so
    the result of each is kept. *)
Fixpoint verifyBatch (emails : list string) : M (list ValidationResult) :=
  match emails with
  | [] => mret []
  | email :: rest =>
      result ← Verify email;
      results ← verifyBatch rest;
      mret (result :: results)
  end.

End Verifier.

(** ** Specification side: languages, predicates and scenarios *)

Open Scope list_scope.

(** The language of a regular expression. *)
Inductive lang : regex -> list ascii -> Prop :=
  | lang_eps : lang Eps []
  | lang_class cl c : class_mem cl c = true -> lang (Class cl) [c]
  | lang_cat r1 r2 s1 s2 : lang r1 s1 -> lang r2 s2 -> lang (Cat r1 r2) (s1 ++ s2)
  | lang_alt_l r1 r2 s : lang r1 s -> lang (Alt r1 r2) s
  | lang_alt_r r1 r2 s : lang r2 s -> lang (Alt r1 r2) s
  | lang_star_nil r : lang (Star r) []
  | lang_star_app r s1 s2 : lang r s1 -> lang (Star r) s2 -> lang (Star r) (s1 ++ s2).

(** Occurrences of a byte in a list of bytes. *)
Fixpoint count_in (c : ascii) (l : list ascii) : nat :=
  match l with
  | [] => O
  | b :: l' => (if Ascii.eqb b c then 1 else 0)%nat + count_in c l'
  end.

(** Ascending order of MX records. *)
Definition by_priority (a b : MXRecord) : Prop := Priority a <= Priority b.

(** The order in which [net.LookupMX] returns its records: "sorted by
    preference". *)
Definition by_pref (a b : NetMX) : Prop := Pref a <= Pref b.

(** What [getMXRecords] makes of one answer of the resolver. *)
Definition record_of_mx (mx : NetMX) : MXRecord :=
  {| Exchange := TrimSuffix (Host mx) "."; Priority := Pref mx |}.

(** The normal form of an address: [strings.ToLower(strings.TrimSpace(raw))]. *)
Definition normalize {U : Unicode} (raw : string) : string := ToLower (TrimSpace raw).

(** The words of the specification for the normal form, written without
    the functions of the code: white space is one of the six ASCII
    blanks, the lower case of an ASCII capital is the small letter at the
    same place of the alphabet, and the trimmed, lower-cased form of an
    input is the input without the blanks at its two ends, every letter in
    lower case. *)
Definition blank (c : ascii) : bool :=
  existsb (Ascii.eqb c)
    ["009"%char; "010"%char; "011"%char; "012"%char; "013"%char; " "%char].

Definition capitals : list ascii := list_ascii_of_string "ABCDEFGHIJKLMNOPQRSTUVWXYZ".
Definition small_letters : list ascii := list_ascii_of_string "abcdefghijklmnopqrstuvwxyz".

Fixpoint replace_by_place (from to : list ascii) (c : ascii) : ascii :=
  match from, to with
  | a :: from', b :: to' => if Ascii.eqb c a then b else replace_by_place from' to' c
  | _, _ => c
  end.

Definition lower_case (c : ascii) : ascii := replace_by_place capitals small_letters c.

Fixpoint drop_blanks (l : list ascii) : list ascii :=
  match l with
  | c :: l' => if blank c then drop_blanks l' else l
  | [] => []
  end.

Definition trimmed_lowercased (raw : string) : string :=
  string_of_list_ascii
    (map lower_case (rev (drop_blanks (rev (drop_blanks (list_ascii_of_string raw)))))).

(** What the verifier relies on from the Unicode halves of [ToLower] and
    [TrimSpace].  In Go, [TrimFunc(s, unicode.IsSpace)] leaves no space at
    either end, lower-casing maps no rune to a space, and the lower-case
    mapping of a rune is its own lower case. *)
Class UnicodeLaws (U : Unicode) : Prop := {
  trim_space_fixed : forall s,
    is_ascii s = false -> TrimSpace (TrimFuncIsSpace s) = TrimFuncIsSpace s;
  lower_keeps_trimmed : forall s,
    is_ascii s = false -> TrimSpace s = s -> TrimSpace (MapToLower s) = MapToLower s;
  lower_fixed : forall s,
    is_ascii s = false -> ToLower (MapToLower s) = MapToLower s
}.

Definition no_leading_space (s : string) : Prop :=
  match s with
  | EmptyString => True
  | String c _ => is_space c = false
  end.

(** A computation that leaves the Result Cache as it found it. *)
Definition keeps_results {A : Type} (m : M A) : Prop :=
  forall w, results (snd (m w)) = results w.

(** The coupling of a verdict's status with its catch-all flag. *)
Definition coupled (r : ValidationResult) : Prop :=
  (Status r = StatusValid -> IsCatchAll r = false) /\
  (Status r = StatusCatchAll -> IsCatchAll r = true).

(** Every verdict held by the Result Cache is coupled. *)
Definition cache_coupled (w : World) : Prop :=
  forall key r, results w !! key = Some r -> coupled r.

(** *** Scenarios

    Concrete worlds and environments on which the verifier is run.  Their
    strings are ASCII, so the Unicode halves of [ToLower] and [TrimSpace]
    are never reached; [ascii_runtime] leaves such strings alone. *)

Definition ascii_runtime : Unicode :=
  {| MapToLower := fun s => s; TrimFuncIsSpace := fun s => s |}.

(** An empty Redis, no interaction made yet. *)
Definition empty_world : World := mkWorld ∅ ∅ ∅ ∅ ∅ 0 [] [].

(** A clock that advances one millisecond per interaction. *)
Definition steady_clock (n : nat) : Z := 1700000000 * Second + Z.of_nat n * 1000000.

(** Redis reachable, the context never done. *)
Definition calm_env (dns : string -> nat -> list NetMX * option error)
    (smtp : string -> string -> nat -> Session) : Env :=
  {| redis_ok := fun _ => true; clock := steady_clock; dns := dns; smtp := smtp;
     ctx_done := fun _ => None |}.

Definition one_mx (host : string) : string -> nat -> list NetMX * option error :=
  fun _ _ => ([mkNetMX host 10], None).

Definition rejection : Session := RcptReplies (Some (ErrorString "550 5.1.1 User unknown")).

(** A domain whose MX accepts every recipient and whose catch-all flag is
    already known: the flag is in the catch-all cache and in the domain
    metadata, checked at the current time. *)
Definition accept_all_env : Env :=
  calm_env (one_mx "mx.catchall.test.") (fun _ _ _ => RcptReplies None).

Definition known_catchall_world : World :=
  mkWorld ∅ ∅
    {[ "domain:meta:catchall.test" :=
         mkDomainMetadata (Some true) (Some (steady_clock 0)) false [] (steady_clock 0) ]}
    {[ "domain:catchall:catchall.test" := "1" ]}
    ∅ 0 [] [].

(** A caller whose deadline has passed: Redis commands fail, every dial
    fails on the context and every select finds the context done.  The
    resolver, which takes no context, still answers. *)
Definition expired_env : Env :=
  {| redis_ok := fun _ => false; clock := steady_clock;
     dns := one_mx "mx.example.com.";
     smtp := fun _ _ _ => DialFails (Wrapped "dial tcp 192.0.2.1:25" DeadlineExceeded);
     ctx_done := fun _ => Some DeadlineExceeded |}.

(** A resolver that times out. *)
Definition dns_timeout : error :=
  Wrapped "lookup slow.test on 192.0.2.53:53" (ErrorString "i/o timeout").

Definition slow_dns_env : Env :=
  calm_env (fun _ _ => ([], Some dns_timeout)) (fun _ _ _ => RcptReplies None).

(** An answer of the resolver, sorted by preference as [net.LookupMX]
    returns it: three records, two of them of equal preference, one with
    upper-case letters in its name. *)
Definition tied_answer : list NetMX :=
  [mkNetMX "backup.example.com." 10; mkNetMX "MX-B.Example.COM." 20;
   mkNetMX "mx-a.example.com." 20].

Definition tied_env : Env :=
  calm_env (fun _ _ => (tied_answer, None)) (fun _ _ _ => RcptReplies None).

(** An MX that rejects every recipient, and one that accepts only the
    session opened at interaction 4, the first of three probes. *)
Definition reject_all_env : Env :=
  calm_env (one_mx "mx.example.com.") (fun _ _ _ => rejection).

Definition accept_first_probe_env : Env :=
  calm_env (one_mx "mx.example.com.")
    (fun _ _ n => if Nat.eqb n 4 then RcptReplies None else rejection).

(** [cfg] with [CatchAllProbeCount] set to [k]. *)
Definition with_probes (k : Z) (cfg : Config) : Config :=
  mkConfig (SMTPConnectTimeout cfg) (SMTPReadTimeout cfg) (SMTPWriteTimeout cfg)
    (EHLOHostname cfg) (MailFrom cfg) (MaxConcurrentPerDomain cfg) (MaxConcurrentPerMX cfg)
    (DomainRateLimit cfg) (MaxRetries cfg) (RetryBackoff cfg) (RetryBackoffFactor cfg)
    (EnableCatchAllDetection cfg) k (MXCacheTTL cfg) (ResultCacheTTL cfg)
    (DomainMetaCacheTTL cfg).

(** An MX whose port never answers, and one that defers every recipient. *)
Definition unreachable_env : Env :=
  calm_env (one_mx "mx.example.com.")
    (fun _ _ _ => DialFails (Wrapped "dial tcp 192.0.2.1:25" (ErrorString "i/o timeout"))).

Definition deferring_env : Env :=
  calm_env (one_mx "mx.example.com.")
    (fun _ _ _ => RcptReplies (Some (ErrorString "450 4.2.1 Mailbox busy"))).

(** An address of 262 bytes: 250 letters, the [@] and [example.com]. *)
Definition long_address : string :=
  string_of_list_ascii (repeat "a"%char 250) +:+ "@example.com".

(** An address of 333 bytes. *)
Definition oversized_address : string :=
  string_of_list_ascii (repeat "a"%char 321) +:+ "@example.com".

(** The context is done whenever the verifier waits on it. *)
Definition context_done (env : Env) (ce : error) : Prop :=
  forall n, ctx_done env n = Some ce.

(** Every dial fails with an error that wraps a context error. *)
Definition dials_fail_on_context (env : Env) : Prop :=
  forall host rcpt n, exists e,
    smtp env host rcpt n = DialFails e /\ Is_DeadlineExceeded e || Is_Canceled e = true.

(** The MX answers every RCPT TO for the recipient with 250 or 251. *)
Definition accepts (env : Env) (host rcpt : string) : Prop :=
  forall n, exists code response,
    handshake_returns (smtp env host rcpt n) = (code, response, None)
    /\ (code = 250 \/ code = 251).

(** The domain [Verify] extracts from a normalized address: the second of
    the two pieces around its [@]. *)
Definition domain_of (email : string) : string :=
  match Split email "@" with
  | [_; domain] => domain
  | _ => EmptyString
  end.

(** ** Further predicates

    Bytes of the three bracket expressions of [emailRegex], as tests on one
    byte, and a test on every byte of a string. *)

Fixpoint all_bytes (p : ascii -> bool) (s : string) : bool :=
  match s with
  | EmptyString => true
  | String c s' => p c && all_bytes p s'
  end.

Definition is_letter (c : ascii) : bool := in_range "a" "z" c || in_range "A" "Z" c.

Definition local_byte (c : ascii) : bool :=
  is_letter c || is_digit c || Ascii.eqb c "." || Ascii.eqb c "_" || Ascii.eqb c "%"
  || Ascii.eqb c "+" || Ascii.eqb c "-".

Definition domain_byte (c : ascii) : bool :=
  is_letter c || is_digit c || Ascii.eqb c "." || Ascii.eqb c "-".

(** The three rows of the classifier that reach the caller, and the
    verdict of the end of the MX list. *)
Definition smtp_row (r : ValidationResult) : Prop :=
  (Status r = StatusValid /\ Reason r = "mailbox_exists" /\ Confidence r = 0.98%Q
   /\ IsCatchAll r = false /\ (SMTPCode r = 250 \/ SMTPCode r = 251))
  \/ (Status r = StatusInvalid /\ Reason r = "mailbox_not_found" /\ Confidence r = 0.95%Q
      /\ IsCatchAll r = false /\ (SMTPCode r = 550 \/ SMTPCode r = 551 \/ SMTPCode r = 553))
  \/ (Status r = StatusInvalid /\ Reason r = "smtp_error_" +:+ itoa (SMTPCode r)
      /\ Confidence r = 0.7%Q /\ IsCatchAll r = false /\ 500 <= SMTPCode r)
  \/ (Status r = StatusUnknown /\ Reason r = "all_mx_failed" /\ Confidence r = 0.2%Q
      /\ IsCatchAll r = false /\ SMTPCode r = 0).

(** A computation that opens no SMTP session. *)
Definition keeps_sessions {A : Type} (m : M A) : Prop :=
  forall w, sessions (snd (m w)) = sessions w.

(** A verdict made by [createResult] with the given status, reason and
    confidence. *)
Definition verdict_is (r : ValidationResult) (status : ValidationStatus) (reason : string)
    (confidence : Q) : Prop :=
  Status r = status /\ Reason r = reason /\ Confidence r = confidence /\ IsCatchAll r = false.

(** The key of the Result Cache for a raw input. *)
Definition result_key {U : Unicode} (raw : string) : string :=
  "validation:result:" +:+ hashEmail (normalize raw).

(** A digit of lower-case hexadecimal. *)
Definition is_hex_lower (c : ascii) : bool := in_range "0" "9" c || in_range "a" "f" c.

(** A computation that leaves an observation [f] of the world as it found
    it. *)
Definition keeps {A B : Type} (f : World -> B) (m : M A) : Prop :=
  forall w, f (snd (m w)) = f w.

(** The four keys of Redis, besides that of its verdict, that the
    verification of an address of the given domain can write. *)
Definition mx_key (domain : string) : string := "mx:records:" +:+ domain.
Definition catchall_key (domain : string) : string := "domain:catchall:" +:+ domain.
Definition rate_key (domain : string) : string := "ratelimit:domain:" +:+ domain +:+ ":last".

(** The world after [user@example.com] has been verified against an MX
    that rejects every recipient: its verdict is in the Result Cache. *)
Definition verified_world : World :=
  snd (Verify (U:=ascii_runtime) DefaultConfig reject_all_env "user@example.com" empty_world).

Definition verified_verdict : ValidationResult :=
  fst (Verify (U:=ascii_runtime) DefaultConfig reject_all_env "user@example.com" empty_world).

(** A probe address of [detectCatchAll] at [domain]. *)
Definition probe_of (domain rcpt : string) : Prop :=
  exists nano i : Z, rcpt = ("probeverify" +:+ itoa nano +:+ itoa i) +:+ "@" +:+ domain.

(** A session with one of [hosts], for the address or for a probe at its
    domain. *)
Definition session_for (hosts : list string) (email domain : string) (s : string * string)
  : Prop :=
  fst s ∈ hosts /\ (snd s = email \/ probe_of domain (snd s)).

(** A computation that only adds sessions that satisfy [P] to the log. *)
Definition contacts {A : Type} (P : string * string -> Prop) (m : M A) : Prop :=
  forall w, exists new, sessions (snd (m w)) = sessions w ++ new /\ Forall P new.

(** Every verdict in the Result Cache is stored under its own
    fingerprint. *)
Definition cache_keyed (w : World) : Prop :=
  forall key r, results w !! key = Some r -> key = "validation:result:" +:+ EmailHash r.

(** ** The HTTP handlers (main.go), from the decoded request on

    [Verify] has no error result, so the branches of the handlers for an
    error of [Verify] have no counterpart. *)
Inductive Response : Type :=
  | BadRequest (msg : string)                    (* http.Error(w, msg, 400) *)
  | ResultOK (result : ValidationResult)         (* 200, the verdict *)
  | BatchOK (results : list ValidationResult).   (* 200, BatchValidateResponse *)

Definition handleValidate {U : Unicode} (cfg : Config) (env : Env) (email : string)
  : M Response :=
  if String.eqb email "" then mret (BadRequest "Email is required")
  else
    result ← Verify cfg env email;
    mret (ResultOK result).

Definition handleBatchValidate {U : Unicode} (cfg : Config) (env : Env) (emails : list string)
  : M Response :=
  if Z.of_nat (length emails) =? 0 then mret (BadRequest "Emails array is required")
  else if Z.of_nat (length emails) >? 1000 then mret (BadRequest "Maximum 1000 emails per batch")
  else
    results ← verifyBatch cfg env emails;
    mret (BatchOK results).

(** A Redis whose domain metadata mark [tempmail.test] disposable. *)
Definition disposable_world : World :=
  mkWorld ∅ ∅
    {[ "domain:meta:tempmail.test" :=
         mkDomainMetadata None None true [] (steady_clock 0) ]}
    ∅ ∅ 0 [] [].

(** * Properties *)

(** ** The embedding on known values *)

(** The test vectors of FIPS 180-4 for one-block and empty messages, and a
    message of two blocks. *)
Example SHA256_abc :
  EncodeToString (SHA256.sum (bytes_of_string "abc"))
  = "ba7816bf8f01cfea414140de5dae2223b00361a396177a9cb410ff61f20015ad".
Proof. vm_compute. reflexivity. Qed.

Example SHA256_empty :
  EncodeToString (SHA256.sum (bytes_of_string ""))
  = "e3b0c44298fc1c149afbf4c8996fb92427ae41e4649b934ca495991b7852b855".
Proof. vm_compute. reflexivity. Qed.

Example SHA256_two_blocks :
  EncodeToString (SHA256.sum (bytes_of_string (string_of_list_ascii (repeat "a"%char 70))))
  = "6bd5e5034855a11241f0dee8fc72850ffd9955b28347a86428b5fa19119f6ad0".
Proof. vm_compute. reflexivity. Qed.

Example isValidEmailSyntax_examples :
  isValidEmailSyntax "user.name+tag@mail.example.com" = true
  /\ isValidEmailSyntax "not an email" = false
  /\ isValidEmailSyntax "a@b@example.com" = false
  /\ isValidEmailSyntax "user@example.c" = false
  /\ isValidEmailSyntax "user@example.c0m" = false
  /\ isValidEmailSyntax "@example.com" = false.
Proof. vm_compute. repeat split; reflexivity. Qed.

Example normalize_example :
  ToLower (U:=ascii_runtime) (TrimSpace (U:=ascii_runtime) "  User@Example.COM ")
  = "user@example.com".
Proof. vm_compute. reflexivity. Qed.

Example parseSMTPError_examples :
  parseSMTPError (ErrorString "550 5.1.1 User unknown") = (550, "550 5.1.1 User unknown")
  /\ parseSMTPError (ErrorString "read tcp: connection reset by peer")
     = (0, "read tcp: connection reset by peer")
  /\ parseSMTPError (Wrapped "MAIL FROM failed" (ErrorString "451 4.7.1 Try again later"))
     = (0, "MAIL FROM failed: 451 4.7.1 Try again later")
  /\ parseSMTPError (ErrorString "550_ x") = (550, "550_ x")
  /\ parseSMTPError (ErrorString " 421 Service not available")
     = (421, " 421 Service not available")
  /\ parseSMTPError (ErrorString "99999999999999999999 x") = (0, "99999999999999999999 x").
Proof. vm_compute. repeat split; reflexivity. Qed.

Example sortMXRecords_example :
  sortMXRecords [mkMXRecord "d" 30; mkMXRecord "b" 10; mkMXRecord "c" 20; mkMXRecord "a" 5]
  = [mkMXRecord "a" 5; mkMXRecord "b" 10; mkMXRecord "c" 20; mkMXRecord "d" 30].
Proof. vm_compute. reflexivity. Qed.

(** ** The matcher decides the language of the expression *)

Lemma nullable_lang r : nullable r = true <-> lang r [].
Proof.
  split.
  - induction r; simpl; intros Hn; try discriminate.
    + constructor.
    + apply andb_true_iff in Hn as [H1 H2].
      change (@nil ascii) with (@nil ascii ++ [])%list. constructor; auto.
    + apply orb_true_iff in Hn as [H|H]; [apply lang_alt_l | apply lang_alt_r]; auto.
    + constructor.
  - intros H. remember (@nil ascii) as s eqn:Hs.
    induction H; simpl; try discriminate; auto.
    + apply app_eq_nil in Hs as [-> ->]. rewrite IHlang1, IHlang2; auto.
    + rewrite IHlang; auto.
    + rewrite IHlang; auto using orb_true_r.
Qed.

Lemma lang_void s : ~ lang Void s.
Proof. intros H; inversion H. Qed.

Lemma lang_eps_inv s : lang Eps s -> s = [].
Proof. intros H; inversion H; reflexivity. Qed.

Lemma lang_cat_inv r1 r2 s :
  lang (Cat r1 r2) s -> exists s1 s2, s = (s1 ++ s2)%list /\ lang r1 s1 /\ lang r2 s2.
Proof. intros H; inversion H; subst; eauto. Qed.

Lemma lang_alt_inv r1 r2 s : lang (Alt r1 r2) s -> lang r1 s \/ lang r2 s.
Proof. intros H; inversion H; subst; auto. Qed.

Lemma lang_class_inv cl s : lang (Class cl) s -> exists c, s = [c] /\ class_mem cl c = true.
Proof. intros H; inversion H; subst; eauto. Qed.

Lemma cat_lang r1 r2 s : lang (cat r1 r2) s <-> lang (Cat r1 r2) s.
Proof.
  split.
  - destruct r1, r2; simpl; intros H;
      try (exfalso; exact (lang_void _ H)); try exact H;
      change s with ([] ++ s)%list; constructor; auto; constructor.
  - intros H. apply lang_cat_inv in H as (s1 & s2 & -> & H1 & H2).
    destruct r1, r2; simpl;
      try (exfalso; first [exact (lang_void _ H1) | exact (lang_void _ H2)]);
      try (apply lang_eps_inv in H1; subst; exact H2);
      constructor; assumption.
Qed.

Lemma alt_lang r1 r2 s : lang (alt r1 r2) s <-> lang (Alt r1 r2) s.
Proof.
  split.
  - destruct r1, r2; simpl; intros H;
      try exact H;
      try (exfalso; exact (lang_void _ H));
      first [ solve [apply lang_alt_r; exact H] | solve [apply lang_alt_l; exact H] ].
  - intros H. apply lang_alt_inv in H as [H|H];
      destruct r1, r2; simpl;
      try (exfalso; exact (lang_void _ H));
      try assumption;
      first [ solve [apply lang_alt_l; assumption] | solve [apply lang_alt_r; assumption] ].
Qed.

Lemma lang_star_cons r c s :
  lang (Star r) (c :: s) ->
  exists s1 s2, s = (s1 ++ s2)%list /\ lang r (c :: s1) /\ lang (Star r) s2.
Proof.
  intros H. remember (Star r) as r' eqn:Hr. remember (c :: s) as cs eqn:Hcs.
  induction H; try discriminate.
  injection Hr as ->.
  destruct s1 as [|c' s1'].
  - simpl in Hcs. apply IHlang2; auto.
  - simpl in Hcs. injection Hcs as Hc Hs. subst c' s. eauto.
Qed.

Lemma lang_cat_cons r1 r2 c s1 s2 :
  lang r1 (c :: s1) -> lang r2 s2 -> lang (Cat r1 r2) (c :: s1 ++ s2).
Proof. intros H1 H2. change (c :: s1 ++ s2)%list with ((c :: s1) ++ s2)%list. constructor; assumption. Qed.

Lemma deriv_lang c r s : lang (deriv c r) s <-> lang r (c :: s).
Proof.
  revert s. induction r; intros s; simpl.
  - split; intros H; inversion H.
  - split; intros H; inversion H.
  - destruct (class_mem cl c) eqn:Hm; split; intros H.
    + apply lang_eps_inv in H; subst. constructor; assumption.
    + apply lang_class_inv in H as (c' & Heq & Hc). injection Heq as -> ->. constructor.
    + inversion H.
    + apply lang_class_inv in H as (c' & Heq & Hc). injection Heq as -> ->. congruence.
  - destruct (nullable r1) eqn:Hn.
    + rewrite alt_lang. split; intros H.
      * apply lang_alt_inv in H as [H|H].
        -- apply cat_lang, lang_cat_inv in H as (s1 & s2 & -> & H1 & H2).
           apply lang_cat_cons; [apply IHr1|]; assumption.
        -- change (c :: s) with ([] ++ c :: s)%list.
           constructor; [apply nullable_lang; assumption | apply IHr2; assumption].
      * apply lang_cat_inv in H as (s1 & s2 & Heq & H1 & H2).
        destruct s1 as [|c' s1']; simpl in Heq; subst.
        -- apply lang_alt_r, IHr2; assumption.
        -- injection Heq as Hc Hs. subst c' s.
           apply lang_alt_l, cat_lang. constructor; [apply IHr1|]; assumption.
    + rewrite cat_lang. split; intros H.
      * apply lang_cat_inv in H as (s1 & s2 & -> & H1 & H2).
        apply lang_cat_cons; [apply IHr1|]; assumption.
      * apply lang_cat_inv in H as (s1 & s2 & Heq & H1 & H2).
        destruct s1 as [|c' s1']; simpl in Heq; subst.
        -- apply nullable_lang in H1. congruence.
        -- injection Heq as Hc Hs. subst c' s. constructor; [apply IHr1|]; assumption.
  - rewrite alt_lang. split; intros H.
    + apply lang_alt_inv in H as [H|H]; [apply lang_alt_l, IHr1 | apply lang_alt_r, IHr2]; assumption.
    + apply lang_alt_inv in H as [H|H]; [apply lang_alt_l, IHr1 | apply lang_alt_r, IHr2]; assumption.
  - rewrite cat_lang. split; intros H.
    + apply lang_cat_inv in H as (s1 & s2 & -> & H1 & H2).
      change (c :: s1 ++ s2)%list with ((c :: s1) ++ s2)%list.
      apply lang_star_app; [apply IHr|]; assumption.
    + apply lang_star_cons in H as (s1 & s2 & -> & H1 & H2).
      constructor; [apply IHr|]; assumption.
Qed.

Lemma matches_lang r s : matches r s = true <-> lang r s.
Proof.
  revert r. induction s as [|c s IH]; intros r; simpl.
  - apply nullable_lang.
  - rewrite IH. apply deriv_lang.
Qed.

(** ** What the syntax filter accepts *)

Lemma lang_star_class cl s :
  lang (Star (Class cl)) s -> Forall (fun c => class_mem cl c = true) s.
Proof.
  intros H. remember (Star (Class cl)) as r eqn:Hr.
  induction H; try discriminate.
  - constructor.
  - injection Hr as ->. apply lang_class_inv in H as (c & -> & Hc).
    constructor; auto.
Qed.

Lemma lang_plus_class cl s :
  lang (Plus (Class cl)) s -> Forall (fun c => class_mem cl c = true) s /\ s <> [].
Proof.
  intros H. apply lang_cat_inv in H as (s1 & s2 & -> & H1 & H2).
  apply lang_class_inv in H1 as (c & -> & Hc). apply lang_star_class in H2.
  split; [constructor; assumption | discriminate].
Qed.

Lemma count_in_app c l1 l2 : count_in c (l1 ++ l2) = (count_in c l1 + count_in c l2)%nat.
Proof. induction l1 as [|b l1 IH]; simpl; [reflexivity | rewrite IH; lia]. Qed.

Lemma count_in_class cl x l :
  class_mem cl x = false -> Forall (fun c => class_mem cl c = true) l -> count_in x l = O.
Proof.
  intros Hx H. induction H as [|b l Hb _ IH]; simpl; [reflexivity|].
  destruct (Ascii.eqb b x) eqn:E; [|exact IH].
  apply Ascii.eqb_eq in E. subst. congruence.
Qed.

Lemma count_byte_list c s : count_byte c s = count_in c (list_ascii_of_string s).
Proof. induction s as [|b s IH]; simpl; [reflexivity | rewrite IH; reflexivity]. Qed.

Lemma length_Split s c : length (Split s c) = S (count_byte c s).
Proof.
  induction s as [|b s IH]; simpl; [reflexivity|].
  destruct (Ascii.eqb b c); simpl; [rewrite IH; reflexivity|].
  destruct (Split s c); simpl in *; [discriminate | lia].
Qed.

(** The shape of a string of the language of [emailRegex]: a local part,
    the [@], a domain, a dot and a top-level label of two letters or more,
    each part drawn from its class. *)
Lemma emailRegex_shape s :
  lang emailRegex s ->
  exists local dom tld,
    s = (local ++ "@"%char :: dom ++ "."%char :: tld)%list /\
    local <> [] /\ dom <> [] /\ (2 <= length tld)%nat /\
    count_in "@" local = O /\ count_in "@" dom = O /\ count_in "@" tld = O.
Proof.
  unfold emailRegex. intros H.
  apply lang_cat_inv in H as (local & s1 & -> & Hl & H).
  apply lang_cat_inv in H as (at_ & s2 & -> & Ha & H).
  apply lang_cat_inv in H as (dom & s3 & -> & Hd & H).
  apply lang_cat_inv in H as (dot & tld & -> & Hdot & H).
  simpl in H.
  apply lang_cat_inv in H as (t1 & t' & -> & Ht1 & H).
  apply lang_cat_inv in H as (t2 & t3 & -> & Ht2 & Ht3).
  apply lang_plus_class in Hl as [Hl Hl0]. apply lang_plus_class in Hd as [Hd Hd0].
  apply lang_class_inv in Ha as (a & -> & Ha). apply lang_class_inv in Hdot as (d & -> & Hdot).
  apply lang_class_inv in Ht1 as (c1 & -> & Hc1). apply lang_class_inv in Ht2 as (c2 & -> & Hc2).
  apply lang_star_class in Ht3.
  assert (a = "@"%char) as ->.
  { unfold Lit, class_mem in Ha. simpl in Ha. rewrite orb_false_r in Ha. apply Ascii.eqb_eq in Ha. exact Ha. }
  assert (d = "."%char) as ->.
  { unfold Lit, class_mem in Hdot. simpl in Hdot. rewrite orb_false_r in Hdot. apply Ascii.eqb_eq in Hdot. exact Hdot. }
  exists local, dom, ([c1] ++ [c2] ++ t3)%list. repeat split; auto.
  - simpl. lia.
  - eapply count_in_class; [|exact Hl]. reflexivity.
  - eapply count_in_class; [|exact Hd]. reflexivity.
  - eapply count_in_class with (cl := [CRange "a" "z"; CRange "A" "Z"]); [reflexivity|].
    simpl. repeat constructor; assumption.
Qed.

Lemma MatchString_emailRegex_one_at email :
  MatchString emailRegex email = true -> count_byte "@" email = 1%nat.
Proof.
  unfold MatchString. intros H. apply matches_lang, emailRegex_shape in H.
  destruct H as (local & dom & tld & Hs & _ & _ & _ & Hl & Hd & Ht).
  rewrite count_byte_list, Hs.
  rewrite count_in_app. simpl. rewrite count_in_app. simpl. lia.
Qed.

Lemma isValidEmailSyntax_sound email :
  isValidEmailSyntax email = true ->
  count_byte "@" email = 1%nat /\ (String.length email <= 320)%nat.
Proof.
  unfold isValidEmailSyntax. intros H. apply andb_true_iff in H as [Hm Hlen].
  split; [apply MatchString_emailRegex_one_at; exact Hm | apply Z.leb_le in Hlen; lia].
Qed.

Lemma isValidEmailSyntax_Split email :
  isValidEmailSyntax email = true ->
  exists local domain, Split email "@" = [local; domain].
Proof.
  intros H. apply isValidEmailSyntax_sound in H as [H _].
  pose proof (length_Split email "@") as Hlen. rewrite H in Hlen.
  destruct (Split email "@") as [|a [|b [|c l]]]; simpl in Hlen; try discriminate; eauto.
Qed.

Lemma isValidEmailSyntax_long email :
  (320 < String.length email)%nat -> isValidEmailSyntax email = false.
Proof.
  intros H. unfold isValidEmailSyntax. apply andb_false_iff. right. apply Z.leb_gt. lia.
Qed.

(** ** [sortMXRecords] sorts by priority and permutes *)

Lemma lookup_second_hole (pre mid rest : list MXRecord) x y :
  (pre ++ x :: mid ++ y :: rest) !! (length pre + S (length mid))%nat = Some y.
Proof.
  rewrite lookup_app_r by lia.
  replace (length pre + S (length mid) - length pre)%nat with (S (length mid)) by lia.
  simpl. apply list_lookup_middle. reflexivity.
Qed.

Lemma swap_holes (pre mid rest : list MXRecord) x y :
  swap (length pre) (length pre + S (length mid)) (pre ++ x :: mid ++ y :: rest)
  = pre ++ y :: mid ++ x :: rest.
Proof.
  unfold swap.
  rewrite list_lookup_middle by reflexivity. rewrite lookup_second_hole.
  rewrite insert_app_r. simpl.
  replace (length mid) with (length mid + 0)%nat at 1 by lia.
  rewrite insert_app_r. simpl.
  replace (length pre) with (length pre + 0)%nat at 1 by lia.
  rewrite insert_app_r. reflexivity.
Qed.

Lemma sort_inner_spec (rest : list MXRecord) :
  forall pre x mid,
    Forall (by_priority x) mid ->
    exists x' tl,
      sort_inner (length rest) (length pre) (length pre + S (length mid))
        (pre ++ x :: mid ++ rest) = pre ++ x' :: tl
      /\ Forall (by_priority x') tl
      /\ x' :: tl ≡ₚ x :: mid ++ rest.
Proof.
  induction rest as [|y rest IH]; intros pre x mid Hmid.
  - exists x, mid. simpl. rewrite app_nil_r. auto.
  - cbn [length sort_inner].
    rewrite list_lookup_middle by reflexivity. rewrite lookup_second_hole.
    destruct (Priority x >? Priority y) eqn:Hgt.
    + rewrite swap_holes.
      destruct (IH pre y (mid ++ [x])) as (x' & tl & Heq & Hall & Hperm).
      { apply Forall_app. split.
        - eapply Forall_impl; [exact Hmid|]. unfold by_priority. intros m Hm.
          apply Z.gtb_lt in Hgt. lia.
        - constructor; [|constructor]. unfold by_priority. apply Z.gtb_lt in Hgt. lia. }
      exists x', tl. rewrite length_app in Heq. simpl in Heq.
      replace (S (length pre + S (length mid))) with (length pre + S (length mid + 1))%nat by lia.
      rewrite <- app_assoc in Heq. simpl in Heq. rewrite Heq.
      split; [reflexivity|]. split; [exact Hall|].
      rewrite Hperm. rewrite <- app_assoc. simpl.
      rewrite <- (Permutation_middle mid rest x). rewrite <- (Permutation_middle mid rest y).
      apply perm_swap.
    + destruct (IH pre x (mid ++ [y])) as (x' & tl & Heq & Hall & Hperm).
      { apply Forall_app. split; [exact Hmid|].
        constructor; [|constructor]. unfold by_priority.
        rewrite Z.gtb_ltb in Hgt. apply Z.ltb_ge in Hgt. exact Hgt. }
      exists x', tl. rewrite length_app in Heq. simpl in Heq.
      replace (S (length pre + S (length mid))) with (length pre + S (length mid + 1))%nat by lia.
      rewrite <- app_assoc in Heq. simpl in Heq. rewrite Heq.
      split; [reflexivity|]. split; [exact Hall|].
      rewrite Hperm. rewrite <- app_assoc. reflexivity.
Qed.

Lemma sort_outer_spec (n : nat) :
  forall pre suf,
    length suf = S n ->
    exists suf',
      sort_outer n (length pre) (pre ++ suf) = pre ++ suf'
      /\ StronglySorted by_priority suf'
      /\ suf' ≡ₚ suf.
Proof.
  induction n as [|n IH]; intros pre suf Hlen.
  - destruct suf as [|x [|? ?]]; try discriminate.
    exists [x]. simpl. repeat split; auto. repeat constructor.
  - destruct suf as [|x rest]; [discriminate|]. simpl in Hlen.
    cbn [sort_outer].
    replace (length (pre ++ x :: rest) - S (length pre))%nat with (length rest)
      by (rewrite length_app; simpl; lia).
    destruct (sort_inner_spec rest pre x []) as (x' & tl & Heq & Hall & Hperm); [constructor|].
    simpl in Heq. replace (length pre + 1)%nat with (S (length pre)) in Heq by lia.
    rewrite Heq.
    assert (Htl : length tl = S n).
    { apply Permutation_length in Hperm. simpl in Hperm. lia. }
    destruct (IH (pre ++ [x']) tl Htl) as (tl' & Heq' & Hsorted & Hperm').
    rewrite length_app in Heq'. simpl in Heq'.
    replace (length pre + 1)%nat with (S (length pre)) in Heq' by lia.
    rewrite <- app_assoc in Heq'. simpl in Heq'. rewrite Heq'.
    exists (x' :: tl'). split; [rewrite <- app_assoc; reflexivity|]. split.
    + constructor; [exact Hsorted|]. rewrite Hperm'. exact Hall.
    + rewrite Hperm'. exact Hperm.
Qed.

Lemma sortMXRecords_sorted (records : list MXRecord) :
  StronglySorted by_priority (sortMXRecords records) /\ sortMXRecords records ≡ₚ records.
Proof.
  unfold sortMXRecords. destruct records as [|x rest].
  - simpl. split; constructor.
  - destruct (sort_outer_spec (length rest) [] (x :: rest) eq_refl) as (suf' & Heq & Hs & Hp).
    simpl in Heq. simpl. rewrite Nat.sub_0_r. rewrite Heq. auto.
Qed.

(** A list in ascending order is left as it is. *)
Lemma StronglySorted_lookup_le (l : list MXRecord) :
  StronglySorted by_priority l ->
  forall i j a b, (i < j)%nat -> l !! i = Some a -> l !! j = Some b -> Priority a <= Priority b.
Proof.
  induction 1 as [|x l Hs IH Hall]; intros i j a b Hij Ha Hb.
  - rewrite lookup_nil in Ha. discriminate.
  - destruct j as [|j]; [lia|]. destruct i as [|i].
    + cbn in Ha, Hb. injection Ha as <-.
      rewrite Forall_forall in Hall. apply Hall. eapply list_elem_of_lookup_2.
      exact Hb.
    + cbn in Ha, Hb. apply (IH i j); [lia | assumption | assumption].
Qed.

Lemma sort_inner_sorted (l : list MXRecord) (i : nat) :
  StronglySorted by_priority l ->
  forall n j, (i < j)%nat -> sort_inner n i j l = l.
Proof.
  intros Hs. induction n as [|n IH]; intros j Hij; [reflexivity|].
  cbn [sort_inner].
  destruct (l !! i) as [a|] eqn:Ha; [|apply IH; lia].
  destruct (l !! j) as [b|] eqn:Hb; [|apply IH; lia].
  pose proof (StronglySorted_lookup_le l Hs i j a b Hij Ha Hb) as Hle.
  destruct (Z.gtb_spec (Priority a) (Priority b)); [lia|]. apply IH. lia.
Qed.

Lemma sort_outer_sorted (l : list MXRecord) :
  StronglySorted by_priority l -> forall n i, sort_outer n i l = l.
Proof.
  intros Hs. induction n as [|n IH]; intros i; [reflexivity|].
  cbn [sort_outer]. rewrite sort_inner_sorted by (assumption || lia). apply IH.
Qed.

(** ** Normalization of the raw input *)

Lemma is_space_lower_byte c : is_space (lower_byte c) = is_space c.
Proof. destruct c as [[] [] [] [] [] [] [] []]; reflexivity. Qed.

Lemma is_ascii_byte_lower_byte c : is_ascii_byte (lower_byte c) = is_ascii_byte c.
Proof. destruct c as [[] [] [] [] [] [] [] []]; reflexivity. Qed.

Lemma lower_byte_idem c : lower_byte (lower_byte c) = lower_byte c.
Proof. destruct c as [[] [] [] [] [] [] [] []]; reflexivity. Qed.

Lemma map_lower_idem s : map_bytes lower_byte (map_bytes lower_byte s) = map_bytes lower_byte s.
Proof. induction s as [|c s IH]; simpl; [reflexivity | rewrite lower_byte_idem, IH; reflexivity]. Qed.

Lemma is_ascii_map_lower s : is_ascii (map_bytes lower_byte s) = is_ascii s.
Proof.
  induction s as [|c s IH]; simpl; [reflexivity | rewrite is_ascii_byte_lower_byte, IH; reflexivity].
Qed.

Lemma is_empty_map_bytes f s : is_empty (map_bytes f s) = is_empty s.
Proof. destruct s; reflexivity. Qed.

Lemma trim_left_map_lower s :
  trim_left (map_bytes lower_byte s) = map_bytes lower_byte (trim_left s).
Proof.
  induction s as [|c s IH]; simpl; [reflexivity|].
  rewrite is_space_lower_byte. destruct (is_space c); [exact IH | reflexivity].
Qed.

Lemma trim_right_map_lower s :
  trim_right (map_bytes lower_byte s) = map_bytes lower_byte (trim_right s).
Proof.
  induction s as [|c s IH]; simpl; [reflexivity|].
  rewrite is_space_lower_byte, IH, is_empty_map_bytes.
  destruct (is_space c && is_empty (trim_right s)); reflexivity.
Qed.

Lemma is_ascii_trim_left s : is_ascii s = true -> is_ascii (trim_left s) = true.
Proof.
  induction s as [|c s IH]; simpl; [reflexivity|]. intros H.
  destruct (is_space c); [apply IH; apply andb_true_iff in H as [_ H]; exact H | exact H].
Qed.

Lemma is_ascii_trim_right s : is_ascii s = true -> is_ascii (trim_right s) = true.
Proof.
  induction s as [|c s IH]; simpl; [reflexivity|]. intros H.
  apply andb_true_iff in H as [Hc Hs].
  destruct (is_space c && is_empty (trim_right s)); simpl; [reflexivity|].
  rewrite Hc. apply IH, Hs.
Qed.

Lemma trim_left_no_leading_space s : no_leading_space (trim_left s).
Proof.
  induction s as [|c s IH]; simpl; [exact I|].
  destruct (is_space c) eqn:E; [exact IH | exact E].
Qed.

Lemma trim_left_fixed s : no_leading_space s -> trim_left s = s.
Proof. destruct s as [|c s]; simpl; [reflexivity | intros ->; reflexivity]. Qed.

Lemma trim_right_no_leading_space s : no_leading_space s -> no_leading_space (trim_right s).
Proof.
  destruct s as [|c s]; simpl; [auto|]. intros H. rewrite H. simpl. exact H.
Qed.

Lemma trim_right_idem s : trim_right (trim_right s) = trim_right s.
Proof.
  induction s as [|c s IH]; simpl; [reflexivity|].
  destruct (is_space c && is_empty (trim_right s)) eqn:E; [reflexivity|].
  simpl. rewrite IH, E. reflexivity.
Qed.

Lemma trim_idem s :
  trim_right (trim_left (trim_right (trim_left s))) = trim_right (trim_left s).
Proof.
  rewrite (trim_left_fixed (trim_right (trim_left s))).
  - apply trim_right_idem.
  - apply trim_right_no_leading_space, trim_left_no_leading_space.
Qed.

Section Normalization.

Context {U : Unicode}.

Lemma ToLower_ascii s : is_ascii s = true -> ToLower s = map_bytes lower_byte s.
Proof. unfold ToLower. intros ->. reflexivity. Qed.

Lemma TrimSpace_ascii s : is_ascii s = true -> TrimSpace s = trim_right (trim_left s).
Proof. unfold TrimSpace. intros ->. reflexivity. Qed.

Lemma is_ascii_trimmed s : is_ascii s = true -> is_ascii (trim_right (trim_left s)) = true.
Proof. intros H. apply is_ascii_trim_right, is_ascii_trim_left, H. Qed.

(** On an ASCII string trimming commutes with lower-casing. *)
Lemma TrimSpace_ToLower_ascii s :
  is_ascii s = true -> TrimSpace (ToLower s) = ToLower (TrimSpace s).
Proof.
  intros H. rewrite (ToLower_ascii s H), (TrimSpace_ascii s H).
  rewrite TrimSpace_ascii by (rewrite is_ascii_map_lower; exact H).
  rewrite ToLower_ascii by (apply is_ascii_trimmed, H).
  rewrite trim_left_map_lower, trim_right_map_lower. reflexivity.
Qed.

Lemma ToLower_idem_ascii s : is_ascii s = true -> ToLower (ToLower s) = ToLower s.
Proof.
  intros H. rewrite (ToLower_ascii s H).
  rewrite ToLower_ascii by (rewrite is_ascii_map_lower; exact H).
  apply map_lower_idem.
Qed.

Lemma TrimSpace_idem_ascii s : is_ascii s = true -> TrimSpace (TrimSpace s) = TrimSpace s.
Proof.
  intros H. rewrite (TrimSpace_ascii s H).
  rewrite TrimSpace_ascii by (apply is_ascii_trimmed, H).
  apply trim_idem.
Qed.

Context {L : UnicodeLaws U}.

Lemma TrimSpace_idem s : TrimSpace (TrimSpace s) = TrimSpace s.
Proof.
  destruct (is_ascii s) eqn:H; [apply TrimSpace_idem_ascii, H|].
  unfold TrimSpace at 2 3. rewrite H. apply trim_space_fixed, H.
Qed.

(** A trimmed string stays trimmed and becomes a fixed point of
    [ToLower] once lower-cased. *)
Lemma ToLower_trimmed y :
  TrimSpace y = y ->
  TrimSpace (ToLower y) = ToLower y /\ ToLower (ToLower y) = ToLower y.
Proof.
  intros Hy. destruct (is_ascii y) eqn:H.
  - split; [|apply ToLower_idem_ascii, H].
    rewrite TrimSpace_ToLower_ascii by exact H. rewrite Hy. reflexivity.
  - unfold ToLower at 1 2 4 5. rewrite H. split.
    + apply lower_keeps_trimmed; assumption.
    + apply lower_fixed, H.
Qed.

Lemma normalize_fixed raw :
  TrimSpace (normalize raw) = normalize raw /\ ToLower (normalize raw) = normalize raw.
Proof. unfold normalize. apply ToLower_trimmed, TrimSpace_idem. Qed.

Lemma normalize_idem raw : normalize (normalize raw) = normalize raw.
Proof.
  destruct (normalize_fixed raw) as [Ht Hl].
  unfold normalize at 1. rewrite Ht. exact Hl.
Qed.

End Normalization.

(** ** The Result Cache is written by [cacheResult] only *)

Lemma keeps_results_mret {A} (a : A) : keeps_results (mret a).
Proof. intros w. reflexivity. Qed.

Lemma keeps_results_mbind {A B} (m : M A) (k : A -> M B) :
  keeps_results m -> (forall a, keeps_results (k a)) -> keeps_results (m ≫= k).
Proof.
  intros Hm Hk w. unfold mbind, M_bind.
  specialize (Hm w). destruct (m w) as [a w1]. simpl in Hm.
  rewrite (Hk a w1). exact Hm.
Qed.

Lemma keeps_results_get_world : keeps_results get_world.
Proof. intros w. reflexivity. Qed.

Lemma keeps_results_modify (f : World -> World) :
  (forall w, results (f w) = results w) -> keeps_results (modify_world f).
Proof. intros H w. apply H. Qed.

Lemma keeps_results_run {A} (m : M A) w a w' :
  keeps_results m -> m w = (a, w') -> results w' = results w.
Proof. intros H E. specialize (H w). rewrite E in H. exact H. Qed.

Create HintDb keeps discriminated.

Ltac keep_step :=
  first
    [ apply keeps_results_mret
    | apply keeps_results_get_world
    | apply keeps_results_modify; intros; reflexivity
    | solve [eauto 2 with keeps]
    | apply keeps_results_mbind; [|intros]
    | match goal with
      | |- keeps_results (match ?x with _ => _ end) => destruct x
      | |- keeps_results (let (_, _) := ?x in _) => destruct x
      end ].

Ltac keep := repeat keep_step.

Section ResultCacheFrame.

Context {U : Unicode}.
Variable cfg : Config.
Variable env : Env.

Lemma keeps_results_interact : keeps_results interact.
Proof. intros w. reflexivity. Qed.
#[local] Hint Resolve keeps_results_interact : keeps.

Lemma keeps_results_time_Now : keeps_results (time_Now env).
Proof. unfold time_Now. keep. Qed.
#[local] Hint Resolve keeps_results_time_Now : keeps.

Lemma keeps_results_redis_Get {V} (space : World -> gmap string V) key :
  keeps_results (redis_Get env space key).
Proof. unfold redis_Get. keep. Qed.
#[local] Hint Resolve keeps_results_redis_Get : keeps.

Lemma keeps_results_redis_Set (write : World -> World) :
  (forall w, results (write w) = results w) -> keeps_results (redis_Set env write).
Proof.
  intros H. unfold redis_Set. apply keeps_results_mbind; [keep|].
  intros t. destruct (redis_ok env t); [|keep].
  intros w. apply H.
Qed.

Lemma keeps_results_LookupMX domain : keeps_results (LookupMX env domain).
Proof. unfold LookupMX. keep. Qed.
#[local] Hint Resolve keeps_results_LookupMX : keeps.

Lemma keeps_results_After_or_Done d : keeps_results (After_or_Done env d).
Proof. unfold After_or_Done. keep. Qed.
#[local] Hint Resolve keeps_results_After_or_Done : keeps.

Lemma keeps_results_Sleep d : keeps_results (Sleep d).
Proof. unfold Sleep. keep. Qed.
#[local] Hint Resolve keeps_results_Sleep : keeps.

Lemma keeps_results_open_session mxHost rcpt : keeps_results (open_session env mxHost rcpt).
Proof. unfold open_session. keep. Qed.
#[local] Hint Resolve keeps_results_open_session : keeps.

Lemma keeps_results_createResult email emailHash domain status reason confidence
    smtpCode smtpResponse mxHost mxRecords startTime :
  keeps_results (createResult env email emailHash domain status reason confidence
                   smtpCode smtpResponse mxHost mxRecords startTime).
Proof. unfold createResult. keep. Qed.
#[local] Hint Resolve keeps_results_createResult : keeps.

Lemma keeps_results_getCachedResult emailHash : keeps_results (getCachedResult env emailHash).
Proof. apply keeps_results_redis_Get. Qed.
#[local] Hint Resolve keeps_results_getCachedResult : keeps.

Lemma keeps_results_getCachedMXRecords domain : keeps_results (getCachedMXRecords env domain).
Proof. apply keeps_results_redis_Get. Qed.
#[local] Hint Resolve keeps_results_getCachedMXRecords : keeps.

Lemma keeps_results_cacheMXRecords domain records :
  keeps_results (cacheMXRecords env domain records).
Proof. apply keeps_results_redis_Set. reflexivity. Qed.
#[local] Hint Resolve keeps_results_cacheMXRecords : keeps.

Lemma keeps_results_getDomainMetadata domain : keeps_results (getDomainMetadata env domain).
Proof. apply keeps_results_redis_Get. Qed.
#[local] Hint Resolve keeps_results_getDomainMetadata : keeps.

Lemma keeps_results_getCachedCatchAllStatus domain :
  keeps_results (getCachedCatchAllStatus env domain).
Proof. unfold getCachedCatchAllStatus. keep. Qed.
#[local] Hint Resolve keeps_results_getCachedCatchAllStatus : keeps.

Lemma keeps_results_cacheCatchAllStatus domain b :
  keeps_results (cacheCatchAllStatus env domain b).
Proof. apply keeps_results_redis_Set. reflexivity. Qed.
#[local] Hint Resolve keeps_results_cacheCatchAllStatus : keeps.

Lemma keeps_results_set_rate_marks key v :
  keeps_results (redis_Set env (set_rate_marks (insert key v))).
Proof. apply keeps_results_redis_Set. reflexivity. Qed.
#[local] Hint Resolve keeps_results_set_rate_marks : keeps.

Lemma keeps_results_waitForRateLimit domain mxHost :
  keeps_results (waitForRateLimit cfg env domain mxHost).
Proof. unfold waitForRateLimit. keep. Qed.
#[local] Hint Resolve keeps_results_waitForRateLimit : keeps.

Lemma keeps_results_smtpHandshake email mxHost : keeps_results (smtpHandshake env email mxHost).
Proof. unfold smtpHandshake. keep. Qed.
#[local] Hint Resolve keeps_results_smtpHandshake : keeps.

Lemma keeps_results_probeEmails n i domain : keeps_results (probeEmails env n i domain).
Proof. revert i. induction n as [|n IH]; intros i; simpl; keep. Qed.
#[local] Hint Resolve keeps_results_probeEmails : keeps.

Lemma keeps_results_countAccepted probes mxHost acc :
  keeps_results (countAccepted env probes mxHost acc).
Proof. revert acc. induction probes as [|p probes IH]; intros acc; simpl; keep. Qed.
#[local] Hint Resolve keeps_results_countAccepted : keeps.

Lemma keeps_results_detectCatchAll domain mx : keeps_results (detectCatchAll cfg env domain mx).
Proof. unfold detectCatchAll. keep. Qed.
#[local] Hint Resolve keeps_results_detectCatchAll : keeps.

Lemma keeps_results_getMXRecords domain : keeps_results (getMXRecords env domain).
Proof. unfold getMXRecords. keep. Qed.
#[local] Hint Resolve keeps_results_getMXRecords : keeps.

Lemma keeps_results_retryLoop n attempt email mxHost last :
  keeps_results (retryLoop cfg env n attempt email mxHost last).
Proof. revert attempt last. induction n as [|n IH]; intros attempt last; simpl; keep. Qed.
#[local] Hint Resolve keeps_results_retryLoop : keeps.

Lemma keeps_results_verifySMTPWithMX email domain mx startTime :
  keeps_results (verifySMTPWithMX cfg env email domain mx startTime).
Proof. unfold verifySMTPWithMX. keep. Qed.
#[local] Hint Resolve keeps_results_verifySMTPWithMX : keeps.

Lemma keeps_results_tryMXRecords mxRecords email domain startTime lastErr :
  keeps_results (tryMXRecords cfg env mxRecords email domain startTime lastErr).
Proof.
  revert lastErr. induction mxRecords as [|mx rest IH]; intros lastErr; simpl; keep.
Qed.
#[local] Hint Resolve keeps_results_tryMXRecords : keeps.

Lemma keeps_results_performSMTPVerification email domain mxRecords :
  keeps_results (performSMTPVerification cfg env email domain mxRecords).
Proof. unfold performSMTPVerification. keep. Qed.

End ResultCacheFrame.

(** ** Verdicts: status and catch-all flag *)

Section Coupling.

Context {U : Unicode}.
Variable cfg : Config.
Variable env : Env.

Lemma createResult_run email emailHash domain status reason confidence
    smtpCode smtpResponse mxHost mxRecords startTime w :
  createResult env email emailHash domain status reason confidence
    smtpCode smtpResponse mxHost mxRecords startTime w
  = ({| Email := email; EmailHash := emailHash; Domain := domain; Status := status;
        Reason := reason; Confidence := confidence; SMTPCode := smtpCode;
        SMTPResponse := smtpResponse; MXHost := mxHost; MXRecords := mxRecords;
        IsCatchAll := false; IsDisposable := false;
        ValidationTimeMs := Z.quot (clock env (tick w) - startTime) 1000000;
        CheckedAt := clock env (S (tick w)) |},
     set_tick (S (S (tick w))) w).
Proof. reflexivity. Qed.

Lemma classifySMTPResponse_status code response :
  fst (fst (classifySMTPResponse code response)) <> StatusCatchAll.
Proof.
  unfold classifySMTPResponse.
  repeat match goal with |- context [if ?b then _ else _] => destruct b end;
    simpl; discriminate.
Qed.

Lemma verifySMTPWithMX_coupled email domain mx startTime w r w' :
  verifySMTPWithMX cfg env email domain mx startTime w = (inl r, w') -> coupled r.
Proof.
  unfold verifySMTPWithMX, mbind, M_bind, mret, M_ret. intros H.
  destruct (waitForRateLimit cfg env domain (Exchange mx) w) as [lim w1].
  destruct lim; [discriminate|].
  destruct (retryLoop _ _ _ _ _ _ _ _) as [looped w2].
  destruct looped as [[[code resp] [e|]]|e]; try discriminate.
  pose proof (classifySMTPResponse_status code resp) as Hc.
  destruct (classifySMTPResponse code resp) as [[st reason] conf]. simpl in Hc.
  destruct (bool_decide (st = StatusValid) && EnableCatchAllDetection cfg) eqn:Eb.
  - destruct (detectCatchAll cfg env domain mx w2) as [isCA w3].
    destruct isCA; rewrite createResult_run in H; injection H as <- _;
      split; simpl; intros Hs; congruence.
  - rewrite createResult_run in H. injection H as <- _.
    split; simpl; intros Hs; congruence.
Qed.

Lemma tryMXRecords_coupled mxRecords email domain startTime :
  forall lastErr w r e w',
    tryMXRecords cfg env mxRecords email domain startTime lastErr w = (Some r, e, w') ->
    coupled r /\ e = None.
Proof.
  induction mxRecords as [|mx rest IH]; intros lastErr w r e w'; simpl.
  - unfold mret, M_ret. intros H. discriminate.
  - unfold mbind, M_bind. 
    destruct (verifySMTPWithMX cfg env email domain mx startTime w) as [[res|err] w1] eqn:E.
    + destruct (bool_decide (Status res = StatusValid) || bool_decide (Status res = StatusInvalid)).
      * unfold mret, M_ret. intros H. injection H as <- <- _.
        split; [|reflexivity]. eapply verifySMTPWithMX_coupled, E.
      * apply IH.
    + apply IH.
Qed.

Lemma performSMTPVerification_coupled email domain mxRecords w r e w' :
  performSMTPVerification cfg env email domain mxRecords w = (r, e, w') -> coupled r.
Proof.
  unfold performSMTPVerification, mbind, M_bind. 
  destruct (time_Now env w) as [t0 w0].
  destruct (tryMXRecords _ _ _ _ _ _ _ _) as [[[res|] lastErr] w1] eqn:E.
  - unfold mret, M_ret. intros H. injection H as <- _ _.
    eapply tryMXRecords_coupled, E.
  - rewrite createResult_run. unfold mret, M_ret. intros H. injection H as <- _ _.
    split; simpl; discriminate.
Qed.

End Coupling.

Section VerifyCoupling.

Context {U : Unicode}.
Variable cfg : Config.
Variable env : Env.

Lemma getCachedResult_Some emailHash w r w' :
  getCachedResult env emailHash w = (Some r, w') ->
  results w !! ("validation:result:" +:+ emailHash) = Some r.
Proof.
  unfold getCachedResult, redis_Get, mbind, M_bind, mret, M_ret, interact, get_world.
  destruct (redis_ok env (tick w)); intros H; [|discriminate].
  injection H as H _. exact H.
Qed.

Lemma results_cacheResult emailHash r w :
  results (snd (cacheResult env emailHash r w))
  = if redis_ok env (tick w)
    then <["validation:result:" +:+ emailHash := r]> (results w)
    else results w.
Proof.
  unfold cacheResult, redis_Set, mbind, M_bind, interact.
  destruct (redis_ok env (tick w)); reflexivity.
Qed.

Lemma cache_coupled_results w w' :
  results w' = results w -> cache_coupled w -> cache_coupled w'.
Proof. unfold cache_coupled. intros ->. auto. Qed.

Lemma cache_coupled_insert w w' key r :
  results w' = <[key := r]> (results w) -> coupled r -> cache_coupled w -> cache_coupled w'.
Proof.
  unfold cache_coupled. intros -> Hr Hw key' r' H.
  destruct (decide (key = key')) as [->|Hne].
  - rewrite lookup_insert_eq in H. congruence.
  - rewrite lookup_insert_ne in H by exact Hne. eauto.
Qed.

Lemma coupled_createResult email emailHash domain status reason confidence
    smtpCode smtpResponse mxHost mxRecords startTime w :
  status <> StatusCatchAll ->
  coupled (fst (createResult env email emailHash domain status reason confidence
                  smtpCode smtpResponse mxHost mxRecords startTime w)).
Proof. intros H. split; simpl; [reflexivity | congruence]. Qed.

Lemma Verify_coupled_run raw w r w' :
  cache_coupled w -> Verify cfg env raw w = (r, w') -> coupled r /\ cache_coupled w'.
Proof.
  intros Hw. unfold Verify, mbind, M_bind.
  destruct (time_Now env w) as [t0 w0] eqn:E0.
  apply keeps_results_run in E0; [|apply keeps_results_time_Now].
  destruct (getCachedResult env _ w0) as [cached w1] eqn:E1.
  pose proof (keeps_results_run _ _ _ _ (keeps_results_getCachedResult env _) E1) as K1.
  assert (Hw1 : cache_coupled w1).
  { eapply cache_coupled_results; [|exact Hw]. congruence. }
  destruct cached as [c|].
  { intros H. injection H as <- <-. split; [|exact Hw1].
    apply getCachedResult_Some in E1. rewrite E0 in E1. eapply Hw, E1. }
  assert (Hcreate : forall email emailHash domain status reason confidence
             smtpCode smtpResponse mxHost mxRecords wa,
             status <> StatusCatchAll -> cache_coupled wa ->
             createResult env email emailHash domain status reason confidence
               smtpCode smtpResponse mxHost mxRecords t0 wa = (r, w') ->
             coupled r /\ cache_coupled w').
  { intros ? ? ? ? ? ? ? ? ? ? wa Hst Hwa H. split.
    - replace r with (fst (createResult env email emailHash domain status reason confidence
                        smtpCode smtpResponse mxHost mxRecords t0 wa)) by (rewrite H; reflexivity).
      apply coupled_createResult, Hst.
    - eapply cache_coupled_results; [|exact Hwa].
      eapply keeps_results_run; [|exact H]. apply keeps_results_createResult. }
  destruct (negb (isValidEmailSyntax _)); [apply Hcreate; [discriminate | exact Hw1]|].
  destruct (Split _ _) as [|local [|domain [|extra parts]]];
    try (apply Hcreate; [discriminate | exact Hw1]).
  destruct (getMXRecords env domain w1) as [[mxRecords err] w2] eqn:E2.
  assert (Hw2 : cache_coupled w2).
  { eapply cache_coupled_results; [|exact Hw1].
    eapply keeps_results_run; [|exact E2]. apply keeps_results_getMXRecords. }
  destruct (bool_decide (err ≠ None) || _); [apply Hcreate; [discriminate | exact Hw2]|].
  destruct (getDomainMetadata env domain w2) as [meta w3] eqn:E3.
  assert (Hw3 : cache_coupled w3).
  { eapply cache_coupled_results; [|exact Hw2].
    eapply keeps_results_run; [|exact E3]. apply keeps_results_getDomainMetadata. }
  destruct (match meta with Some m => MetaIsDisposable m | None => false end);
    [apply Hcreate; [discriminate | exact Hw3]|].
  destruct (performSMTPVerification cfg env _ domain mxRecords w3) as [[result perr] w4] eqn:E4.
  assert (Hw4 : cache_coupled w4).
  { eapply cache_coupled_results; [|exact Hw3].
    eapply keeps_results_run; [|exact E4]. apply keeps_results_performSMTPVerification. }
  destruct perr as [e|]; [apply Hcreate; [discriminate | exact Hw4]|].
  pose proof (results_cacheResult (hashEmail (ToLower (TrimSpace raw))) result w4) as Hc.
  destruct (cacheResult env _ result w4) as [[] w5]. simpl in Hc.
  unfold mret, M_ret. intros H. injection H as <- <-.
  assert (Hr : coupled result) by (eapply performSMTPVerification_coupled, E4).
  split; [exact Hr|].
  destruct (redis_ok env (tick w4)).
  - eapply cache_coupled_insert; eauto.
  - eapply cache_coupled_results; eauto.
Qed.

End VerifyCoupling.

(** ** The classifier *)

(** Codes outside the table of the specification fall to the default
    branch. *)
Lemma classifySMTPResponse_default code response :
  code < 500 -> code <> 250 -> code <> 251 ->
  code <> 450 -> code <> 451 -> code <> 452 -> code <> 421 ->
  classifySMTPResponse code response = (StatusUnknown, "unknown_response", 0.1%Q).
Proof.
  intros. unfold classifySMTPResponse.
  repeat match goal with
         | |- context [?a =? ?b] => destruct (Z.eqb_spec a b); [lia|]
         end.
  destruct (Z.leb_spec 500 code); [lia|]. reflexivity.
Qed.

(** C1. The classifier follows the table of the specification on every
    code of the table: 250 and 251 are valid/mailbox_exists/0.98; 550, 551
    and 553 are invalid/mailbox_not_found/0.95; 450, 451 and 452 are
    unknown/temporary_failure/0.30; 421 is unknown/rate_limited/0.20; 500
    to 549, 552 and 554 upwards are invalid/smtp_error_<code>/0.70. *)
Theorem classifySMTPResponse_table (code : Z) (response : string) :
  let status := fst (fst (classifySMTPResponse code response)) in
  let reason := snd (fst (classifySMTPResponse code response)) in
  let confidence := snd (classifySMTPResponse code response) in
  (code = 250 \/ code = 251 ->
     status = StatusValid /\ reason = "mailbox_exists" /\ (confidence == 0.98)%Q)
  /\ (code = 550 \/ code = 551 \/ code = 553 ->
     status = StatusInvalid /\ reason = "mailbox_not_found" /\ (confidence == 0.95)%Q)
  /\ (code = 450 \/ code = 451 \/ code = 452 ->
     status = StatusUnknown /\ reason = "temporary_failure" /\ (confidence == 0.30)%Q)
  /\ (code = 421 ->
     status = StatusUnknown /\ reason = "rate_limited" /\ (confidence == 0.20)%Q)
  /\ (500 <= code <= 549 \/ code = 552 \/ 554 <= code ->
     status = StatusInvalid /\ reason = "smtp_error_" +:+ itoa code /\ (confidence == 0.70)%Q).
Proof.
  cbv zeta. repeat match goal with |- _ /\ _ => split end; intros H.
  - destruct H as [-> | ->]; repeat split; reflexivity.
  - destruct H as [-> | [-> | ->]]; repeat split; reflexivity.
  - destruct H as [-> | [-> | ->]]; repeat split; reflexivity.
  - subst code. repeat split; reflexivity.
  - unfold classifySMTPResponse.
    rewrite (proj2 (Z.eqb_neq code 250)), (proj2 (Z.eqb_neq code 251)),
      (proj2 (Z.eqb_neq code 550)), (proj2 (Z.eqb_neq code 551)),
      (proj2 (Z.eqb_neq code 553)), (proj2 (Z.eqb_neq code 450)),
      (proj2 (Z.eqb_neq code 451)), (proj2 (Z.eqb_neq code 452)),
      (proj2 (Z.eqb_neq code 421)), (proj2 (Z.leb_le 500 code)) by lia.
    repeat split; reflexivity.
Qed.

Lemma classifySMTPResponse_table_witness :
  let c := classifySMTPResponse 554 "554 5.7.1 Relay access denied" in
  fst (fst c) = StatusInvalid /\ snd (fst c) = "smtp_error_554" /\ (snd c == 0.70)%Q.
Proof.
  apply (classifySMTPResponse_table 554 "554 5.7.1 Relay access denied").
  right. right. lia.
Defined.

(** ** The syntax filter and the facade *)

Section Facade.

Context {U : Unicode}.
Variable cfg : Config.
Variable env : Env.

Lemma time_Now_run w : time_Now env w = (clock env (tick w), set_tick (S (tick w)) w).
Proof. reflexivity. Qed.

Lemma getCachedResult_run emailHash w :
  getCachedResult env emailHash w
  = (if redis_ok env (tick w) then results w !! ("validation:result:" +:+ emailHash) else None,
     set_tick (S (tick w)) w).
Proof. reflexivity. Qed.

(** The head of [Verify] on a miss of the Result Cache. *)
Lemma getCachedResult_miss emailHash w :
  results w !! ("validation:result:" +:+ emailHash) = None ->
  getCachedResult env emailHash (set_tick (S (tick w)) w)
  = (None, set_tick (S (S (tick w))) w).
Proof.
  intros H. rewrite getCachedResult_run. simpl.
  rewrite H. destruct (redis_ok env (S (tick w))); reflexivity.
Qed.

Lemma Verify_syntax_error raw w :
  results w !! ("validation:result:" +:+ hashEmail (normalize raw)) = None ->
  isValidEmailSyntax (normalize raw) = false ->
  let r := fst (Verify cfg env raw w) in
  Status r = StatusInvalid /\ Reason r = "syntax_error" /\ (Confidence r == 1.0)%Q.
Proof.
  unfold normalize. intros Hmiss Hsyn. unfold Verify, mbind, M_bind.
  rewrite time_Now_run, (getCachedResult_miss _ _ Hmiss), Hsyn.
  simpl. repeat split; reflexivity.
Qed.

End Facade.

(** The filter lets through an address of 262 bytes, above the 254 of the
    specification. *)
Lemma isValidEmailSyntax_accepts_262_bytes :
  isValidEmailSyntax long_address = true /\ (254 < String.length long_address)%nat.
Proof. split; [vm_compute; reflexivity | vm_compute; lia]. Qed.

(** C5 (amended). Every address the syntax filter accepts has exactly one
    [@] and at most 320 bytes; a normalized input of more than 320 bytes is
    rejected and, unless the Result Cache answers for it, [Verify] returns
    invalid/syntax_error with confidence 1.0. *)
Theorem isValidEmailSyntax_bounds :
  (forall email,
      isValidEmailSyntax email = true ->
      count_byte "@" email = 1%nat /\ (String.length email <= 320)%nat)
  /\ (forall (U : Unicode) (cfg : Config) (env : Env) (raw : string) (w : World),
      (320 < String.length (normalize raw))%nat ->
      results w !! ("validation:result:" +:+ hashEmail (normalize raw)) = None ->
      isValidEmailSyntax (normalize raw) = false
      /\ Status (fst (Verify cfg env raw w)) = StatusInvalid
      /\ Reason (fst (Verify cfg env raw w)) = "syntax_error"
      /\ (Confidence (fst (Verify cfg env raw w)) == 1.0)%Q).
Proof.
  split; [exact isValidEmailSyntax_sound|].
  intros U cfg env raw w Hlen Hmiss.
  pose proof (isValidEmailSyntax_long _ Hlen) as Hsyn.
  split; [exact Hsyn|]. apply Verify_syntax_error; assumption.
Qed.

Lemma isValidEmailSyntax_bounds_witness :
  (count_byte "@" long_address = 1%nat /\ (String.length long_address <= 320)%nat)
  /\ (isValidEmailSyntax (normalize (U:=ascii_runtime) oversized_address) = false
      /\ Status (fst (Verify (U:=ascii_runtime) DefaultConfig reject_all_env
                        oversized_address empty_world)) = StatusInvalid
      /\ Reason (fst (Verify (U:=ascii_runtime) DefaultConfig reject_all_env
                        oversized_address empty_world)) = "syntax_error"
      /\ (Confidence (fst (Verify (U:=ascii_runtime) DefaultConfig reject_all_env
                            oversized_address empty_world)) == 1.0)%Q).
Proof.
  split.
  - apply (proj1 isValidEmailSyntax_bounds long_address). vm_compute. reflexivity.
  - apply (proj2 isValidEmailSyntax_bounds ascii_runtime DefaultConfig reject_all_env
             oversized_address empty_world).
    + vm_compute. lia.
    + vm_compute. reflexivity.
Defined.

(** ** MX resolution *)

Section Resolution.

Context {U : Unicode}.
Variable cfg : Config.
Variable env : Env.

Lemma getCachedMXRecords_run domain w :
  getCachedMXRecords env domain w
  = (if redis_ok env (tick w) then mx_cache w !! ("mx:records:" +:+ domain) else None,
     set_tick (S (tick w)) w).
Proof. reflexivity. Qed.

Lemma LookupMX_run domain w :
  LookupMX env domain w = (dns env domain (tick w), set_tick (S (tick w)) w).
Proof. reflexivity. Qed.

Lemma getMXRecords_miss domain w :
  mx_cache w !! ("mx:records:" +:+ domain) = None ->
  fst (getMXRecords env domain w)
  = match snd (dns env domain (S (tick w))) with
    | Some e => ([], Some e)
    | None => (sortMXRecords (map record_of_mx (fst (dns env domain (S (tick w))))), None)
    end.
Proof.
  intros Hmiss. unfold getMXRecords, mbind, M_bind.
  rewrite getCachedMXRecords_run, Hmiss.
  replace (if redis_ok env (tick w) then None else None)
    with (None : option (list MXRecord)) by (destruct (redis_ok env (tick w)); reflexivity).
  rewrite LookupMX_run. change (tick (set_tick (S (tick w)) w)) with (S (tick w)).
  destruct (dns env domain (S (tick w))) as [mxs [e|]]; [reflexivity|].
  destruct (cacheMXRecords env domain _ _) as [[] w']. reflexivity.
Qed.

(** C7 (amended). Every failure of the MX resolution, a timeout of the
    resolver included, and an empty answer yield invalid/no_mx_records with
    confidence 0.95: for an address that passes the syntax filter and is
    in neither the Result Cache nor the MX cache, when the resolver
    returns an error or no record for its domain. *)
Theorem Verify_resolution_failure (raw : string) (w : World) :
  results w !! ("validation:result:" +:+ hashEmail (normalize raw)) = None ->
  isValidEmailSyntax (normalize raw) = true ->
  mx_cache w !! ("mx:records:" +:+ domain_of (normalize raw)) = None ->
  (forall n, snd (dns env (domain_of (normalize raw)) n) <> None
             \/ fst (dns env (domain_of (normalize raw)) n) = []) ->
  Status (fst (Verify cfg env raw w)) = StatusInvalid
  /\ Reason (fst (Verify cfg env raw w)) = "no_mx_records"
  /\ (Confidence (fst (Verify cfg env raw w)) == 0.95)%Q.
Proof.
  unfold normalize, domain_of. intros Hmiss Hsyn Hmx Hdns.
  destruct (isValidEmailSyntax_Split _ Hsyn) as (local & domain & Hsplit).
  rewrite Hsplit in Hmx, Hdns.
  unfold Verify, mbind, M_bind.
  rewrite time_Now_run, (getCachedResult_miss _ _ _ Hmiss), Hsyn, Hsplit.
  change (negb true) with false. cbv beta iota.
  pose proof (getMXRecords_miss domain (set_tick (S (S (tick w))) w) Hmx) as Hget.
  destruct (getMXRecords env domain _) as [[mxRecords err] w3]. simpl in Hget.
  assert (Hcond : bool_decide (err ≠ None) || (Z.of_nat (length mxRecords) =? 0) = true).
  { destruct (Hdns (S (S (S (tick w))))) as [He|He].
    - destruct (snd (dns env domain (S (S (S (tick w)))))) as [e|]; [|congruence].
      injection Hget as -> ->. reflexivity.
    - destruct (snd (dns env domain (S (S (S (tick w)))))) as [e|].
      + injection Hget as -> ->. reflexivity.
      + rewrite He in Hget. injection Hget as -> ->. apply orb_true_r. }
  cbv beta iota. rewrite Hcond. simpl. repeat split; reflexivity.
Qed.

End Resolution.

(** A resolver timeout yields invalid/no_mx_records, not unknown. *)
Lemma Verify_dns_timeout_invalid :
  Status (fst (Verify (U:=ascii_runtime) DefaultConfig slow_dns_env "user@slow.test" empty_world))
    = StatusInvalid
  /\ Reason (fst (Verify (U:=ascii_runtime) DefaultConfig slow_dns_env "user@slow.test" empty_world))
    = "no_mx_records"
  /\ snd (dns slow_dns_env "slow.test" 3%nat) = Some dns_timeout.
Proof. vm_compute. repeat split; reflexivity. Qed.

Lemma Verify_resolution_failure_witness :
  Status (fst (Verify (U:=ascii_runtime) DefaultConfig slow_dns_env "user@slow.test" empty_world))
    = StatusInvalid
  /\ Reason (fst (Verify (U:=ascii_runtime) DefaultConfig slow_dns_env "user@slow.test" empty_world))
    = "no_mx_records"
  /\ (Confidence (fst (Verify (U:=ascii_runtime) DefaultConfig slow_dns_env "user@slow.test"
                        empty_world)) == 0.95)%Q.
Proof.
  apply (@Verify_resolution_failure ascii_runtime DefaultConfig slow_dns_env
           "user@slow.test" empty_world).
  - vm_compute. reflexivity.
  - vm_compute. reflexivity.
  - vm_compute. reflexivity.
  - intros n. left. vm_compute. discriminate.
Defined.

(** ** A fresh verdict is never catch-all *)

Section FreshVerdict.

Context {U : Unicode}.
Variable cfg : Config.
Variable env : Env.

Lemma tryMXRecords_status mxRecords email domain startTime :
  forall lastErr w r e w',
    tryMXRecords cfg env mxRecords email domain startTime lastErr w = (Some r, e, w') ->
    Status r = StatusValid \/ Status r = StatusInvalid.
Proof.
  induction mxRecords as [|mx rest IH]; intros lastErr w r e w'; cbn [tryMXRecords].
  - unfold mret, M_ret. intros H. discriminate.
  - unfold mbind, M_bind.
    destruct (verifySMTPWithMX cfg env email domain mx startTime w) as [[res|err] w1].
    + destruct (bool_decide (Status res = StatusValid)) eqn:Ev.
      * unfold mret, M_ret. cbn [orb]. intros H. injection H as <- _ _.
        left. apply bool_decide_eq_true_1 in Ev. exact Ev.
      * destruct (bool_decide (Status res = StatusInvalid)) eqn:Ei; cbn [orb].
        -- unfold mret, M_ret. intros H. injection H as <- _ _.
           right. apply bool_decide_eq_true_1 in Ei. exact Ei.
        -- apply IH.
    + apply IH.
Qed.

Lemma performSMTPVerification_status email domain mxRecords w r e w' :
  performSMTPVerification cfg env email domain mxRecords w = (r, e, w') ->
  Status r <> StatusCatchAll.
Proof.
  unfold performSMTPVerification, mbind, M_bind.
  destruct (time_Now env w) as [t0 w0].
  destruct (tryMXRecords _ _ _ _ _ _ _ _) as [[[res|] lastErr] w1] eqn:E.
  - unfold mret, M_ret. intros H. injection H as <- _ _.
    apply tryMXRecords_status in E. destruct E as [-> | ->]; discriminate.
  - rewrite createResult_run. unfold mret, M_ret. intros H. injection H as <- _ _.
    discriminate.
Qed.

(** Whatever the MX answers and whatever the catch-all cache holds, a
    verdict that does not come from the Result Cache never has the status
    catch-all: [performSMTPVerification] passes on valid and invalid
    outcomes only. *)
Lemma Verify_fresh_not_catch_all raw w :
  results w !! ("validation:result:" +:+ hashEmail (normalize raw)) = None ->
  Status (fst (Verify cfg env raw w)) <> StatusCatchAll.
Proof.
  unfold normalize. intros Hmiss. unfold Verify, mbind, M_bind.
  rewrite time_Now_run, (getCachedResult_miss _ _ _ Hmiss).
  destruct (negb (isValidEmailSyntax _)); [discriminate|].
  destruct (Split _ _) as [|local [|domain [|extra parts]]]; try discriminate.
  destruct (getMXRecords env domain _) as [[mxRecords err] w2].
  destruct (bool_decide (err ≠ None) || _); [discriminate|].
  destruct (getDomainMetadata env domain w2) as [meta w3].
  destruct (match meta with Some m => MetaIsDisposable m | None => false end); [discriminate|].
  destruct (performSMTPVerification cfg env _ domain mxRecords w3) as [[result perr] w4] eqn:E.
  destruct perr as [e|]; [discriminate|].
  destruct (cacheResult env _ result w4) as [[] w5]. cbn [fst mret M_ret].
  eapply performSMTPVerification_status, E.
Qed.

End FreshVerdict.

(** ** A context that is done *)

Section Cancellation.

Context {U : Unicode}.
Variable cfg : Config.
Variable env : Env.
Variable ce : error.
Hypothesis Hdone : context_done env ce.
Hypothesis Hdial : dials_fail_on_context env.

Lemma After_or_Done_done d w : fst (After_or_Done env d w) = Some ce.
Proof. unfold After_or_Done, mbind, M_bind, mret, M_ret, interact, modify_world. simpl. apply Hdone. Qed.

Lemma waitForRateLimit_done domain mxHost w e w' :
  waitForRateLimit cfg env domain mxHost w = (Some e, w') -> e = ce.
Proof.
  unfold waitForRateLimit, mbind, M_bind.
  destruct (redis_Get env rate_marks _ w) as [[lastTime|] w1].
  - destruct (time_Now env w1) as [now w2].
    destruct (now - lastTime <? DomainRateLimit cfg).
    + pose proof (After_or_Done_done (DomainRateLimit cfg - (now - lastTime)) w2) as Hd.
      destruct (After_or_Done env _ w2) as [r w3]. simpl in Hd. subst r.
      unfold mret, M_ret. intros H. congruence.
    + unfold mret at 1, M_ret at 1.
      destruct (time_Now env w2) as [now' w3]. destruct (redis_Set env _ w3) as [[] w4].
      unfold mret, M_ret. intros H. discriminate.
  - unfold mret at 1, M_ret at 1.
    destruct (time_Now env w1) as [now' w3]. destruct (redis_Set env _ w3) as [[] w4].
    unfold mret, M_ret. intros H. discriminate.
Qed.

Lemma isRetryableError_context prefix e :
  Is_DeadlineExceeded e || Is_Canceled e = true ->
  isRetryableError (Some (Wrapped prefix e)) = true.
Proof.
  intros H. unfold isRetryableError.
  change (Is_DeadlineExceeded (Wrapped prefix e)) with (Is_DeadlineExceeded e).
  change (Is_Canceled (Wrapped prefix e)) with (Is_Canceled e).
  rewrite H. reflexivity.
Qed.

Lemma smtpHandshake_done email mxHost w :
  exists e, fst (smtpHandshake env email mxHost w) = (0, "", Some (Wrapped "connection failed" e))
            /\ Is_DeadlineExceeded e || Is_Canceled e = true.
Proof.
  destruct (Hdial mxHost email (tick w)) as (e & He & Hc).
  exists e. split; [|exact Hc].
  unfold smtpHandshake, open_session, mbind, M_bind, mret, M_ret, interact, modify_world.
  simpl. rewrite He. reflexivity.
Qed.

Lemma retryLoop_done n email mxHost last w :
  2 <= MaxRetries cfg ->
  fst (retryLoop cfg env (S n) 0 email mxHost last w) = inr ce.
Proof.
  intros Hmax. cbn [retryLoop]. unfold mbind, M_bind.
  destruct (smtpHandshake_done email mxHost w) as (e & He & Hc).
  destruct (smtpHandshake env email mxHost w) as [r w1]. cbn [fst] in He. subst r.
  cbn [snd]. rewrite (isRetryableError_context _ _ Hc). cbn [negb].
  destruct (Z.ltb_spec 0 (MaxRetries cfg - 1)) as [_|Hge]; [|lia].
  pose proof (After_or_Done_done (backoff cfg 0) w1) as Hd.
  destruct (After_or_Done env _ w1) as [r w2]. simpl in Hd. subst r. reflexivity.
Qed.

Lemma verifySMTPWithMX_done email domain mx startTime w :
  2 <= MaxRetries cfg ->
  fst (verifySMTPWithMX cfg env email domain mx startTime w) = inr ce.
Proof.
  intros Hmax. unfold verifySMTPWithMX, mbind, M_bind.
  destruct (waitForRateLimit cfg env domain (Exchange mx) w) as [[e|] w1] eqn:E.
  - apply waitForRateLimit_done in E. subst e. reflexivity.
  - destruct (Z.to_nat (MaxRetries cfg)) as [|n] eqn:En; [lia|].
    pose proof (retryLoop_done n email (Exchange mx) (0, "", None) w1 Hmax) as H.
    destruct (retryLoop _ _ _ _ _ _ _ _) as [looped w2]. simpl in H. subst looped. reflexivity.
Qed.

Lemma tryMXRecords_done mxRecords email domain startTime :
  2 <= MaxRetries cfg ->
  forall lastErr w,
    fst (tryMXRecords cfg env mxRecords email domain startTime lastErr w)
    = (None, match mxRecords with [] => lastErr | _ => Some ce end).
Proof.
  intros Hmax. induction mxRecords as [|mx rest IH]; intros lastErr w; simpl; [reflexivity|].
  unfold mbind, M_bind.
  pose proof (verifySMTPWithMX_done email domain mx startTime w Hmax) as H.
  destruct (verifySMTPWithMX _ _ _ _ _ _ w) as [r w1]. simpl in H. subst r.
  rewrite IH. destruct rest; reflexivity.
Qed.

Lemma performSMTPVerification_done email domain mxRecords w :
  2 <= MaxRetries cfg -> mxRecords <> [] ->
  snd (fst (performSMTPVerification cfg env email domain mxRecords w)) = Some ce.
Proof.
  intros Hmax Hne. unfold performSMTPVerification, mbind, M_bind.
  destruct (time_Now env w) as [t0 w0].
  pose proof (tryMXRecords_done mxRecords email domain t0 Hmax None w0) as H.
  destruct (tryMXRecords _ _ _ _ _ _ _ _) as [r w1]. simpl in H. subst r.
  destruct mxRecords; [congruence|].
  destruct (createResult _ _ _ _ _ _ _ _ _ _ _ _ _) as [res w2]. reflexivity.
Qed.

(** C4 (amended). When the caller's context is done throughout a
    verification (every wait on it returns its error, every dial fails on
    it) and at least two attempts are configured, [Verify] writes nothing
    to the Result Cache, and its verdict is the cached one, or one reached
    before the SMTP stage (invalid/syntax_error, invalid/no_mx_records,
    risky/disposable_domain), or else unknown with the reason
    "smtp_error: " followed by the text of the context's error and
    confidence 0.2. *)
Theorem Verify_context_done (raw : string) (w : World) :
  2 <= MaxRetries cfg ->
  results (snd (Verify cfg env raw w)) = results w
  /\ (results w !! ("validation:result:" +:+ hashEmail (normalize raw))
        = Some (fst (Verify cfg env raw w))
      \/ (Status (fst (Verify cfg env raw w)) = StatusInvalid
          /\ (Reason (fst (Verify cfg env raw w)) = "syntax_error"
              \/ Reason (fst (Verify cfg env raw w)) = "no_mx_records"))
      \/ (Status (fst (Verify cfg env raw w)) = StatusRisky
          /\ Reason (fst (Verify cfg env raw w)) = "disposable_domain")
      \/ (Status (fst (Verify cfg env raw w)) = StatusUnknown
          /\ Reason (fst (Verify cfg env raw w)) = "smtp_error: " +:+ Error ce
          /\ (Confidence (fst (Verify cfg env raw w)) == 0.2)%Q)).
Proof.
  intros Hmax. unfold normalize.
  destruct (Verify cfg env raw w) as [r w'] eqn:EV. simpl fst. simpl snd.
  revert EV. unfold Verify, mbind, M_bind.
  rewrite time_Now_run.
  destruct (getCachedResult env _ _) as [cached w1] eqn:E1.
  pose proof (keeps_results_run _ _ _ _ (keeps_results_getCachedResult env _) E1) as K1.
  change (results (set_tick (S (tick w)) w)) with (results w) in K1.
  destruct cached as [c|].
  { intros H. injection H as <- <-. split; [exact K1|]. left.
    apply getCachedResult_Some in E1. exact E1. }
  assert (Hcreate : forall email emailHash domain status reason confidence
             smtpCode smtpResponse mxHost mxRecords wa,
             results wa = results w ->
             createResult env email emailHash domain status reason confidence
               smtpCode smtpResponse mxHost mxRecords (clock env (tick w)) wa = (r, w') ->
             results w' = results w /\ Status r = status /\ Reason r = reason
             /\ Confidence r = confidence).
  { intros ? ? ? ? ? ? ? ? ? ? wa Hwa H. rewrite createResult_run in H.
    injection H as <- <-. repeat split; try reflexivity. exact Hwa. }
  destruct (isValidEmailSyntax (ToLower (TrimSpace raw))) eqn:Hsyn; cbn [negb]; cbv beta iota.
  2:{ intros H. apply Hcreate in H as (Hr & Hs & Hre & Hc); [|exact K1]. auto 10. }
  destruct (isValidEmailSyntax_Split _ Hsyn) as (local & domain & ->). cbv beta iota.
  destruct (getMXRecords env domain w1) as [[mxRecords err] w2] eqn:E2.
  pose proof (keeps_results_run _ _ _ _ (keeps_results_getMXRecords env _) E2) as K2.
  destruct (bool_decide (err ≠ None) || (Z.of_nat (length mxRecords) =? 0)) eqn:Hmx.
  { intros H. apply Hcreate in H as (Hr & Hs & Hre & Hc); [|congruence]. auto 10. }
  destruct (getDomainMetadata env domain w2) as [meta w3] eqn:E3.
  pose proof (keeps_results_run _ _ _ _ (keeps_results_getDomainMetadata env _) E3) as K3.
  destruct (match meta with Some m => MetaIsDisposable m | None => false end).
  { intros H. apply Hcreate in H as (Hr & Hs & Hre & Hc); [|congruence]. auto 10. }
  assert (Hne : mxRecords <> []).
  { apply orb_false_iff in Hmx as [_ Hlen]. apply Z.eqb_neq in Hlen.
    destruct mxRecords; [simpl in Hlen; lia | discriminate]. }
  pose proof (performSMTPVerification_done (ToLower (TrimSpace raw)) domain mxRecords w3
                Hmax Hne) as Hp.
  destruct (performSMTPVerification cfg env _ domain mxRecords w3) as [[result perr] w4] eqn:E4.
  pose proof (keeps_results_run _ _ _ _ (keeps_results_performSMTPVerification cfg env _ _ _) E4) as K4.
  simpl in Hp. subst perr.
  intros H. apply Hcreate in H as (Hr & Hs & Hre & Hc); [|congruence].
  split; [exact Hr|]. right. right. right. rewrite Hs, Hre, Hc. repeat split; reflexivity.
Qed.

End Cancellation.

(** With the caller's deadline passed the verdict is unknown, with the
    text of the context's error as reason and confidence 0.2; the tag
    deadline_exceeded and the confidence 0.10 appear nowhere.  An input
    that fails the syntax filter is still answered invalid. *)
Lemma Verify_expired_context_verdict :
  context_done expired_env DeadlineExceeded
  /\ Status (fst (Verify (U:=ascii_runtime) DefaultConfig expired_env "user@example.com"
                    empty_world)) = StatusUnknown
  /\ Reason (fst (Verify (U:=ascii_runtime) DefaultConfig expired_env "user@example.com"
                    empty_world)) = "smtp_error: context deadline exceeded"
  /\ Reason (fst (Verify (U:=ascii_runtime) DefaultConfig expired_env "user@example.com"
                    empty_world)) <> "deadline_exceeded"
  /\ ~ (Confidence (fst (Verify (U:=ascii_runtime) DefaultConfig expired_env "user@example.com"
                           empty_world)) == 0.10)%Q
  /\ Status (fst (Verify (U:=ascii_runtime) DefaultConfig expired_env "not an email"
                    empty_world)) = StatusInvalid.
Proof.
  split; [intros n; reflexivity|].
  vm_compute. repeat split; discriminate.
Qed.

Lemma Verify_context_done_witness :
  results (snd (Verify (U:=ascii_runtime) DefaultConfig expired_env "user@example.com"
                  empty_world)) = results empty_world.
Proof.
  apply (@Verify_context_done ascii_runtime DefaultConfig expired_env DeadlineExceeded).
  - intros n. reflexivity.
  - intros host rcpt n. eexists. split; reflexivity.
  - vm_compute. discriminate.
Defined.

(** ** A catch-all flag that is already known *)

Section KnownCatchAll.

Context {U : Unicode}.
Variable cfg : Config.
Variable env : Env.
Hypothesis Hredis : forall n, redis_ok env n = true.
Hypothesis Hcalm : forall n, ctx_done env n = None.

Lemma redis_Get_run {V} (space : World -> gmap string V) key w :
  (forall n w0, space (set_tick n w0) = space w0) ->
  redis_Get env space key w
  = (if redis_ok env (tick w) then space w !! key else None, set_tick (S (tick w)) w).
Proof.
  intros H. unfold redis_Get, mbind, M_bind, mret, M_ret, interact, get_world.
  rewrite H. reflexivity.
Qed.

Lemma After_or_Done_run d w :
  After_or_Done env d w = (ctx_done env (tick w), log_timer d (set_tick (S (tick w)) w)).
Proof. reflexivity. Qed.

Lemma redis_Set_run write w :
  redis_Set env write w = (tt, write (set_tick (S (tick w)) w)).
Proof.
  unfold redis_Set, mbind, M_bind, interact, modify_world. rewrite Hredis. reflexivity.
Qed.

Lemma waitForRateLimit_calm domain mxHost w :
  exists w1,
    waitForRateLimit cfg env domain mxHost w = (None, w1)
    /\ sessions w1 = sessions w /\ catchall_flags w1 = catchall_flags w.
Proof.
  unfold waitForRateLimit, mbind, M_bind.
  rewrite redis_Get_run by reflexivity.
  destruct (if redis_ok env (tick w) then _ else None) as [lastTime|].
  - rewrite time_Now_run.
    destruct (_ <? DomainRateLimit cfg).
    + rewrite After_or_Done_run, Hcalm, time_Now_run, redis_Set_run.
      eexists. split; [reflexivity|]. split; reflexivity.
    + unfold mret at 1, M_ret at 1. rewrite time_Now_run, redis_Set_run.
      eexists. split; [reflexivity|]. split; reflexivity.
  - unfold mret at 1, M_ret at 1. rewrite time_Now_run, redis_Set_run.
    eexists. split; [reflexivity|]. split; reflexivity.
Qed.

Lemma retryLoop_accepted n attempt email mxHost last w code response :
  handshake_returns (smtp env mxHost email (tick w)) = (code, response, None) ->
  retryLoop cfg env (S n) attempt email mxHost last w
  = (inl (code, response, None), log_session (mxHost, email) (set_tick (S (tick w)) w)).
Proof.
  intros H. cbn [retryLoop].
  unfold smtpHandshake, open_session, mbind, M_bind, mret, M_ret, interact, modify_world.
  rewrite H. reflexivity.
Qed.

Lemma detectCatchAll_known domain mx w :
  catchall_flags w !! ("domain:catchall:" +:+ domain) = Some "1" ->
  detectCatchAll cfg env domain mx w = (true, set_tick (S (tick w)) w).
Proof.
  intros H.
  unfold detectCatchAll, getCachedCatchAllStatus, redis_Get,
    mbind, M_bind, mret, M_ret, interact, get_world.
  cbn [tick set_tick catchall_flags]. rewrite Hredis, H. reflexivity.
Qed.

(** What [verifySMTPWithMX] makes of a known catch-all domain: the SMTP
    session for the submitted address is opened; once the MX answers it
    with 250 or 251 the flag is read from the cache, no random address is
    probed, and the outcome for that MX is catch-all/catch_all_domain with
    confidence 0.5 and the catch-all flag set.  (Redis is reachable, the
    context is not done, detection is enabled and at least one attempt is
    configured.) *)
Lemma verifySMTPWithMX_known_catchall (email domain : string) (mx : MXRecord)
    (startTime : Z) (w : World) :
  EnableCatchAllDetection cfg = true ->
  1 <= MaxRetries cfg ->
  catchall_flags w !! ("domain:catchall:" +:+ domain) = Some "1" ->
  accepts env (Exchange mx) email ->
  exists r w',
    verifySMTPWithMX cfg env email domain mx startTime w = (inl r, w')
    /\ Status r = StatusCatchAll /\ Reason r = "catch_all_domain"
    /\ (Confidence r == 0.5)%Q /\ IsCatchAll r = true
    /\ sessions w' = sessions w ++ [(Exchange mx, email)].
Proof.
  intros Hen Hmax Hflag Hacc. unfold verifySMTPWithMX, mbind, M_bind.
  destruct (waitForRateLimit_calm domain (Exchange mx) w) as (w1 & -> & Hs1 & Hf1).
  destruct (Z.to_nat (MaxRetries cfg)) as [|n] eqn:En; [lia|].
  destruct (Hacc (tick w1)) as (code & response & Hh & Hcode).
  rewrite (retryLoop_accepted n 0 email (Exchange mx) (0, "", None) w1 code response Hh).
  assert (Hcl : classifySMTPResponse code response = (StatusValid, "mailbox_exists", 0.98%Q)).
  { destruct Hcode as [-> | ->]; reflexivity. }
  rewrite Hcl. rewrite Hen. rewrite bool_decide_eq_true_2 by reflexivity. cbn [andb].
  rewrite detectCatchAll_known by (cbn; rewrite Hf1; exact Hflag).
  unfold mret, M_ret. rewrite createResult_run.
  eexists _, _. split; [reflexivity|]. cbn. rewrite Hs1. repeat split; reflexivity.
Qed.

End KnownCatchAll.

(** C3. With the catch-all flag of the domain known true and fresh, in the
    domain metadata and in the catch-all cache, [Verify] does not return
    catch-all/catch_all_domain/0.5 without contacting the MX: it opens an
    SMTP session with the MX for the submitted address, drops the
    catch-all outcome that [verifySMTPWithMX] builds from the cached flag,
    and answers unknown/all_mx_failed with confidence 0.2 and the
    catch-all flag unset, which it then stores in the Result Cache. *)
Theorem Verify_known_catchall_probes :
  (exists meta,
      domain_meta known_catchall_world !! "domain:meta:catchall.test" = Some meta
      /\ MetaIsCatchAll meta = Some true
      /\ MetaCatchAllChecked meta = Some (clock accept_all_env 0))
  /\ catchall_flags known_catchall_world !! "domain:catchall:catchall.test" = Some "1"
  /\ sessions (snd (Verify (U:=ascii_runtime) DefaultConfig accept_all_env
                      "anything@catchall.test" known_catchall_world))
     = [("mx.catchall.test", "anything@catchall.test")]
  /\ Status (fst (Verify (U:=ascii_runtime) DefaultConfig accept_all_env
                    "anything@catchall.test" known_catchall_world)) = StatusUnknown
  /\ Reason (fst (Verify (U:=ascii_runtime) DefaultConfig accept_all_env
                    "anything@catchall.test" known_catchall_world)) = "all_mx_failed"
  /\ Confidence (fst (Verify (U:=ascii_runtime) DefaultConfig accept_all_env
                        "anything@catchall.test" known_catchall_world)) = 0.2%Q
  /\ IsCatchAll (fst (Verify (U:=ascii_runtime) DefaultConfig accept_all_env
                        "anything@catchall.test" known_catchall_world)) = false
  /\ results (snd (Verify (U:=ascii_runtime) DefaultConfig accept_all_env
                     "anything@catchall.test" known_catchall_world))
     !! result_key (U:=ascii_runtime) "anything@catchall.test"
     = Some (fst (Verify (U:=ascii_runtime) DefaultConfig accept_all_env
                    "anything@catchall.test" known_catchall_world)).
Proof.
  split.
  { eexists. split; [reflexivity|]. split; reflexivity. }
  vm_compute. repeat split; reflexivity.
Qed.

(** The outcome of [verifySMTPWithMX] for the same domain and MX. *)
Lemma verifySMTPWithMX_known_catchall_witness :
  exists r w',
    verifySMTPWithMX (U:=ascii_runtime) DefaultConfig accept_all_env "anything@catchall.test"
      "catchall.test" (mkMXRecord "mx.catchall.test" 10) (steady_clock 0) known_catchall_world
    = (inl r, w')
    /\ Status r = StatusCatchAll /\ Reason r = "catch_all_domain"
    /\ (Confidence r == 0.5)%Q /\ IsCatchAll r = true
    /\ sessions w' = sessions known_catchall_world
                     ++ [(Exchange (mkMXRecord "mx.catchall.test" 10), "anything@catchall.test")].
Proof.
  apply (@verifySMTPWithMX_known_catchall ascii_runtime DefaultConfig accept_all_env).
  - intros n. reflexivity.
  - intros n. reflexivity.
  - reflexivity.
  - vm_compute. discriminate.
  - vm_compute. reflexivity.
  - intros n. exists 250, "Recipient OK". split; [reflexivity | left; reflexivity].
Defined.

(** ** Verdicts returned by [Verify] are coupled *)

(** From a Result Cache of coupled verdicts, an empty one for instance,
    every verdict of a batch is coupled. *)
Lemma verifyBatch_coupled (U : Unicode) (cfg : Config) (env : Env) (emails : list string) :
  forall w,
    cache_coupled w ->
    Forall coupled (fst (verifyBatch cfg env emails w))
    /\ cache_coupled (snd (verifyBatch cfg env emails w)).
Proof.
  induction emails as [|email rest IH]; intros w Hw; cbn [verifyBatch].
  - split; [constructor | exact Hw].
  - unfold mbind, M_bind.
    destruct (Verify cfg env email w) as [r w1] eqn:E.
    destruct (Verify_coupled_run cfg env email w r w1 Hw E) as [Hr Hw1].
    destruct (IH w1 Hw1) as [Hrs Hw2].
    destruct (verifyBatch cfg env rest w1) as [rs w2]. cbn [fst snd] in Hrs, Hw2.
    split; [constructor; assumption | exact Hw2].
Qed.

(** C9. Every verdict [Verify] returns satisfies the coupling of status and
    catch-all flag (valid implies not catch-all, catch-all implies the
    flag), and every verdict it leaves in the Result Cache does, provided
    the verdicts already in the Result Cache do: the cache is written by
    [Verify] alone. *)
Theorem Verify_coupled (U : Unicode) (cfg : Config) (env : Env) (raw : string) (w : World) :
  cache_coupled w ->
  coupled (fst (Verify cfg env raw w)) /\ cache_coupled (snd (Verify cfg env raw w)).
Proof.
  intros Hw. destruct (Verify cfg env raw w) as [r w'] eqn:E.
  eapply Verify_coupled_run; eauto.
Qed.

Lemma cache_coupled_empty w : results w = ∅ -> cache_coupled w.
Proof. intros H key r Hr. rewrite H, lookup_empty in Hr. discriminate. Qed.

Lemma Verify_coupled_witness :
  coupled (fst (Verify (U:=ascii_runtime) DefaultConfig accept_all_env "anything@catchall.test"
                  empty_world))
  /\ cache_coupled (snd (Verify (U:=ascii_runtime) DefaultConfig accept_all_env
                           "anything@catchall.test" empty_world)).
Proof.
  apply (Verify_coupled ascii_runtime DefaultConfig accept_all_env "anything@catchall.test"
           empty_world).
  apply cache_coupled_empty. reflexivity.
Defined.

(** ** The MX list returned by the resolver *)

Lemma TrimSuffix_dot s : TrimSuffix (s +:+ ".") "." = s.
Proof.
  induction s as [|c s IH]; [reflexivity|].
  change (String c s +:+ ".") with (String c (s +:+ ".")). cbn [TrimSuffix].
  destruct (String.eqb_spec (String c (s +:+ ".")) ".") as [E|_].
  - destruct s; discriminate.
  - rewrite IH. reflexivity.
Qed.

Lemma sorted_record_of_mx (mxs : list NetMX) :
  StronglySorted by_pref mxs -> StronglySorted by_priority (map record_of_mx mxs).
Proof.
  induction 1 as [|mx mxs _ IH Hall]; cbn [List.map]; constructor; [exact IH|].
  apply Forall_forall. intros r Hr. apply list_elem_of_fmap in Hr as (mx' & -> & Hin).
  rewrite Forall_forall in Hall. exact (Hall mx' Hin).
Qed.

(** The resolver answers with a name in upper-case letters, and the
    record made of it keeps them: the exchange returned is not the
    lower-case name. *)
Lemma getMXRecords_keeps_case :
  StronglySorted by_pref tied_answer
  /\ fst (getMXRecords tied_env "example.com" empty_world)
     = ([mkMXRecord "backup.example.com" 10; mkMXRecord "MX-B.Example.COM" 20;
         mkMXRecord "mx-a.example.com" 20], None)
  /\ ToLower (U:=ascii_runtime) "MX-B.Example.COM" = "mx-b.example.com"
  /\ "MX-B.Example.COM" <> "mx-b.example.com".
Proof.
  split; [|split; [|split]].
  - repeat (constructor; [|repeat (constructor; [unfold by_pref; cbn; lia|]); constructor]).
    constructor.
  - vm_compute. reflexivity.
  - vm_compute. reflexivity.
  - discriminate.
Qed.

(** C8 (amended). On a miss of the MX cache, the records of the
    resolver's answer, which [net.LookupMX] returns sorted by preference,
    come back in that very order: ascending by priority, records of equal
    priority in the order of the answer, each with the priority of the
    answer and its host name less its trailing dot.  Host names keep
    their letter case. *)
Theorem getMXRecords_sorted (env : Env) (domain : string) (w : World) (mxs : list NetMX) :
  mx_cache w !! ("mx:records:" +:+ domain) = None ->
  (forall n, dns env domain n = (mxs, None)) ->
  StronglySorted by_pref mxs ->
  exists records,
    fst (getMXRecords env domain w) = (records, None)
    /\ StronglySorted by_priority records
    /\ Forall2 (fun mx r =>
                  Priority r = Pref mx
                  /\ Exchange r = TrimSuffix (Host mx) "."
                  /\ forall name, Host mx = name +:+ "." -> Exchange r = name)
         mxs records.
Proof.
  intros Hmiss Hdns Hsorted. rewrite (getMXRecords_miss env domain w Hmiss), Hdns. cbn [fst snd].
  exists (map record_of_mx mxs). split; [|split].
  - unfold sortMXRecords. rewrite sort_outer_sorted; [reflexivity|].
    apply sorted_record_of_mx, Hsorted.
  - apply sorted_record_of_mx, Hsorted.
  - clear. induction mxs as [|mx mxs IH]; cbn [List.map]; constructor; [|exact IH].
    cbn [record_of_mx Priority Exchange]. split; [reflexivity|]. split; [reflexivity|].
    intros name ->. apply TrimSuffix_dot.
Qed.

Lemma getMXRecords_sorted_witness :
  exists records,
    fst (getMXRecords tied_env "example.com" empty_world) = (records, None)
    /\ StronglySorted by_priority records
    /\ Forall2 (fun mx r =>
                  Priority r = Pref mx
                  /\ Exchange r = TrimSuffix (Host mx) "."
                  /\ forall name, Host mx = name +:+ "." -> Exchange r = name)
         tied_answer records.
Proof.
  apply (getMXRecords_sorted tied_env "example.com" empty_world tied_answer).
  - reflexivity.
  - intros n. reflexivity.
  - repeat (constructor; [|repeat (constructor; [unfold by_pref; cbn; lia|]); constructor]).
    constructor.
Defined.

(** ** Invariance under normalization *)

Lemma ascii_runtime_laws : UnicodeLaws ascii_runtime.
Proof.
  split.
  - intros s H. unfold TrimSpace. cbn [TrimFuncIsSpace ascii_runtime]. rewrite H. reflexivity.
  - intros s H Ht. cbn [MapToLower ascii_runtime]. exact Ht.
  - intros s H. unfold ToLower. cbn [MapToLower ascii_runtime]. rewrite H. reflexivity.
Qed.

(** The functions of the code against the words of the specification. *)
Lemma blank_is_space c : blank c = is_space c.
Proof. destruct c as [[] [] [] [] [] [] [] []]; reflexivity. Qed.

Lemma lower_case_lower_byte c : lower_case c = lower_byte c.
Proof. destruct c as [[] [] [] [] [] [] [] []]; reflexivity. Qed.

Lemma list_trim_left s :
  list_ascii_of_string (trim_left s) = drop_blanks (list_ascii_of_string s).
Proof.
  induction s as [|c s IH]; [reflexivity|].
  cbn [trim_left list_ascii_of_string drop_blanks]. rewrite blank_is_space.
  destruct (is_space c); [exact IH | reflexivity].
Qed.

Lemma drop_blanks_snoc l c :
  drop_blanks (l ++ [c])
  = match drop_blanks l with
    | [] => if blank c then [] else [c]
    | _ :: _ => drop_blanks l ++ [c]
    end.
Proof.
  induction l as [|a l IH]; [reflexivity|].
  cbn [app drop_blanks]. destruct (blank a); [exact IH | reflexivity].
Qed.

Lemma list_trim_right s :
  list_ascii_of_string (trim_right s) = rev (drop_blanks (rev (list_ascii_of_string s))).
Proof.
  induction s as [|c s IH]; [reflexivity|].
  cbn [trim_right list_ascii_of_string rev]. rewrite drop_blanks_snoc, <- blank_is_space.
  destruct (drop_blanks (rev (list_ascii_of_string s))) as [|a l] eqn:E.
  - cbn [rev] in IH. destruct (trim_right s); [|discriminate IH].
    cbn [is_empty]. rewrite andb_true_r. destruct (blank c); reflexivity.
  - assert (Hne : is_empty (trim_right s) = false).
    { destruct (trim_right s); [|reflexivity]. cbn [list_ascii_of_string] in IH.
      apply (f_equal (@length ascii)) in IH. rewrite length_rev in IH. discriminate IH. }
    rewrite Hne, andb_false_r. cbn [list_ascii_of_string].
    rewrite IH, rev_app_distr. reflexivity.
Qed.

Lemma list_map_bytes f s :
  list_ascii_of_string (map_bytes f s) = map f (list_ascii_of_string s).
Proof. induction s as [|c s IH]; [reflexivity|]. cbn. rewrite IH. reflexivity. Qed.

(** On ASCII input the normal form of the code is the trimmed,
    lower-cased form of the specification. *)
Lemma normalize_trimmed_lowercased (U : Unicode) (raw : string) :
  is_ascii raw = true -> normalize raw = trimmed_lowercased raw.
Proof.
  intros H. unfold normalize. rewrite (TrimSpace_ascii raw H).
  rewrite ToLower_ascii by (apply is_ascii_trimmed, H).
  rewrite <- (string_of_list_ascii_of_string (map_bytes lower_byte _)).
  unfold trimmed_lowercased. f_equal.
  rewrite list_map_bytes, list_trim_right, list_trim_left.
  apply List.map_ext. intros c. symmetry. apply lower_case_lower_byte.
Qed.

(** C10. [Verify] is invariant under leading and trailing white space and
    ASCII letter case of its input.  For every input, the input and its
    normal form have the same fingerprint, the hex SHA-256 digest of the
    normal form, and in the same world, with the same answers from
    outside, [Verify] returns the same verdict and leaves the same world
    for both.  For every ASCII input the normal form is the input without
    the blanks (tab, newline, vertical tab, form feed, carriage return,
    space) at its two ends and with every capital letter replaced by its
    small letter, so that two ASCII inputs with the same trimmed,
    lower-cased form get the same fingerprint, verdict and world. *)
Theorem Verify_normalize (U : Unicode) (L : UnicodeLaws U) (cfg : Config) (env : Env)
    (raw : string) (w : World) :
  hashEmail (normalize (normalize raw)) = hashEmail (normalize raw)
  /\ hashEmail (normalize raw)
     = EncodeToString (SHA256.sum (bytes_of_string (normalize raw)))
  /\ Verify cfg env (normalize raw) w = Verify cfg env raw w
  /\ (is_ascii raw = true ->
      normalize raw = trimmed_lowercased raw
      /\ hashEmail (trimmed_lowercased raw)
         = EncodeToString (SHA256.sum (bytes_of_string (trimmed_lowercased raw)))
      /\ Verify cfg env (trimmed_lowercased raw) w = Verify cfg env raw w
      /\ forall raw',
           is_ascii raw' = true ->
           trimmed_lowercased raw' = trimmed_lowercased raw ->
           hashEmail (normalize raw') = hashEmail (normalize raw)
           /\ Verify cfg env raw' w = Verify cfg env raw w).
Proof.
  assert (Hfp : hashEmail (normalize raw)
                = EncodeToString (SHA256.sum (bytes_of_string (normalize raw)))).
  { unfold hashEmail. rewrite (proj2 (normalize_fixed raw)). reflexivity. }
  assert (Hv : Verify cfg env (normalize raw) w = Verify cfg env raw w).
  { unfold Verify.
    change (ToLower (TrimSpace (normalize raw))) with (normalize (normalize raw)).
    rewrite normalize_idem. reflexivity. }
  split; [rewrite normalize_idem; reflexivity|]. split; [exact Hfp|]. split; [exact Hv|].
  intros Hascii. pose proof (normalize_trimmed_lowercased U raw Hascii) as Hn.
  split; [exact Hn|]. rewrite <- Hn. split; [|split; [exact Hv|]].
  - unfold hashEmail at 1. rewrite (proj2 (normalize_fixed raw)). reflexivity.
  - intros raw' Hascii' Heq.
    assert (Hn' : normalize raw' = normalize raw).
    { rewrite (normalize_trimmed_lowercased U raw' Hascii'), Heq. reflexivity. }
    split; [rewrite Hn'; reflexivity|].
    unfold Verify.
    change (ToLower (TrimSpace raw')) with (normalize raw').
    change (ToLower (TrimSpace raw)) with (normalize raw).
    rewrite Hn'. reflexivity.
Qed.

Lemma Verify_normalize_witness :
  hashEmail (U:=ascii_runtime)
      (normalize (U:=ascii_runtime) (normalize (U:=ascii_runtime) "  User@Example.COM "))
    = hashEmail (U:=ascii_runtime) (normalize (U:=ascii_runtime) "  User@Example.COM ")
  /\ hashEmail (U:=ascii_runtime) (normalize (U:=ascii_runtime) "  User@Example.COM ")
     = EncodeToString
         (SHA256.sum (bytes_of_string (normalize (U:=ascii_runtime) "  User@Example.COM ")))
  /\ Verify (U:=ascii_runtime) DefaultConfig reject_all_env
       (normalize (U:=ascii_runtime) "  User@Example.COM ") empty_world
     = Verify (U:=ascii_runtime) DefaultConfig reject_all_env "  User@Example.COM " empty_world
  /\ (is_ascii "  User@Example.COM " = true ->
      normalize (U:=ascii_runtime) "  User@Example.COM "
      = trimmed_lowercased "  User@Example.COM "
      /\ hashEmail (U:=ascii_runtime) (trimmed_lowercased "  User@Example.COM ")
         = EncodeToString
             (SHA256.sum (bytes_of_string (trimmed_lowercased "  User@Example.COM ")))
      /\ Verify (U:=ascii_runtime) DefaultConfig reject_all_env
           (trimmed_lowercased "  User@Example.COM ") empty_world
         = Verify (U:=ascii_runtime) DefaultConfig reject_all_env "  User@Example.COM "
             empty_world
      /\ forall raw',
           is_ascii raw' = true ->
           trimmed_lowercased raw' = trimmed_lowercased "  User@Example.COM " ->
           hashEmail (U:=ascii_runtime) (normalize (U:=ascii_runtime) raw')
           = hashEmail (U:=ascii_runtime) (normalize (U:=ascii_runtime) "  User@Example.COM ")
           /\ Verify (U:=ascii_runtime) DefaultConfig reject_all_env raw' empty_world
              = Verify (U:=ascii_runtime) DefaultConfig reject_all_env "  User@Example.COM "
                  empty_world).
Proof.
  apply (Verify_normalize ascii_runtime ascii_runtime_laws DefaultConfig reject_all_env
           "  User@Example.COM " empty_world).
Defined.

(** The trimmed, lower-cased form of an input with blanks and capitals. *)
Example trimmed_lowercased_example :
  trimmed_lowercased "  User@Example.COM " = "user@example.com"
  /\ trimmed_lowercased "user@example.com" = "user@example.com".
Proof. vm_compute. split; reflexivity. Qed.

(** ** Catch-all threshold and retry backoff *)

(** The number of accepted probes never falls below its start. *)
Lemma countAccepted_ge (env : Env) (probes : list string) (mxHost : string) :
  forall acc w, acc <= fst (countAccepted env probes mxHost acc w).
Proof.
  induction probes as [|p rest IH]; intros acc w; cbn [countAccepted].
  - simpl. lia.
  - unfold mbind, M_bind.
    destruct (smtpHandshake env p mxHost w) as [[[code resp] err] w1].
    destruct (Sleep _ w1) as [[] w2].
    match goal with |- _ <= fst (countAccepted _ _ _ ?a _) => specialize (IH a w2) end.
    destruct err; [exact IH|].
    destruct ((code =? 250) || (code =? 251)); lia.
Qed.

(** With a single probe configured, a domain whose catch-all flag is not
    cached is judged a catch-all whatever the MX answers. *)
Lemma detectCatchAll_single_probe (cfg : Config) (env : Env) (domain : string)
    (mx : MXRecord) (w : World) :
  CatchAllProbeCount cfg = 1 ->
  catchall_flags w !! ("domain:catchall:" +:+ domain) = None ->
  fst (detectCatchAll cfg env domain mx w) = true.
Proof.
  intros HK Hmiss. unfold detectCatchAll, getCachedCatchAllStatus, mbind, M_bind.
  rewrite redis_Get_run by reflexivity. rewrite Hmiss.
  replace (if redis_ok env (tick w) then None else None) with (None : option string)
    by (destruct (redis_ok env (tick w)); reflexivity).
  unfold mret at 1, M_ret at 1. cbn [option_map].
  destruct (probeEmails env _ _ _ _) as [probes w1].
  pose proof (countAccepted_ge env probes (Exchange mx) 0 w1) as Hge.
  destruct (countAccepted env probes (Exchange mx) 0 w1) as [acceptCount w2]. cbn [fst] in Hge.
  destruct (cacheCatchAllStatus env domain _ w2) as [[] w3].
  rewrite HK. cbn [fst mret M_ret]. change (1 `quot` 2) with 0.
  apply Z.geb_le. exact Hge.
Qed.

(** C2. The threshold of [detectCatchAll] is K/2 rounded down, not up: with
    one probe, rejected with 550, the domain is judged a catch-all, and
    with three probes one acceptance is enough. *)
Theorem detectCatchAll_threshold_rounds_down :
  fst (detectCatchAll (with_probes 1 DefaultConfig) reject_all_env "example.com"
         (mkMXRecord "mx.example.com" 10) empty_world) = true
  /\ fst (detectCatchAll (with_probes 3 DefaultConfig) accept_first_probe_env "example.com"
            (mkMXRecord "mx.example.com" 10) empty_world) = true
  /\ length (sessions (snd (detectCatchAll (with_probes 3 DefaultConfig) accept_first_probe_env
                              "example.com" (mkMXRecord "mx.example.com" 10) empty_world)))
     = 3%nat.
Proof. vm_compute. repeat split; reflexivity. Qed.

(** The backoff of the default configuration grows by four seconds per
    attempt. *)
Lemma backoff_default_linear (attempt : Z) :
  backoff DefaultConfig attempt = 4 * Second * (attempt + 1).
Proof.
  unfold backoff, truncQ, Qmult, inject_Z.
  cbn [Qnum Qden RetryBackoff RetryBackoffFactor DefaultConfig].
  change (Z.pos (1 * 1 * 10)) with 10.
  replace (2 * Second * (attempt + 1) * 20) with (4 * Second * (attempt + 1) * 10) by lia.
  apply Z.quot_mul. discriminate.
Qed.

(** C6. With the default configuration the delays of the retry loop are 4 s
    and 8 s, base times factor times the number of the attempt, not 2 s and
    4 s: an MX that cannot be reached is tried three times with these two
    waits in between, and a 4xx reply to RCPT TO is not retried at all. *)
Theorem retry_backoff_delays :
  backoff DefaultConfig 0 = 4 * Second
  /\ backoff DefaultConfig 1 = 8 * Second
  /\ backoff DefaultConfig 2 = 12 * Second
  /\ timers (snd (verifySMTPWithMX (U:=ascii_runtime) DefaultConfig unreachable_env
                    "user@example.com" "example.com" (mkMXRecord "mx.example.com" 10)
                    (steady_clock 0) empty_world))
     = [4 * Second; 8 * Second]
  /\ length (sessions (snd (verifySMTPWithMX (U:=ascii_runtime) DefaultConfig unreachable_env
                              "user@example.com" "example.com"
                              (mkMXRecord "mx.example.com" 10) (steady_clock 0) empty_world)))
     = 3%nat
  /\ sessions (snd (verifySMTPWithMX (U:=ascii_runtime) DefaultConfig deferring_env
                      "user@example.com" "example.com" (mkMXRecord "mx.example.com" 10)
                      (steady_clock 0) empty_world))
     = [("mx.example.com", "user@example.com")].
Proof. vm_compute. repeat split; reflexivity. Qed.

(** * Further properties of the verifier *)

(** ** The syntax filter, exactly *)

Lemma lang_star_class_intro cl s :
  Forall (fun c => class_mem cl c = true) s -> lang (Star (Class cl)) s.
Proof.
  induction 1 as [|c s Hc _ IH]; [constructor|].
  change (c :: s) with ([c] ++ s). constructor; [constructor; exact Hc | exact IH].
Qed.

Lemma lang_plus_class_intro cl s :
  s <> [] -> Forall (fun c => class_mem cl c = true) s -> lang (Plus (Class cl)) s.
Proof.
  intros Hne H. destruct H as [|c s Hc Hs]; [congruence|].
  change (c :: s) with ([c] ++ s). constructor; [constructor; exact Hc|].
  apply lang_star_class_intro, Hs.
Qed.

Lemma lang_lit c : lang (Lit c) [c].
Proof. constructor. unfold class_mem. simpl. rewrite Ascii.eqb_refl. reflexivity. Qed.

Lemma lang_lit_inv c s : lang (Lit c) s -> s = [c].
Proof.
  intros H. apply lang_class_inv in H as (a & -> & Ha).
  unfold class_mem in Ha. simpl in Ha. rewrite orb_false_r in Ha.
  apply Ascii.eqb_eq in Ha. subst. reflexivity.
Qed.

Lemma class_mem_local c :
  class_mem [CRange "a" "z"; CRange "A" "Z"; CRange "0" "9";
             CByte "."; CByte "_"; CByte "%"; CByte "+"; CByte "-"] c = local_byte c.
Proof.
  unfold class_mem, local_byte, is_letter, is_digit. simpl.
  rewrite orb_false_r, !orb_assoc. reflexivity.
Qed.

Lemma class_mem_domain c :
  class_mem [CRange "a" "z"; CRange "A" "Z"; CRange "0" "9"; CByte "."; CByte "-"] c
  = domain_byte c.
Proof.
  unfold class_mem, domain_byte, is_letter, is_digit. simpl.
  rewrite orb_false_r, !orb_assoc. reflexivity.
Qed.

Lemma class_mem_letter c :
  class_mem [CRange "a" "z"; CRange "A" "Z"] c = is_letter c.
Proof. unfold class_mem, is_letter. simpl. rewrite orb_false_r. reflexivity. Qed.

Lemma all_bytes_Forall p s :
  all_bytes p s = true <-> Forall (fun c => p c = true) (list_ascii_of_string s).
Proof.
  induction s as [|c s IH]; simpl.
  - split; [constructor | reflexivity].
  - rewrite andb_true_iff, IH. split.
    + intros [Hc Hs]; constructor; assumption.
    + intros H; inversion H; subst; auto.
Qed.

Lemma list_ascii_of_string_app a b :
  list_ascii_of_string (a +:+ b) = list_ascii_of_string a ++ list_ascii_of_string b.
Proof. induction a as [|c a IH]; simpl; [reflexivity | rewrite IH; reflexivity]. Qed.

Lemma length_list_ascii s : length (list_ascii_of_string s) = String.length s.
Proof. induction s as [|c s IH]; simpl; [reflexivity | rewrite IH; reflexivity]. Qed.

Lemma Forall_class_ext cl p l :
  (forall c, class_mem cl c = p c) ->
  Forall (fun c => class_mem cl c = true) l <-> Forall (fun c => p c = true) l.
Proof.
  intros H. split; intros HF; (eapply Forall_impl; [exact HF|]); intros c Hc;
    [rewrite <- H | rewrite H]; exact Hc.
Qed.

(** The language of [emailRegex], spelled out. *)
Lemma emailRegex_lang s :
  lang emailRegex s <->
  exists local dom tld,
    s = local ++ "@"%char :: dom ++ "."%char :: tld
    /\ local <> [] /\ Forall (fun c => local_byte c = true) local
    /\ dom <> [] /\ Forall (fun c => domain_byte c = true) dom
    /\ (2 <= length tld)%nat /\ Forall (fun c => is_letter c = true) tld.
Proof.
  unfold emailRegex. split.
  - intros H.
    apply lang_cat_inv in H as (local & s1 & -> & Hl & H).
    apply lang_cat_inv in H as (at_ & s2 & -> & Ha & H).
    apply lang_cat_inv in H as (dom & s3 & -> & Hd & H).
    apply lang_cat_inv in H as (dot & tld & -> & Hdot & H).
    cbn [AtLeast] in H.
    apply lang_cat_inv in H as (t1 & t' & -> & Ht1 & H).
    apply lang_cat_inv in H as (t2 & t3 & -> & Ht2 & Ht3).
    apply lang_plus_class in Hl as [Hl Hl0]. apply lang_plus_class in Hd as [Hd Hd0].
    apply lang_lit_inv in Ha as ->. apply lang_lit_inv in Hdot as ->.
    apply lang_class_inv in Ht1 as (c1 & -> & Hc1). apply lang_class_inv in Ht2 as (c2 & -> & Hc2).
    apply lang_star_class in Ht3.
    exists local, dom, ([c1] ++ [c2] ++ t3). repeat split; auto.
    + apply (Forall_class_ext _ _ _ class_mem_local), Hl.
    + apply (Forall_class_ext _ _ _ class_mem_domain), Hd.
    + simpl. lia.
    + apply (Forall_class_ext _ _ _ class_mem_letter). simpl. repeat constructor; assumption.
  - intros (local & dom & tld & -> & Hl0 & Hl & Hd0 & Hd & Hlen & Ht).
    constructor.
    { apply lang_plus_class_intro; [exact Hl0|].
      apply (Forall_class_ext _ _ _ class_mem_local), Hl. }
    change ("@"%char :: dom ++ "."%char :: tld) with (["@"%char] ++ dom ++ "."%char :: tld).
    constructor; [apply lang_lit|]. constructor.
    { apply lang_plus_class_intro; [exact Hd0|].
      apply (Forall_class_ext _ _ _ class_mem_domain), Hd. }
    change ("."%char :: tld) with (["."%char] ++ tld).
    constructor; [apply lang_lit|].
    destruct tld as [|c1 [|c2 t3]]; simpl in Hlen; try lia.
    apply (Forall_class_ext _ _ _ class_mem_letter) in Ht.
    inversion Ht as [|? ? Hc1 Ht']; subst. inversion Ht' as [|? ? Hc2 Ht3]; subst.
    cbn [AtLeast].
    change (c1 :: c2 :: t3) with ([c1] ++ [c2] ++ t3).
    constructor; [constructor; exact Hc1|]. constructor; [constructor; exact Hc2|].
    apply lang_star_class_intro, Ht3.
Qed.

(** X1. The syntax filter accepts exactly the strings of at most 320 bytes
    made of a non-empty local part of letters, digits and [._%+-], an [@],
    a non-empty run of letters, digits, dots and hyphens, a dot, and two
    or more letters. *)
Theorem isValidEmailSyntax_shape (email : string) :
  isValidEmailSyntax email = true <->
  (String.length email <= 320)%nat
  /\ exists local dom tld,
       email = local +:+ "@" +:+ dom +:+ "." +:+ tld
       /\ local <> "" /\ all_bytes local_byte local = true
       /\ dom <> "" /\ all_bytes domain_byte dom = true
       /\ (2 <= String.length tld)%nat /\ all_bytes is_letter tld = true.
Proof.
  unfold isValidEmailSyntax, MatchString.
  rewrite andb_true_iff, matches_lang, emailRegex_lang, Z.leb_le. split.
  - intros [(local & dom & tld & Hs & Hl0 & Hl & Hd0 & Hd & Hlen & Ht) Hle].
    split; [lia|].
    exists (string_of_list_ascii local), (string_of_list_ascii dom), (string_of_list_ascii tld).
    repeat split.
    + rewrite <- (string_of_list_ascii_of_string email), Hs.
      rewrite <- (string_of_list_ascii_of_string
                    (string_of_list_ascii local +:+ "@" +:+ string_of_list_ascii dom +:+ "."
                     +:+ string_of_list_ascii tld)).
      f_equal. rewrite !list_ascii_of_string_app, !list_ascii_of_string_of_list_ascii.
      reflexivity.
    + destruct local; [congruence | discriminate].
    + apply all_bytes_Forall. rewrite list_ascii_of_string_of_list_ascii. exact Hl.
    + destruct dom; [congruence | discriminate].
    + apply all_bytes_Forall. rewrite list_ascii_of_string_of_list_ascii. exact Hd.
    + rewrite <- length_list_ascii, list_ascii_of_string_of_list_ascii. exact Hlen.
    + apply all_bytes_Forall. rewrite list_ascii_of_string_of_list_ascii. exact Ht.
  - intros [Hle (local & dom & tld & -> & Hl0 & Hl & Hd0 & Hd & Hlen & Ht)].
    split; [|lia].
    exists (list_ascii_of_string local), (list_ascii_of_string dom), (list_ascii_of_string tld).
    rewrite !list_ascii_of_string_app. repeat split.
    + destruct local; [congruence | discriminate].
    + apply all_bytes_Forall, Hl.
    + destruct dom; [congruence | discriminate].
    + apply all_bytes_Forall, Hd.
    + rewrite length_list_ascii. exact Hlen.
    + apply all_bytes_Forall, Ht.
Qed.

(** ** The verdicts [Verify] can produce *)

(** The six branches of the classifier. *)
Lemma classifySMTPResponse_cases code response :
  ((code = 250 \/ code = 251)
     /\ classifySMTPResponse code response = (StatusValid, "mailbox_exists", 0.98%Q))
  \/ ((code = 550 \/ code = 551 \/ code = 553)
     /\ classifySMTPResponse code response = (StatusInvalid, "mailbox_not_found", 0.95%Q))
  \/ ((code = 450 \/ code = 451 \/ code = 452)
     /\ classifySMTPResponse code response = (StatusUnknown, "temporary_failure", 0.3%Q))
  \/ (code = 421
     /\ classifySMTPResponse code response = (StatusUnknown, "rate_limited", 0.2%Q))
  \/ (500 <= code /\ code <> 550 /\ code <> 551 /\ code <> 553
     /\ classifySMTPResponse code response
        = (StatusInvalid, "smtp_error_" +:+ itoa code, 0.7%Q))
  \/ (code < 500 /\ code <> 250 /\ code <> 251 /\ code <> 450 /\ code <> 451 /\ code <> 452
     /\ code <> 421
     /\ classifySMTPResponse code response = (StatusUnknown, "unknown_response", 0.1%Q)).
Proof.
  unfold classifySMTPResponse.
  destruct ((code =? 250) || (code =? 251)) eqn:E1.
  { left. split; [lia | reflexivity]. }
  destruct ((code =? 550) || (code =? 551) || (code =? 553)) eqn:E2.
  { right. left. split; [lia | reflexivity]. }
  destruct ((code =? 450) || (code =? 451) || (code =? 452)) eqn:E3.
  { right. right. left. split; [lia | reflexivity]. }
  destruct (code =? 421) eqn:E4.
  { right. right. right. left. split; [lia | reflexivity]. }
  destruct (500 <=? code) eqn:E5.
  { right. right. right. right. left. repeat split; try lia; reflexivity. }
  right. right. right. right. right. repeat split; try lia; reflexivity.
Qed.

Section Verdicts.

Context {U : Unicode}.
Variable cfg : Config.
Variable env : Env.

(** What a result of [verifySMTPWithMX] holds. *)
Lemma verifySMTPWithMX_result email domain mx startTime w r w' :
  verifySMTPWithMX cfg env email domain mx startTime w = (inl r, w') ->
  Email r = email /\ EmailHash r = hashEmail email /\ Domain r = domain
  /\ MXHost r = Exchange mx /\ MXRecords r = [mx] /\ IsDisposable r = false
  /\ ((IsCatchAll r = true /\ Status r = StatusCatchAll /\ Reason r = "catch_all_domain"
       /\ Confidence r = 0.5%Q /\ (SMTPCode r = 250 \/ SMTPCode r = 251))
      \/ (IsCatchAll r = false
          /\ (Status r, Reason r, Confidence r)
             = classifySMTPResponse (SMTPCode r) (SMTPResponse r))).
Proof.
  unfold verifySMTPWithMX, mbind, M_bind, mret, M_ret. intros H.
  destruct (waitForRateLimit cfg env domain (Exchange mx) w) as [lim w1].
  destruct lim; [discriminate|].
  destruct (retryLoop _ _ _ _ _ _ _ _) as [looped w2].
  destruct looped as [[[code resp] [e|]]|e]; try discriminate.
  destruct (classifySMTPResponse_cases code resp) as [[Hc E] | Hother].
  - rewrite E in H. 
    destruct (bool_decide (StatusValid = StatusValid) && EnableCatchAllDetection cfg).
    + destruct (detectCatchAll cfg env domain mx w2) as [isCA w3].
      destruct isCA; rewrite createResult_run in H; injection H as <- _; cbn.
      * repeat split; try reflexivity. left. repeat split; try reflexivity. exact Hc.
      * repeat split; try reflexivity. right. rewrite E. split; reflexivity.
    + rewrite createResult_run in H. injection H as <- _. cbn.
      repeat split; try reflexivity. right. rewrite E. split; reflexivity.
  - assert (Hst : fst (fst (classifySMTPResponse code resp)) <> StatusValid).
    { destruct Hother as [[_ E] | [[_ E] | [[_ E] | [(_ & _ & _ & _ & E)
        | (_ & _ & _ & _ & _ & _ & _ & E)]]]]; rewrite E; discriminate. }
    destruct (classifySMTPResponse code resp) as [[st reason] conf] eqn:E. cbn in Hst.
    rewrite bool_decide_eq_false_2 in H by exact Hst. cbn [andb] in H.
    rewrite createResult_run in H. injection H as <- _. cbn.
    repeat split; try reflexivity. right. rewrite E. split; reflexivity.
Qed.

Lemma tryMXRecords_result mxRecords email domain startTime :
  forall lastErr w r e w',
    tryMXRecords cfg env mxRecords email domain startTime lastErr w = (Some r, e, w') ->
    exists mx, In mx mxRecords /\ exists wa wb,
      verifySMTPWithMX cfg env email domain mx startTime wa = (inl r, wb)
      /\ (Status r = StatusValid \/ Status r = StatusInvalid).
Proof.
  induction mxRecords as [|mx rest IH]; intros lastErr w r e w'; cbn [tryMXRecords].
  - unfold mret, M_ret. intros H. discriminate.
  - unfold mbind, M_bind.
    destruct (verifySMTPWithMX cfg env email domain mx startTime w) as [[res|err] w1] eqn:E.
    + destruct (bool_decide (Status res = StatusValid)) eqn:Ev; cbn [orb].
      * unfold mret, M_ret. intros H. injection H as <- _ _.
        exists mx. split; [left; reflexivity|]. exists w, w1. split; [exact E|].
        left. apply bool_decide_eq_true_1 in Ev. exact Ev.
      * destruct (bool_decide (Status res = StatusInvalid)) eqn:Ei.
        -- unfold mret, M_ret. intros H. injection H as <- _ _.
           exists mx. split; [left; reflexivity|]. exists w, w1. split; [exact E|].
           right. apply bool_decide_eq_true_1 in Ei. exact Ei.
        -- intros H. apply IH in H as (mx' & Hin & Hrest). exists mx'. split; [right; exact Hin | exact Hrest].
    + intros H. apply IH in H as (mx' & Hin & Hrest). exists mx'. split; [right; exact Hin | exact Hrest].
Qed.

Lemma performSMTPVerification_result email domain mxRecords w r e w' :
  performSMTPVerification cfg env email domain mxRecords w = (r, e, w') ->
  Email r = email /\ EmailHash r = hashEmail email /\ Domain r = domain
  /\ IsDisposable r = false /\ smtp_row r
  /\ (MXHost r = "" \/ exists mx, In mx mxRecords /\ MXHost r = Exchange mx).
Proof.
  unfold performSMTPVerification, mbind, M_bind.
  destruct (time_Now env w) as [t0 w0].
  destruct (tryMXRecords _ _ _ _ _ _ _ _) as [[[res|] lastErr] w1] eqn:E.
  - unfold mret, M_ret. intros H. injection H as <- _ _.
    apply tryMXRecords_result in E as (mx & Hin & wa & wb & Hv & Hst).
    apply verifySMTPWithMX_result in Hv
      as (He & Hh & Hd & Hmx & _ & Hdis & [(_ & Hca & _) | (Hca & Hcl)]).
    { destruct Hst as [Hst | Hst]; rewrite Hst in Hca; discriminate. }
    repeat split; try assumption; [|right; exists mx; split; assumption].
    unfold smtp_row.
    destruct (classifySMTPResponse_cases (SMTPCode res) (SMTPResponse res))
      as [[Hc Ec] | [[Hc Ec] | [[Hc Ec] | [[Hc Ec] | [(Hc & _ & _ & _ & Ec)
          | (_ & _ & _ & _ & _ & _ & _ & Ec)]]]]];
      rewrite Ec in Hcl; injection Hcl as Hs Hr Hcf.
    + left. auto.
    + right. left. auto.
    + destruct Hst as [Hst | Hst]; rewrite Hst in Hs; discriminate.
    + destruct Hst as [Hst | Hst]; rewrite Hst in Hs; discriminate.
    + right. right. left. auto.
    + destruct Hst as [Hst | Hst]; rewrite Hst in Hs; discriminate.
  - rewrite createResult_run. unfold mret, M_ret. intros H. injection H as <- _ _. cbn.
    repeat split; try reflexivity; [|left; reflexivity].
    unfold smtp_row. right. right. right. cbn. auto.
Qed.

End Verdicts.

(** ** Stages that open no SMTP session *)

Lemma keeps_sessions_mret {A} (a : A) : keeps_sessions (mret a).
Proof. intros w. reflexivity. Qed.

Lemma keeps_sessions_mbind {A B} (m : M A) (k : A -> M B) :
  keeps_sessions m -> (forall a, keeps_sessions (k a)) -> keeps_sessions (m ≫= k).
Proof.
  intros Hm Hk w. unfold mbind, M_bind.
  specialize (Hm w). destruct (m w) as [a w1]. cbn [snd] in Hm.
  rewrite (Hk a w1). exact Hm.
Qed.

Lemma keeps_sessions_run {A} (m : M A) w a w' :
  keeps_sessions m -> m w = (a, w') -> sessions w' = sessions w.
Proof. intros H E. specialize (H w). rewrite E in H. exact H. Qed.

Section SessionFrame.

Context {U : Unicode}.
Variable cfg : Config.
Variable env : Env.

Lemma keeps_sessions_time_Now : keeps_sessions (time_Now env).
Proof. intros w. reflexivity. Qed.

Lemma keeps_sessions_redis_Get {V} (space : World -> gmap string V) key :
  keeps_sessions (redis_Get env space key).
Proof. intros w. reflexivity. Qed.

Lemma keeps_sessions_redis_Set (write : World -> World) :
  (forall w, sessions (write w) = sessions w) -> keeps_sessions (redis_Set env write).
Proof.
  intros H w. unfold redis_Set, mbind, M_bind, interact.
  destruct (redis_ok env (tick w)); cbn; [rewrite H|]; reflexivity.
Qed.

Lemma keeps_sessions_createResult email emailHash domain status reason confidence
    smtpCode smtpResponse mxHost mxRecords startTime :
  keeps_sessions (createResult env email emailHash domain status reason confidence
                    smtpCode smtpResponse mxHost mxRecords startTime).
Proof. intros w. reflexivity. Qed.

Lemma keeps_sessions_getMXRecords domain : keeps_sessions (getMXRecords env domain).
Proof.
  unfold getMXRecords.
  apply keeps_sessions_mbind; [apply keeps_sessions_redis_Get|]. intros cached.
  assert (Hlookup : keeps_sessions
            ('(mxs, err) ← LookupMX env domain;
             match err with
             | Some e => mret ([], Some e)
             | None =>
                 let records :=
                   map (fun mx => {| Exchange := TrimSuffix (Host mx) "."; Priority := Pref mx |}) mxs in
                 let records := sortMXRecords records in
                 cacheMXRecords env domain records;; mret (records, None)
             end)).
  { apply keeps_sessions_mbind; [intros w; reflexivity|]. intros [mxs [e|]].
    - apply keeps_sessions_mret.
    - apply keeps_sessions_mbind; [|intros; apply keeps_sessions_mret].
      apply keeps_sessions_redis_Set. reflexivity. }
  destruct cached as [[|r rs]|]; [exact Hlookup | apply keeps_sessions_mret | exact Hlookup].
Qed.

Lemma keeps_sessions_waitForRateLimit domain mxHost :
  keeps_sessions (waitForRateLimit cfg env domain mxHost).
Proof.
  unfold waitForRateLimit.
  apply keeps_sessions_mbind; [apply keeps_sessions_redis_Get|]. intros lastCheck.
  apply keeps_sessions_mbind.
  - destruct lastCheck; [|apply keeps_sessions_mret].
    apply keeps_sessions_mbind; [apply keeps_sessions_time_Now|]. intros now.
    destruct (_ <? _); [intros w; reflexivity | apply keeps_sessions_mret].
  - intros [e|]; [apply keeps_sessions_mret|].
    apply keeps_sessions_mbind; [apply keeps_sessions_time_Now|]. intros now.
    apply keeps_sessions_mbind; [|intros; apply keeps_sessions_mret].
    apply keeps_sessions_redis_Set. reflexivity.
Qed.

End SessionFrame.

(** ** A verification that misses the Result Cache *)

Ltac conjs := repeat match goal with |- _ /\ _ => split end; try assumption; try reflexivity.

Section FreshRun.

Context {U : Unicode}.
Variable cfg : Config.
Variable env : Env.

(** Every way [Verify] can end after a miss of the Result Cache (no
    verdict under the fingerprint, or Redis out of reach), with what it
    leaves in the cache and in the log of SMTP sessions. *)
Lemma Verify_fresh_run raw w r w' :
  redis_ok env (S (tick w)) = false \/ results w !! result_key raw = None ->
  Verify cfg env raw w = (r, w') ->
  Email r = normalize raw /\ EmailHash r = hashEmail (normalize raw) /\ IsDisposable r = false
  /\ ((isValidEmailSyntax (normalize raw) = false /\ Domain r = ""
       /\ verdict_is r StatusInvalid "syntax_error" 1.0%Q
       /\ results w' = results w /\ sessions w' = sessions w)
      \/ (isValidEmailSyntax (normalize raw) = true /\ Domain r = domain_of (normalize raw)
          /\ ((verdict_is r StatusInvalid "no_mx_records" 0.95%Q
               /\ results w' = results w /\ sessions w' = sessions w)
              \/ (verdict_is r StatusRisky "disposable_domain" 0.9%Q
                  /\ results w' = results w /\ sessions w' = sessions w)
              \/ (exists e, verdict_is r StatusUnknown ("smtp_error: " +:+ Error e) 0.2%Q
                            /\ results w' = results w)
              \/ (smtp_row r
                  /\ (results w' = <[result_key raw := r]> (results w)
                      \/ (results w' = results w /\ exists n, redis_ok env n = false)))))).
Proof.
  unfold result_key, normalize, domain_of. intros Hmiss. unfold Verify, mbind, M_bind.
  rewrite time_Now_run, getCachedResult_run. cbn [tick set_tick results].
  replace (if redis_ok env (S (tick w))
           then results w !! ("validation:result:" +:+ hashEmail (ToLower (TrimSpace raw)))
           else None)
    with (None : option ValidationResult)
    by (destruct Hmiss as [-> | ->]; [|destruct (redis_ok env (S (tick w)))]; reflexivity).
  assert (Hcreate : forall domain status reason confidence mxRecords wa,
             results wa = results w -> 
             createResult env (ToLower (TrimSpace raw)) (hashEmail (ToLower (TrimSpace raw)))
               domain status reason confidence 0 "" "" mxRecords (clock env (tick w)) wa
             = (r, w') ->
             Email r = ToLower (TrimSpace raw)
             /\ EmailHash r = hashEmail (ToLower (TrimSpace raw))
             /\ IsDisposable r = false /\ Domain r = domain
             /\ verdict_is r status reason confidence
             /\ results w' = results w /\ sessions w' = sessions wa).
  { intros ? ? ? ? ? wa Hwa H. rewrite createResult_run in H. injection H as <- <-.
    unfold verdict_is. cbn. repeat split; try reflexivity. exact Hwa. }
  destruct (isValidEmailSyntax (ToLower (TrimSpace raw))) eqn:Hsyn; cbn [negb]; cbv beta iota.
  2:{ intros H. apply Hcreate in H as (He & Hh & Hdis & Hd & Hv & Hr & Hs); [|reflexivity]. cbn in Hs.
      conjs. left. conjs. }
  destruct (isValidEmailSyntax_Split _ Hsyn) as (local & domain & ->). cbv beta iota.
  destruct (getMXRecords env domain _) as [[mxRecords err] w2] eqn:E2.
  pose proof (keeps_results_run _ _ _ _ (keeps_results_getMXRecords env _) E2) as K2.
  pose proof (keeps_sessions_run _ _ _ _ (keeps_sessions_getMXRecords env _) E2) as S2.
  cbn in K2, S2.
  destruct (bool_decide (err ≠ None) || (Z.of_nat (length mxRecords) =? 0)).
  { intros H. apply Hcreate in H as (He & Hh & Hdis & Hd & Hv & Hr & Hs); [|exact K2]. cbn in Hs.
    conjs. right. conjs.
    left. conjs. congruence. }
  destruct (getDomainMetadata env domain w2) as [meta w3] eqn:E3.
  pose proof (keeps_results_run _ _ _ _ (keeps_results_getDomainMetadata env _) E3) as K3.
  pose proof (keeps_sessions_run _ _ _ _ (keeps_sessions_redis_Get env _ _) E3) as S3.
  destruct (match meta with Some m => MetaIsDisposable m | None => false end).
  { intros H. apply Hcreate in H as (He & Hh & Hdis & Hd & Hv & Hr & Hs); [|congruence]. cbn in Hs.
    conjs. right. conjs.
    right. left. conjs. congruence. }
  destruct (performSMTPVerification cfg env _ domain mxRecords w3) as [[result perr] w4] eqn:E4.
  pose proof (keeps_results_run _ _ _ _ (keeps_results_performSMTPVerification cfg env _ _ _) E4) as K4.
  destruct perr as [e|].
  { intros H. apply Hcreate in H as (He & Hh & Hdis & Hd & Hv & Hr & Hs); [|congruence]. cbn in Hs.
    conjs. right. conjs.
    right. right. left. exists e. split; assumption. }
  apply performSMTPVerification_result in E4 as (He & Hh & Hd & Hdis & Hrow & _).
  pose proof (results_cacheResult env (hashEmail (ToLower (TrimSpace raw))) result w4) as Hc.
  destruct (cacheResult env _ result w4) as [[] w5]. cbn [snd] in Hc.
  unfold mret, M_ret. intros H. injection H as <- <-.
  conjs. right. conjs.
  right. right. right. split; [exact Hrow|].
  destruct (redis_ok env (tick w4)) eqn:Eok.
  - left. rewrite Hc. congruence.
  - right. split; [congruence | eauto].
Qed.

End FreshRun.


(** X2. After a miss of the Result Cache the verdict of [Verify] is one of
    eight: invalid/syntax_error/1.0, invalid/no_mx_records/0.95,
    risky/disposable_domain/0.9, unknown/"smtp_error: <error>"/0.2,
    unknown/all_mx_failed/0.2, valid/mailbox_exists/0.98 (code 250 or 251),
    invalid/mailbox_not_found/0.95 (code 550, 551 or 553) and
    invalid/smtp_error_<code>/0.7 (any other code from 500 on); the
    catch-all flag is false in all of them. *)
Theorem Verify_fresh_verdicts (U : Unicode) (cfg : Config) (env : Env) (raw : string)
    (w : World) :
  results w !! result_key raw = None ->
  verdict_is (fst (Verify cfg env raw w)) StatusInvalid "syntax_error" 1.0%Q
  \/ verdict_is (fst (Verify cfg env raw w)) StatusInvalid "no_mx_records" 0.95%Q
  \/ verdict_is (fst (Verify cfg env raw w)) StatusRisky "disposable_domain" 0.9%Q
  \/ (exists e, verdict_is (fst (Verify cfg env raw w)) StatusUnknown
                  ("smtp_error: " +:+ Error e) 0.2%Q)
  \/ smtp_row (fst (Verify cfg env raw w)).
Proof.
  intros Hmiss. destruct (Verify cfg env raw w) as [r w'] eqn:E. cbn [fst].
  destruct (Verify_fresh_run cfg env raw w r w' (or_intror Hmiss) E) as (_ & _ & _ & Hcase).
  destruct Hcase as [(_ & _ & Hv & _) | (_ & _ & [(Hv & _) | [(Hv & _) | [(e & Hv & _) | (Hv & _)]]])].
  - left. exact Hv.
  - right. left. exact Hv.
  - right. right. left. exact Hv.
  - right. right. right. left. exists e. exact Hv.
  - right. right. right. right. exact Hv.
Qed.

Lemma Verify_fresh_verdicts_witness :
  verdict_is (fst (Verify (U:=ascii_runtime) DefaultConfig reject_all_env "user@example.com"
                     empty_world)) StatusInvalid "syntax_error" 1.0%Q
  \/ verdict_is (fst (Verify (U:=ascii_runtime) DefaultConfig reject_all_env "user@example.com"
                     empty_world)) StatusInvalid "no_mx_records" 0.95%Q
  \/ verdict_is (fst (Verify (U:=ascii_runtime) DefaultConfig reject_all_env "user@example.com"
                     empty_world)) StatusRisky "disposable_domain" 0.9%Q
  \/ (exists e, verdict_is (fst (Verify (U:=ascii_runtime) DefaultConfig reject_all_env
                                   "user@example.com" empty_world)) StatusUnknown
                  ("smtp_error: " +:+ Error e) 0.2%Q)
  \/ smtp_row (fst (Verify (U:=ascii_runtime) DefaultConfig reject_all_env "user@example.com"
                      empty_world)).
Proof.
  apply (Verify_fresh_verdicts ascii_runtime DefaultConfig reject_all_env "user@example.com"
           empty_world).
  reflexivity.
Defined.

(** X3. After a miss of the Result Cache [Verify] never reports the status
    catch-all, nor any of the reasons catch_all_domain, temporary_failure,
    rate_limited, unknown_response and invalid_format, although the code
    can produce each of them on the way. *)
Theorem Verify_fresh_never (U : Unicode) (cfg : Config) (env : Env) (raw : string)
    (w : World) :
  results w !! result_key raw = None ->
  Status (fst (Verify cfg env raw w)) <> StatusCatchAll
  /\ Reason (fst (Verify cfg env raw w)) <> "catch_all_domain"
  /\ Reason (fst (Verify cfg env raw w)) <> "temporary_failure"
  /\ Reason (fst (Verify cfg env raw w)) <> "rate_limited"
  /\ Reason (fst (Verify cfg env raw w)) <> "unknown_response"
  /\ Reason (fst (Verify cfg env raw w)) <> "invalid_format".
Proof.
  intros Hmiss. destruct (Verify cfg env raw w) as [r w'] eqn:E. cbn [fst].
  destruct (Verify_fresh_run cfg env raw w r w' (or_intror Hmiss) E) as (_ & _ & _ & Hcase).
  assert (Hv : forall status reason confidence,
             verdict_is r status reason confidence ->
             status <> StatusCatchAll ->
             reason <> "catch_all_domain" -> reason <> "temporary_failure" ->
             reason <> "rate_limited" -> reason <> "unknown_response" ->
             reason <> "invalid_format" ->
             Status r <> StatusCatchAll
             /\ Reason r <> "catch_all_domain" /\ Reason r <> "temporary_failure"
             /\ Reason r <> "rate_limited" /\ Reason r <> "unknown_response"
             /\ Reason r <> "invalid_format").
  { intros status reason confidence (-> & -> & _) ? ? ? ? ? ?. auto 10. }
  destruct Hcase as [(_ & _ & H & _) | (_ & _ & [(H & _) | [(H & _) | [(e & H & _) | (H & _)]]])].
  - apply (Hv _ _ _ H); discriminate.
  - apply (Hv _ _ _ H); discriminate.
  - apply (Hv _ _ _ H); discriminate.
  - apply (Hv _ _ _ H); discriminate.
  - destruct H as [(Hs & Hr & _) | [(Hs & Hr & _) | [(Hs & Hr & _) | (Hs & Hr & _)]]];
      rewrite Hs, Hr; repeat split; discriminate.
Qed.

Lemma Verify_fresh_never_witness :
  Status (fst (Verify (U:=ascii_runtime) DefaultConfig accept_all_env "anything@catchall.test"
                 known_catchall_world)) <> StatusCatchAll
  /\ Reason (fst (Verify (U:=ascii_runtime) DefaultConfig accept_all_env
                    "anything@catchall.test" known_catchall_world)) <> "catch_all_domain"
  /\ Reason (fst (Verify (U:=ascii_runtime) DefaultConfig accept_all_env
                    "anything@catchall.test" known_catchall_world)) <> "temporary_failure"
  /\ Reason (fst (Verify (U:=ascii_runtime) DefaultConfig accept_all_env
                    "anything@catchall.test" known_catchall_world)) <> "rate_limited"
  /\ Reason (fst (Verify (U:=ascii_runtime) DefaultConfig accept_all_env
                    "anything@catchall.test" known_catchall_world)) <> "unknown_response"
  /\ Reason (fst (Verify (U:=ascii_runtime) DefaultConfig accept_all_env
                    "anything@catchall.test" known_catchall_world)) <> "invalid_format".
Proof.
  apply (Verify_fresh_never ascii_runtime DefaultConfig accept_all_env "anything@catchall.test"
           known_catchall_world).
  reflexivity.
Defined.

(** X4. After a miss of the Result Cache the verdict carries the normalized
    address, its fingerprint and, when the address passes the syntax
    filter, the part after its [@] as domain (the empty string otherwise);
    its disposable flag is false, also in a disposable_domain verdict. *)
Theorem Verify_fresh_identity (U : Unicode) (cfg : Config) (env : Env) (raw : string)
    (w : World) :
  results w !! result_key raw = None ->
  Email (fst (Verify cfg env raw w)) = normalize raw
  /\ EmailHash (fst (Verify cfg env raw w)) = hashEmail (normalize raw)
  /\ Domain (fst (Verify cfg env raw w))
     = (if isValidEmailSyntax (normalize raw) then domain_of (normalize raw) else "")
  /\ IsDisposable (fst (Verify cfg env raw w)) = false.
Proof.
  intros Hmiss. destruct (Verify cfg env raw w) as [r w'] eqn:E. cbn [fst].
  destruct (Verify_fresh_run cfg env raw w r w' (or_intror Hmiss) E) as (He & Hh & Hdis & Hcase).
  repeat split; try assumption.
  destruct Hcase as [(Hsyn & Hd & _) | (Hsyn & Hd & _)]; rewrite Hsyn; exact Hd.
Qed.

Lemma Verify_fresh_identity_witness :
  Email (fst (Verify (U:=ascii_runtime) DefaultConfig reject_all_env "  User@Example.COM "
                empty_world)) = normalize (U:=ascii_runtime) "  User@Example.COM "
  /\ EmailHash (fst (Verify (U:=ascii_runtime) DefaultConfig reject_all_env
                       "  User@Example.COM " empty_world))
     = hashEmail (U:=ascii_runtime) (normalize (U:=ascii_runtime) "  User@Example.COM ")
  /\ Domain (fst (Verify (U:=ascii_runtime) DefaultConfig reject_all_env "  User@Example.COM "
                    empty_world))
     = (if isValidEmailSyntax (normalize (U:=ascii_runtime) "  User@Example.COM ")
        then domain_of (normalize (U:=ascii_runtime) "  User@Example.COM ") else "")
  /\ IsDisposable (fst (Verify (U:=ascii_runtime) DefaultConfig reject_all_env
                          "  User@Example.COM " empty_world)) = false.
Proof.
  apply (Verify_fresh_identity ascii_runtime DefaultConfig reject_all_env "  User@Example.COM "
           empty_world).
  reflexivity.
Defined.

(** X5. With Redis reachable, a verification that misses the Result Cache
    stores its verdict under the fingerprint of the address exactly when
    the SMTP stage ended without an error (valid, invalid from the MX, or
    unknown/all_mx_failed), and changes nothing else in the Result Cache;
    verdicts of syntax_error, no_mx_records, disposable_domain and
    "smtp_error: ..." are not stored. *)
Theorem Verify_cache_write (U : Unicode) (cfg : Config) (env : Env) (raw : string)
    (w : World) :
  (forall n, redis_ok env n = true) ->
  results w !! result_key raw = None ->
  (smtp_row (fst (Verify cfg env raw w))
   /\ results (snd (Verify cfg env raw w))
      = <[result_key raw := fst (Verify cfg env raw w)]> (results w))
  \/ (~ smtp_row (fst (Verify cfg env raw w))
      /\ results (snd (Verify cfg env raw w)) = results w).
Proof.
  intros Hredis Hmiss. destruct (Verify cfg env raw w) as [r w'] eqn:E. cbn [fst snd].
  destruct (Verify_fresh_run cfg env raw w r w' (or_intror Hmiss) E) as (_ & _ & _ & Hcase).
  assert (Hearly : forall status reason confidence,
             verdict_is r status reason confidence ->
             reason <> "mailbox_exists" -> reason <> "mailbox_not_found" ->
             reason <> "all_mx_failed" -> status <> StatusInvalid \/ reason <> "smtp_error_" +:+ itoa (SMTPCode r) ->
             ~ smtp_row r).
  { intros status reason confidence (Hs & Hr & _) H1 H2 H3 H4 Hrow.
    destruct Hrow as [(_ & Hr' & _) | [(_ & Hr' & _) | [(Hs' & Hr' & _) | (_ & Hr' & _)]]];
      try congruence.
    destruct H4 as [H4 | H4]; congruence. }
  destruct Hcase as [(_ & _ & H & Hr & _)
                    | (_ & _ & [(H & Hr & _) | [(H & Hr & _) | [(e & H & Hr) | (H & Hr)]]])].
  - right. split; [|exact Hr]. apply (Hearly _ _ _ H); try discriminate. right. discriminate.
  - right. split; [|exact Hr]. apply (Hearly _ _ _ H); try discriminate. right. discriminate.
  - right. split; [|exact Hr]. apply (Hearly _ _ _ H); try discriminate. left. discriminate.
  - right. split; [|exact Hr]. apply (Hearly _ _ _ H); try discriminate. left. discriminate.
  - left. split; [exact H|]. destruct Hr as [Hr | (_ & n & Hn)]; [exact Hr|].
    rewrite Hredis in Hn. discriminate.
Qed.

Lemma Verify_cache_write_witness :
  (smtp_row (fst (Verify (U:=ascii_runtime) DefaultConfig reject_all_env "user@example.com"
                    empty_world))
   /\ results (snd (Verify (U:=ascii_runtime) DefaultConfig reject_all_env "user@example.com"
                      empty_world))
      = <[result_key (U:=ascii_runtime) "user@example.com" :=
            fst (Verify (U:=ascii_runtime) DefaultConfig reject_all_env "user@example.com"
                   empty_world)]> (results empty_world))
  \/ (~ smtp_row (fst (Verify (U:=ascii_runtime) DefaultConfig reject_all_env
                         "user@example.com" empty_world))
      /\ results (snd (Verify (U:=ascii_runtime) DefaultConfig reject_all_env
                         "user@example.com" empty_world)) = results empty_world).
Proof.
  apply (Verify_cache_write ascii_runtime DefaultConfig reject_all_env "user@example.com"
           empty_world).
  - intros n. reflexivity.
  - reflexivity.
Defined.

(** ** The classifier on every code *)

(** X6. On every code, the classifier answers valid exactly on 250 and
    251, invalid exactly from 500 on, and unknown on every other code; it
    never answers risky or catch-all, and it does not look at the text of
    the response. *)
Theorem classifySMTPResponse_status_by_code (code : Z) (response : string) :
  (fst (fst (classifySMTPResponse code response)) = StatusValid <-> code = 250 \/ code = 251)
  /\ (fst (fst (classifySMTPResponse code response)) = StatusInvalid <-> 500 <= code)
  /\ (fst (fst (classifySMTPResponse code response)) = StatusUnknown
      <-> code < 500 /\ code <> 250 /\ code <> 251)
  /\ (forall response', classifySMTPResponse code response' = classifySMTPResponse code response).
Proof.
  split; [|split; [|split]].
  - destruct (classifySMTPResponse_cases code response)
      as [(Hc & ->) | [(Hc & ->) | [(Hc & ->) | [(Hc & ->) | [(Hc & ? & ? & ? & ->) | (Hc & ? & ? & ? & ? & ? & ? & ->)]]]]];
      cbn [fst]; split; intros Hx; try discriminate Hx; try reflexivity; try lia.
  - destruct (classifySMTPResponse_cases code response)
      as [(Hc & ->) | [(Hc & ->) | [(Hc & ->) | [(Hc & ->) | [(Hc & ? & ? & ? & ->) | (Hc & ? & ? & ? & ? & ? & ? & ->)]]]]];
      cbn [fst]; split; intros Hx; try discriminate Hx; try reflexivity; try lia.
  - destruct (classifySMTPResponse_cases code response)
      as [(Hc & ->) | [(Hc & ->) | [(Hc & ->) | [(Hc & ->) | [(Hc & ? & ? & ? & ->) | (Hc & ? & ? & ? & ? & ? & ? & ->)]]]]];
      cbn [fst]; split; intros Hx; try discriminate Hx; try reflexivity; try lia.
  - intros response'. reflexivity.
Qed.

(** ** Errors of the handshake *)

Lemma parseSMTPError_prefixed (c : ascii) (rest : string) (e : error) :
  is_ascii_byte c = true ->
  is_digit c = false -> is_space c = false -> Ascii.eqb c "+" = false ->
  Ascii.eqb c "-" = false ->
  Error e = String c rest -> fst (parseSMTPError e) = 0.
Proof.
  intros Ha Hd Hs Hp Hm He. unfold parseSMTPError. rewrite He.
  destruct (3 <=? Z.of_nat (String.length (String c rest))); [|reflexivity].
  assert (Hscan : Sscanf_d (String c rest) = None).
  { unfold Sscanf_d. cbn [skip_blanks]. rewrite Hs, Ha.
    destruct (Ascii.eqb c "010"); [reflexivity|].
    rewrite Hp, Hm. cbn [scan_digits]. rewrite Hd. reflexivity. }
  rewrite Hscan. reflexivity.
Qed.

(** X7. Whenever the handshake returns an error, its code is 0 and its
    response empty, and the text of the error starts with the name of the
    stage that failed, in which [parseSMTPError] finds no code: such an
    error is retried on a context error or on one of the three texts
    only, never on account of a 4xx code. *)
Theorem handshake_error_retryable (s : Session) (code : Z) (response : string) (e : error) :
  handshake_returns s = (code, response, Some e) ->
  code = 0 /\ response = ""
  /\ fst (parseSMTPError e) = 0
  /\ isRetryableError (Some e)
     = (Is_DeadlineExceeded e || Is_Canceled e
        || Contains (Error e) "timeout"
        || Contains (Error e) "connection refused"
        || Contains (Error e) "temporary failure").
Proof.
  intros H.
  assert (Hparse : code = 0 /\ response = "" /\ fst (parseSMTPError e) = 0).
  { destruct s as [e0 | e0 | e0 | e0 | [e0|]]; cbn [handshake_returns] in H.
    - injection H as <- <- <-. repeat split.
      eapply parseSMTPError_prefixed; [| | | | |reflexivity]; reflexivity.
    - injection H as <- <- <-. repeat split.
      eapply parseSMTPError_prefixed; [| | | | |reflexivity]; reflexivity.
    - injection H as <- <- <-. repeat split.
      eapply parseSMTPError_prefixed; [| | | | |reflexivity]; reflexivity.
    - injection H as <- <- <-. repeat split.
      eapply parseSMTPError_prefixed; [| | | | |reflexivity]; reflexivity.
    - destruct (parseSMTPError e0). discriminate H.
    - discriminate H. }
  destruct Hparse as (Hc & Hr & Hp). repeat split; try assumption.
  unfold isRetryableError. rewrite Hp.
  destruct (Is_DeadlineExceeded e || Is_Canceled e
            || Contains (Error e) "timeout"
            || Contains (Error e) "connection refused"
            || Contains (Error e) "temporary failure"); reflexivity.
Qed.

Lemma handshake_error_retryable_witness :
  0 = 0 /\ "" = ""
  /\ fst (parseSMTPError (Wrapped "connection failed" (ErrorString "dial tcp: i/o timeout"))) = 0
  /\ isRetryableError (Some (Wrapped "connection failed" (ErrorString "dial tcp: i/o timeout")))
     = (Is_DeadlineExceeded (Wrapped "connection failed" (ErrorString "dial tcp: i/o timeout"))
        || Is_Canceled (Wrapped "connection failed" (ErrorString "dial tcp: i/o timeout"))
        || Contains (Error (Wrapped "connection failed" (ErrorString "dial tcp: i/o timeout")))
             "timeout"
        || Contains (Error (Wrapped "connection failed" (ErrorString "dial tcp: i/o timeout")))
             "connection refused"
        || Contains (Error (Wrapped "connection failed" (ErrorString "dial tcp: i/o timeout")))
             "temporary failure").
Proof.
  apply (handshake_error_retryable (DialFails (ErrorString "dial tcp: i/o timeout")) 0 ""
           (Wrapped "connection failed" (ErrorString "dial tcp: i/o timeout"))).
  reflexivity.
Defined.

(** ** The reply code of a refusal *)

Lemma smtpHandshake_run (env : Env) (email mxHost : string) (w : World) :
  smtpHandshake env email mxHost w
  = (handshake_returns (smtp env mxHost email (tick w)),
     log_session (mxHost, email) (set_tick (S (tick w)) w)).
Proof. reflexivity. Qed.

(** The numbers from 100 to 599 are printed with three digits. *)
Lemma itoa_reply_codes :
  forallb
    (fun k =>
       match itoa (Z.of_nat k) with
       | String a (String b (String c EmptyString)) =>
           is_digit a && is_digit b && is_digit c
           && (100 * (byte_code a - 48) + 10 * (byte_code b - 48) + (byte_code c - 48)
               =? Z.of_nat k)
       | _ => false
       end)
    (seq 100 500) = true.
Proof. vm_compute. reflexivity. Qed.

Lemma itoa_three_digits (n : Z) :
  100 <= n < 600 ->
  exists a b c,
    itoa n = String a (String b (String c EmptyString))
    /\ is_digit a = true /\ is_digit b = true /\ is_digit c = true
    /\ 100 * (byte_code a - 48) + 10 * (byte_code b - 48) + (byte_code c - 48) = n.
Proof.
  intros Hn. pose proof itoa_reply_codes as H. rewrite forallb_forall in H.
  specialize (H (Z.to_nat n)). rewrite Z2Nat.id in H by lia.
  assert (Hin : In (Z.to_nat n) (seq 100 500)) by (apply in_seq; lia).
  specialize (H Hin).
  destruct (itoa n) as [|a [|b [|c [|d rest]]]]; try discriminate H.
  apply andb_true_iff in H as (H & Hv). apply andb_true_iff in H as (H & Hc).
  apply andb_true_iff in H as (Ha & Hb). apply Z.eqb_eq in Hv.
  exists a, b, c. repeat split; assumption.
Qed.

Lemma Sscanf_d_digit (a : ascii) (s : string) :
  is_digit a = true ->
  Sscanf_d (String a s) = scan_digits (String a s) 0 false ≫= ParseInt64 false.
Proof.
  intros H.
  destruct a as [[] [] [] [] [] [] [] []]; try (vm_compute in H; discriminate H);
    reflexivity.
Qed.

(** X8. The handshake returns the reply code of a refusal: when the MX
    refuses RCPT TO with a reply of code [n], from 100 to 599, and message
    [msg], which package textproto prints as the code, a space and the
    message, [smtpHandshake] returns [n] as code, the printed reply as
    response, and no error. *)
Theorem smtpHandshake_reply_code (env : Env) (email mxHost : string) (w : World) (e : error)
    (n : Z) (msg : string) :
  100 <= n < 600 ->
  smtp env mxHost email (tick w) = RcptReplies (Some e) ->
  Error e = itoa n +:+ " " +:+ msg ->
  fst (smtpHandshake env email mxHost w) = (n, itoa n +:+ " " +:+ msg, None).
Proof.
  intros Hn Hsmtp He. rewrite smtpHandshake_run. cbn [fst]. rewrite Hsmtp.
  cbn [handshake_returns].
  assert (Hparse : parseSMTPError e = (n, itoa n +:+ " " +:+ msg)).
  { unfold parseSMTPError. rewrite He.
    destruct (itoa_three_digits n Hn) as (a & b & c & -> & Ha & Hb & Hc & Hv).
    change (String a (String b (String c EmptyString)) +:+ " " +:+ msg)
      with (String a (String b (String c (String " " msg)))).
    assert (Hlen : (3 <=? Z.of_nat (String.length
                                      (String a (String b (String c (String " " msg))))))
                   = true).
    { apply Z.leb_le. cbn [String.length]. lia. }
    rewrite Hlen, (Sscanf_d_digit a _ Ha). cbn [scan_digits]. rewrite Ha, Hb, Hc.
    change (is_digit " ") with false. cbv beta iota.
    replace (10 * (10 * (10 * 0 + (byte_code a - 48)) + (byte_code b - 48))
             + (byte_code c - 48)) with n by lia.
    assert (Hfit : ParseInt64 false n = Some n).
    { unfold ParseInt64.
      rewrite (proj2 (Z.leb_le (- 2 ^ 63) n)), (proj2 (Z.ltb_lt n (2 ^ 63))) by lia.
      reflexivity. }
    cbn [mbind option_bind]. rewrite Hfit.
    rewrite (proj2 (Z.leb_le 100 n)), (proj2 (Z.ltb_lt n 600)) by lia. reflexivity. }
  rewrite Hparse. reflexivity.
Qed.

Lemma smtpHandshake_reply_code_witness :
  fst (smtpHandshake reject_all_env "user@example.com" "mx.example.com" empty_world)
  = (550, itoa 550 +:+ " " +:+ "5.1.1 User unknown", None).
Proof.
  apply (smtpHandshake_reply_code reject_all_env "user@example.com" "mx.example.com"
           empty_world (ErrorString "550 5.1.1 User unknown") 550 "5.1.1 User unknown").
  - lia.
  - reflexivity.
  - reflexivity.
Defined.

(** ** Sorting a list that is sorted *)

(** X9. [sortMXRecords] leaves a list that is already in ascending order
    of priority as it is, records of equal priority included. *)
Theorem sortMXRecords_sorted_fixed (records : list MXRecord) :
  StronglySorted by_priority records -> sortMXRecords records = records.
Proof.
  intros Hs. unfold sortMXRecords.
  generalize (length records - 1)%nat as n. intros n. generalize 0%nat as i.
  induction n as [|n IH]; intros i; [reflexivity|].
  cbn [sort_outer]. rewrite sort_inner_sorted by (assumption || lia). apply IH.
Qed.

Lemma sortMXRecords_sorted_fixed_witness :
  sortMXRecords [mkMXRecord "a.example.com" 10; mkMXRecord "b.example.com" 10;
                 mkMXRecord "c.example.com" 20]
  = [mkMXRecord "a.example.com" 10; mkMXRecord "b.example.com" 10;
     mkMXRecord "c.example.com" 20].
Proof.
  apply (sortMXRecords_sorted_fixed
           [mkMXRecord "a.example.com" 10; mkMXRecord "b.example.com" 10;
            mkMXRecord "c.example.com" 20]).
  repeat (constructor; [|repeat (constructor; [unfold by_priority; cbn; lia|]); constructor]).
  constructor.
Defined.


(** ** The fingerprint *)

Lemma round_length (st : list Z) (kw : Z * Z) :
  length st = 8%nat -> length (SHA256.round st kw) = 8%nat.
Proof.
  intros H.
  destruct st as [|a [|b [|c [|d [|e [|f [|g [|h [|i st]]]]]]]]]; try discriminate H.
  reflexivity.
Qed.

Lemma fold_round_length (kws : list (Z * Z)) :
  forall st, length st = 8%nat -> length (fold_left SHA256.round kws st) = 8%nat.
Proof.
  induction kws as [|kw kws IH]; intros st H; [exact H|].
  cbn [fold_left]. apply IH, round_length, H.
Qed.

Lemma compress_length (st block : list Z) :
  length st = 8%nat -> length (SHA256.compress st block) = 8%nat.
Proof.
  intros H. unfold SHA256.compress.
  rewrite List.length_map, List.length_combine, fold_round_length by exact H.
  rewrite H. reflexivity.
Qed.

Lemma blocks_length (fuel : nat) :
  forall bs st, length st = 8%nat -> length (SHA256.blocks fuel bs st) = 8%nat.
Proof.
  induction fuel as [|fuel IH]; intros bs st H; [exact H|].
  cbn [SHA256.blocks]. destruct bs as [|b bs]; [exact H|].
  apply IH, compress_length, H.
Qed.

Lemma be_bytes_byte (n : nat) (x : Z) : Forall (fun b => 0 <= b < 256) (SHA256.be_bytes n x).
Proof.
  induction n as [|n IH]; cbn [SHA256.be_bytes]; constructor; [|exact IH].
  change 255 with (Z.ones 8). rewrite Z.land_ones by lia.
  apply Z.mod_pos_bound. reflexivity.
Qed.

Lemma sum_bytes (msg : list Z) :
  length (SHA256.sum msg) = 32%nat /\ Forall (fun b => 0 <= b < 256) (SHA256.sum msg).
Proof.
  unfold SHA256.sum.
  pose proof (blocks_length (length (SHA256.pad msg)) (SHA256.pad msg) SHA256.initial_state
                eq_refl) as H.
  destruct (SHA256.blocks _ _ _) as [|a [|b [|c [|d [|e [|f [|g [|h [|i st]]]]]]]]];
    try discriminate H.
  split; [reflexivity|].
  cbn [flat_map]. rewrite app_nil_r.
  repeat (apply Forall_app; split; [apply be_bytes_byte|]). apply be_bytes_byte.
Qed.

Lemma hex_digit_lower (n : Z) : 0 <= n < 16 -> is_hex_lower (hex_digit n) = true.
Proof.
  intros H. rewrite <- (Z2Nat.id n) by lia.
  assert (Hk : (Z.to_nat n < 16)%nat) by lia.
  revert Hk. generalize (Z.to_nat n). intros k Hk.
  do 16 (destruct k as [|k]; [reflexivity|]). lia.
Qed.

Lemma EncodeToString_hex (bs : list Z) :
  Forall (fun b => 0 <= b < 256) bs ->
  String.length (EncodeToString bs) = (2 * length bs)%nat
  /\ all_bytes is_hex_lower (EncodeToString bs) = true.
Proof.
  induction 1 as [|b bs Hb _ IH]; [split; reflexivity|].
  destruct IH as (Hlen & Hall). cbn [EncodeToString String.length all_bytes length].
  split; [rewrite Hlen; lia|].
  rewrite Hall, !hex_digit_lower; [reflexivity| |].
  - change 15 with (Z.ones 4). rewrite Z.land_ones by lia. apply Z.mod_pos_bound. reflexivity.
  - rewrite Z.shiftr_div_pow2 by lia. change (2 ^ 4) with 16.
    split; [apply Z.div_pos; lia | apply Z.div_lt_upper_bound; lia].
Qed.

(** X10. The fingerprint of any address is 64 digits of lower-case
    hexadecimal, so that every key of the Result Cache is 82 bytes long. *)
Theorem hashEmail_hex64 (U : Unicode) (email : string) :
  String.length (hashEmail email) = 64%nat
  /\ all_bytes is_hex_lower (hashEmail email) = true
  /\ String.length (result_key email) = 82%nat.
Proof.
  assert (H : forall s, String.length (hashEmail s) = 64%nat
                        /\ all_bytes is_hex_lower (hashEmail s) = true).
  { intros s. unfold hashEmail.
    destruct (sum_bytes (bytes_of_string (ToLower s))) as (Hlen & Hall).
    destruct (EncodeToString_hex _ Hall) as (Hl & Hh). rewrite Hlen in Hl.
    split; assumption. }
  destruct (H email) as (Hl & Hh). repeat split; try assumption.
  unfold result_key. destruct (H (normalize email)) as (Hl' & _).
  change (String.length ("validation:result:" +:+ hashEmail (normalize email)))
    with (18 + String.length (hashEmail (normalize email)))%nat.
  rewrite Hl'. reflexivity.
Qed.


(** ** The footprint of a verification in Redis *)

Lemma keeps_mret {A B} (f : World -> B) (a : A) : keeps f (mret a).
Proof. intros w. reflexivity. Qed.

Lemma keeps_mbind {A A' B} (f : World -> B) (m : M A) (k : A -> M A') :
  keeps f m -> (forall a, keeps f (k a)) -> keeps f (m ≫= k).
Proof.
  intros Hm Hk w. unfold mbind, M_bind.
  specialize (Hm w). destruct (m w) as [a w1]. cbn [snd] in Hm.
  rewrite (Hk a w1). exact Hm.
Qed.

Lemma keeps_get_world {B} (f : World -> B) : keeps f get_world.
Proof. intros w. reflexivity. Qed.

Lemma keeps_modify {B} (f : World -> B) (g : World -> World) :
  (forall w, f (g w) = f w) -> keeps f (modify_world g).
Proof. intros H w. apply H. Qed.

Create HintDb frame discriminated.

Ltac frame_step :=
  first
    [ apply keeps_mret
    | apply keeps_get_world
    | solve [eauto 2 with frame]
    | apply keeps_mbind; [|intros]
    | match goal with
      | |- keeps _ (match ?x with _ => _ end) => destruct x
      | |- keeps _ (let (_, _) := ?x in _) => destruct x
      end ].

Ltac frame := repeat frame_step.

Section Footprint.

Context {U : Unicode} {B : Type}.
Variable cfg : Config.
Variable env : Env.

(** The observation: it depends neither on the interaction counter nor on
    the logs, and the writes of a verification of [domain] with the
    fingerprint [emailHash] do not change it. *)
Variable f : World -> B.
Variable domain emailHash : string.
Hypothesis Htick : forall n w, f (set_tick n w) = f w.
Hypothesis Hsession : forall s w, f (log_session s w) = f w.
Hypothesis Htimer : forall d w, f (log_timer d w) = f w.
Hypothesis Hmx : forall records w, f (set_mx_cache (insert (mx_key domain) records) w) = f w.
Hypothesis Hflag :
  forall val w, f (set_catchall_flags (insert (catchall_key domain) val) w) = f w.
Hypothesis Hmark : forall t w, f (set_rate_marks (insert (rate_key domain) t) w) = f w.
Hypothesis Hresult :
  forall r w, f (set_results (insert ("validation:result:" +:+ emailHash) r) w) = f w.

Lemma keeps_interact : keeps f interact.
Proof. intros w. apply Htick. Qed.
#[local] Hint Resolve keeps_interact : frame.

Lemma keeps_log_session s : keeps f (modify_world (log_session s)).
Proof. apply keeps_modify, Hsession. Qed.
#[local] Hint Resolve keeps_log_session : frame.

Lemma keeps_log_timer d : keeps f (modify_world (log_timer d)).
Proof. apply keeps_modify, Htimer. Qed.
#[local] Hint Resolve keeps_log_timer : frame.

Lemma keeps_time_Now : keeps f (time_Now env).
Proof. unfold time_Now. frame. Qed.
#[local] Hint Resolve keeps_time_Now : frame.

Lemma keeps_redis_Get {V} (space : World -> gmap string V) key :
  keeps f (redis_Get env space key).
Proof. unfold redis_Get. frame. Qed.
#[local] Hint Resolve keeps_redis_Get : frame.

Lemma keeps_redis_Set (write : World -> World) :
  (forall w, f (write w) = f w) -> keeps f (redis_Set env write).
Proof.
  intros H. unfold redis_Set. apply keeps_mbind; [frame|].
  intros t. destruct (redis_ok env t); [|frame]. apply keeps_modify, H.
Qed.

Lemma keeps_LookupMX d : keeps f (LookupMX env d).
Proof. unfold LookupMX. frame. Qed.
#[local] Hint Resolve keeps_LookupMX : frame.

Lemma keeps_After_or_Done d : keeps f (After_or_Done env d).
Proof. unfold After_or_Done. frame. Qed.
#[local] Hint Resolve keeps_After_or_Done : frame.

Lemma keeps_Sleep d : keeps f (Sleep d).
Proof. unfold Sleep. frame. Qed.
#[local] Hint Resolve keeps_Sleep : frame.

Lemma keeps_open_session mxHost rcpt : keeps f (open_session env mxHost rcpt).
Proof. unfold open_session. frame. Qed.
#[local] Hint Resolve keeps_open_session : frame.

Lemma keeps_createResult email hash d status reason confidence
    smtpCode smtpResponse mxHost mxRecords startTime :
  keeps f (createResult env email hash d status reason confidence
             smtpCode smtpResponse mxHost mxRecords startTime).
Proof. unfold createResult. frame. Qed.
#[local] Hint Resolve keeps_createResult : frame.

Lemma keeps_getCachedResult hash : keeps f (getCachedResult env hash).
Proof. apply keeps_redis_Get. Qed.
#[local] Hint Resolve keeps_getCachedResult : frame.

Lemma keeps_cacheResult r : keeps f (cacheResult env emailHash r).
Proof. apply keeps_redis_Set. intros w. apply Hresult. Qed.
#[local] Hint Resolve keeps_cacheResult : frame.

Lemma keeps_getCachedMXRecords d : keeps f (getCachedMXRecords env d).
Proof. apply keeps_redis_Get. Qed.
#[local] Hint Resolve keeps_getCachedMXRecords : frame.

Lemma keeps_cacheMXRecords records : keeps f (cacheMXRecords env domain records).
Proof. apply keeps_redis_Set. intros w. apply Hmx. Qed.
#[local] Hint Resolve keeps_cacheMXRecords : frame.

Lemma keeps_getDomainMetadata d : keeps f (getDomainMetadata env d).
Proof. apply keeps_redis_Get. Qed.
#[local] Hint Resolve keeps_getDomainMetadata : frame.

Lemma keeps_getCachedCatchAllStatus d : keeps f (getCachedCatchAllStatus env d).
Proof. unfold getCachedCatchAllStatus. frame. Qed.
#[local] Hint Resolve keeps_getCachedCatchAllStatus : frame.

Lemma keeps_cacheCatchAllStatus b : keeps f (cacheCatchAllStatus env domain b).
Proof. apply keeps_redis_Set. intros w. apply Hflag. Qed.
#[local] Hint Resolve keeps_cacheCatchAllStatus : frame.

Lemma keeps_set_rate_mark t :
  keeps f (redis_Set env (set_rate_marks (insert ("ratelimit:domain:" +:+ domain +:+ ":last") t))).
Proof. apply keeps_redis_Set. intros w. apply Hmark. Qed.
#[local] Hint Resolve keeps_set_rate_mark : frame.

Lemma keeps_waitForRateLimit mxHost : keeps f (waitForRateLimit cfg env domain mxHost).
Proof. unfold waitForRateLimit. frame. Qed.
#[local] Hint Resolve keeps_waitForRateLimit : frame.

Lemma keeps_smtpHandshake email mxHost : keeps f (smtpHandshake env email mxHost).
Proof. unfold smtpHandshake. frame. Qed.
#[local] Hint Resolve keeps_smtpHandshake : frame.

Lemma keeps_probeEmails n i d : keeps f (probeEmails env n i d).
Proof. revert i. induction n as [|n IH]; intros i; cbn [probeEmails]; frame. Qed.
#[local] Hint Resolve keeps_probeEmails : frame.

Lemma keeps_countAccepted probes mxHost acc : keeps f (countAccepted env probes mxHost acc).
Proof.
  revert acc. induction probes as [|p probes IH]; intros acc; cbn [countAccepted]; frame.
Qed.
#[local] Hint Resolve keeps_countAccepted : frame.

Lemma keeps_detectCatchAll mx : keeps f (detectCatchAll cfg env domain mx).
Proof. unfold detectCatchAll. frame. Qed.
#[local] Hint Resolve keeps_detectCatchAll : frame.

Lemma keeps_getMXRecords : keeps f (getMXRecords env domain).
Proof. unfold getMXRecords. frame. Qed.
#[local] Hint Resolve keeps_getMXRecords : frame.

Lemma keeps_retryLoop n attempt email mxHost last :
  keeps f (retryLoop cfg env n attempt email mxHost last).
Proof.
  revert attempt last. induction n as [|n IH]; intros attempt last; cbn [retryLoop]; frame.
Qed.
#[local] Hint Resolve keeps_retryLoop : frame.

Lemma keeps_verifySMTPWithMX email mx startTime :
  keeps f (verifySMTPWithMX cfg env email domain mx startTime).
Proof. unfold verifySMTPWithMX. frame. Qed.
#[local] Hint Resolve keeps_verifySMTPWithMX : frame.

Lemma keeps_tryMXRecords mxRecords email startTime lastErr :
  keeps f (tryMXRecords cfg env mxRecords email domain startTime lastErr).
Proof.
  revert lastErr.
  induction mxRecords as [|mx rest IH]; intros lastErr; cbn [tryMXRecords]; frame.
Qed.
#[local] Hint Resolve keeps_tryMXRecords : frame.

Lemma keeps_performSMTPVerification email mxRecords :
  keeps f (performSMTPVerification cfg env email domain mxRecords).
Proof. unfold performSMTPVerification. frame. Qed.
#[local] Hint Resolve keeps_performSMTPVerification : frame.

Lemma keeps_Verify raw :
  domain_of (normalize raw) = domain -> hashEmail (normalize raw) = emailHash ->
  keeps f (Verify cfg env raw).
Proof.
  unfold domain_of, normalize. intros Hd Hh. unfold Verify. rewrite Hh.
  apply keeps_mbind; [frame|]. intros startTime.
  apply keeps_mbind; [frame|]. intros [cached|]; [frame|].
  destruct (isValidEmailSyntax (ToLower (TrimSpace raw))) eqn:Hsyn; cbn [negb]; [|frame].
  destruct (isValidEmailSyntax_Split _ Hsyn) as (local & d & Hsplit).
  rewrite Hsplit in Hd |- *. subst d. frame.
Qed.

End Footprint.


Lemma delete_eq_lookup {V} (m m' : gmap string V) (key k : string) :
  delete key m' = delete key m -> k <> key -> m' !! k = m !! k.
Proof.
  intros H Hk. rewrite <- (lookup_delete_ne m' key k), H by congruence.
  apply lookup_delete_ne. congruence.
Qed.

(** X11. The footprint of [Verify] in Redis: whatever the address and the
    outside world, a verification never writes domain metadata, and it
    leaves every other key alone but four: the MX records, the catch-all
    flag and the rate-limit mark of the domain of the address, and the
    verdict under the fingerprint of the address. *)
Theorem Verify_footprint (U : Unicode) (cfg : Config) (env : Env) (raw : string) (w : World) :
  domain_meta (snd (Verify cfg env raw w)) = domain_meta w
  /\ (forall k, k <> mx_key (domain_of (normalize raw)) ->
                mx_cache (snd (Verify cfg env raw w)) !! k = mx_cache w !! k)
  /\ (forall k, k <> catchall_key (domain_of (normalize raw)) ->
                catchall_flags (snd (Verify cfg env raw w)) !! k = catchall_flags w !! k)
  /\ (forall k, k <> rate_key (domain_of (normalize raw)) ->
                rate_marks (snd (Verify cfg env raw w)) !! k = rate_marks w !! k)
  /\ (forall k, k <> result_key raw ->
                results (snd (Verify cfg env raw w)) !! k = results w !! k).
Proof.
  split; [|split; [|split; [|split]]].
  - apply (keeps_Verify cfg env domain_meta (domain_of (normalize raw))
             (hashEmail (normalize raw))); reflexivity.
  - intros k Hk. apply (delete_eq_lookup _ _ (mx_key (domain_of (normalize raw)))); [|exact Hk].
    apply (keeps_Verify cfg env (fun w0 => delete (mx_key (domain_of (normalize raw))) (mx_cache w0))
             (domain_of (normalize raw)) (hashEmail (normalize raw))); try reflexivity.
    intros records w0. cbn [mx_cache set_mx_cache]. apply delete_insert_eq.
  - intros k Hk.
    apply (delete_eq_lookup _ _ (catchall_key (domain_of (normalize raw)))); [|exact Hk].
    apply (keeps_Verify cfg env
             (fun w0 => delete (catchall_key (domain_of (normalize raw))) (catchall_flags w0))
             (domain_of (normalize raw)) (hashEmail (normalize raw))); try reflexivity.
    intros val w0. cbn [catchall_flags set_catchall_flags]. apply delete_insert_eq.
  - intros k Hk. apply (delete_eq_lookup _ _ (rate_key (domain_of (normalize raw)))); [|exact Hk].
    apply (keeps_Verify cfg env
             (fun w0 => delete (rate_key (domain_of (normalize raw))) (rate_marks w0))
             (domain_of (normalize raw)) (hashEmail (normalize raw))); try reflexivity.
    intros t w0. cbn [rate_marks set_rate_marks]. apply delete_insert_eq.
  - intros k Hk. apply (delete_eq_lookup _ _ (result_key raw)); [|exact Hk].
    apply (keeps_Verify cfg env (fun w0 => delete (result_key raw) (results w0))
             (domain_of (normalize raw)) (hashEmail (normalize raw))); try reflexivity.
    intros r w0. cbn [results set_results]. apply delete_insert_eq.
Qed.


(** ** A verification that hits the Result Cache *)

Lemma Verify_hit_run (U : Unicode) (cfg : Config) (env : Env) (raw : string) (w : World)
    (r : ValidationResult) :
  redis_ok env (S (tick w)) = true ->
  results w !! result_key raw = Some r ->
  Verify cfg env raw w = (r, set_tick (S (S (tick w))) w).
Proof.
  unfold result_key, normalize. intros Hok Hhit. unfold Verify, mbind, M_bind.
  rewrite time_Now_run, getCachedResult_run.
  cbn [tick set_tick results]. rewrite Hok, Hhit. reflexivity.
Qed.

(** X12. When the Result Cache holds a verdict under the fingerprint of
    the address and Redis answers, [Verify] returns that verdict as it is
    stored, whatever its fields say, after two interactions (the clock and
    the cache): no DNS lookup, no SMTP session, no wait, and no write to
    Redis. *)
Theorem Verify_cache_hit (U : Unicode) (cfg : Config) (env : Env) (raw : string) (w : World)
    (r : ValidationResult) :
  redis_ok env (S (tick w)) = true ->
  results w !! result_key raw = Some r ->
  fst (Verify cfg env raw w) = r
  /\ tick (snd (Verify cfg env raw w)) = S (S (tick w))
  /\ sessions (snd (Verify cfg env raw w)) = sessions w
  /\ timers (snd (Verify cfg env raw w)) = timers w
  /\ results (snd (Verify cfg env raw w)) = results w
  /\ mx_cache (snd (Verify cfg env raw w)) = mx_cache w
  /\ catchall_flags (snd (Verify cfg env raw w)) = catchall_flags w
  /\ rate_marks (snd (Verify cfg env raw w)) = rate_marks w.
Proof.
  intros Hok Hhit. rewrite (Verify_hit_run U cfg env raw w r Hok Hhit).
  repeat split; reflexivity.
Qed.

Lemma Verify_cache_hit_witness :
  fst (Verify (U:=ascii_runtime) DefaultConfig reject_all_env " User@Example.COM" verified_world)
  = verified_verdict
  /\ tick (snd (Verify (U:=ascii_runtime) DefaultConfig reject_all_env " User@Example.COM"
                  verified_world)) = S (S (tick verified_world))
  /\ sessions (snd (Verify (U:=ascii_runtime) DefaultConfig reject_all_env " User@Example.COM"
                      verified_world)) = sessions verified_world
  /\ timers (snd (Verify (U:=ascii_runtime) DefaultConfig reject_all_env " User@Example.COM"
                    verified_world)) = timers verified_world
  /\ results (snd (Verify (U:=ascii_runtime) DefaultConfig reject_all_env " User@Example.COM"
                     verified_world)) = results verified_world
  /\ mx_cache (snd (Verify (U:=ascii_runtime) DefaultConfig reject_all_env " User@Example.COM"
                      verified_world)) = mx_cache verified_world
  /\ catchall_flags (snd (Verify (U:=ascii_runtime) DefaultConfig reject_all_env
                            " User@Example.COM" verified_world))
     = catchall_flags verified_world
  /\ rate_marks (snd (Verify (U:=ascii_runtime) DefaultConfig reject_all_env
                        " User@Example.COM" verified_world)) = rate_marks verified_world.
Proof.
  apply (Verify_cache_hit ascii_runtime DefaultConfig reject_all_env " User@Example.COM"
           verified_world verified_verdict).
  - reflexivity.
  - vm_compute. reflexivity.
Defined.




(** ** Whom a verification contacts *)

Lemma contacts_keeps {A} (P : string * string -> Prop) (m : M A) :
  keeps sessions m -> contacts P m.
Proof. intros H w. exists []. rewrite app_nil_r. split; [apply H | constructor]. Qed.

Lemma contacts_quiet {A} (P : string * string -> Prop) (m : M A) :
  (forall w, sessions (snd (m w)) = sessions w) -> contacts P m.
Proof. exact (contacts_keeps P m). Qed.

Lemma contacts_mret {A} (P : string * string -> Prop) (a : A) : contacts P (mret a).
Proof. apply contacts_quiet. reflexivity. Qed.

Lemma contacts_mbind_val {A A'} (P : string * string -> Prop) (R : A -> Prop)
    (m : M A) (k : A -> M A') :
  (forall w, R (fst (m w))) -> contacts P m -> (forall a, R a -> contacts P (k a)) ->
  contacts P (m ≫= k).
Proof.
  intros HR Hm Hk w. unfold mbind, M_bind.
  specialize (HR w). destruct (Hm w) as (new1 & E1 & F1).
  destruct (m w) as [a w1]. cbn [fst snd] in *.
  destruct (Hk a HR w1) as (new2 & E2 & F2).
  exists (new1 ++ new2). rewrite E2, E1, app_assoc. split; [reflexivity|].
  apply Forall_app. split; assumption.
Qed.

Lemma contacts_mbind {A A'} (P : string * string -> Prop) (m : M A) (k : A -> M A') :
  contacts P m -> (forall a, contacts P (k a)) -> contacts P (m ≫= k).
Proof.
  intros Hm Hk. apply (contacts_mbind_val P (fun _ => True)); auto.
Qed.

Lemma contacts_weaken {A} (P Q : string * string -> Prop) (m : M A) :
  (forall s, P s -> Q s) -> contacts P m -> contacts Q m.
Proof.
  intros HPQ Hm w. destruct (Hm w) as (new & E & F). exists new. split; [exact E|].
  eapply Forall_impl; [exact F | exact HPQ].
Qed.

Section Contacts.

Context {U : Unicode}.
Variable cfg : Config.
Variable env : Env.
Variable hosts : list string.
Variable email domain : string.

Lemma contacts_smtpHandshake rcpt mxHost :
  session_for hosts email domain (mxHost, rcpt) ->
  contacts (session_for hosts email domain) (smtpHandshake env rcpt mxHost).
Proof.
  intros HP w. exists [(mxHost, rcpt)]. split; [reflexivity|].
  constructor; [exact HP | constructor].
Qed.

Lemma contacts_After_or_Done (P : string * string -> Prop) d : contacts P (After_or_Done env d).
Proof. apply contacts_quiet. reflexivity. Qed.

Lemma contacts_createResult (P : string * string -> Prop) e hash d status reason confidence
    smtpCode smtpResponse mxHost mxRecords startTime :
  contacts P (createResult env e hash d status reason confidence
                smtpCode smtpResponse mxHost mxRecords startTime).
Proof. apply contacts_quiet. reflexivity. Qed.

Lemma contacts_retryLoop n attempt mxHost last :
  mxHost ∈ hosts ->
  contacts (session_for hosts email domain) (retryLoop cfg env n attempt email mxHost last).
Proof.
  intros Hhost. revert attempt last.
  induction n as [|n IH]; intros attempt last; cbn [retryLoop]; [apply contacts_mret|].
  apply contacts_mbind.
  { apply contacts_smtpHandshake. split; [exact Hhost | left; reflexivity]. }
  intros r. destruct (snd r); [|apply contacts_mret].
  destruct (negb _); [apply contacts_mret|].
  destruct (attempt <? MaxRetries cfg - 1); [|apply IH].
  apply contacts_mbind; [apply contacts_After_or_Done|].
  intros [ce|]; [apply contacts_mret | apply IH].
Qed.

Lemma probeEmails_probes n :
  forall i w, Forall (probe_of domain) (fst (probeEmails env n i domain w)).
Proof.
  induction n as [|n IH]; intros i w; cbn [probeEmails]; [constructor|].
  unfold mbind, M_bind. rewrite time_Now_run.
  specialize (IH (i + 1) (set_tick (S (tick w)) w)).
  destruct (probeEmails env n (i + 1) domain _) as [rest w1]. cbn [fst] in *.
  constructor; [|exact IH]. exists (clock env (tick w)), i. reflexivity.
Qed.

Lemma contacts_countAccepted probes mxHost :
  mxHost ∈ hosts -> Forall (probe_of domain) probes ->
  forall acc, contacts (session_for hosts email domain) (countAccepted env probes mxHost acc).
Proof.
  intros Hhost. induction 1 as [|p probes Hp _ IH]; intros acc; cbn [countAccepted].
  - apply contacts_mret.
  - apply contacts_mbind.
    { apply contacts_smtpHandshake. split; [exact Hhost | right; exact Hp]. }
    intros [[smtpCode resp] err].
    apply contacts_mbind; [apply contacts_quiet; reflexivity|]. intros _. apply IH.
Qed.

Lemma contacts_detectCatchAll mx :
  Exchange mx ∈ hosts ->
  contacts (session_for hosts email domain) (detectCatchAll cfg env domain mx).
Proof.
  intros Hhost. unfold detectCatchAll.
  apply contacts_mbind; [apply contacts_quiet; reflexivity|].
  intros [b|]; [apply contacts_mret|].
  apply (contacts_mbind_val _ (Forall (probe_of domain))).
  - apply probeEmails_probes.
  - apply contacts_keeps, keeps_probeEmails. reflexivity.
  - intros probes Hprobes.
    apply contacts_mbind; [apply contacts_countAccepted; assumption|]. intros acceptCount.
    apply contacts_mbind; [|intros; apply contacts_mret].
    apply contacts_keeps, keeps_cacheCatchAllStatus; reflexivity.
Qed.

Lemma contacts_verifySMTPWithMX mx startTime :
  Exchange mx ∈ hosts ->
  contacts (session_for hosts email domain)
    (verifySMTPWithMX cfg env email domain mx startTime).
Proof.
  intros Hhost. unfold verifySMTPWithMX.
  apply contacts_mbind.
  { apply contacts_keeps, keeps_waitForRateLimit; reflexivity. }
  intros [e|]; [apply contacts_mret|].
  apply contacts_mbind; [apply contacts_retryLoop; exact Hhost|].
  intros [[[smtpCode smtpResponse] [e|]]|e]; try apply contacts_mret.
  destruct (classifySMTPResponse smtpCode smtpResponse) as [[status reason] confidence].
  apply contacts_mbind.
  - destruct (_ && _); [|apply contacts_mret].
    apply contacts_mbind; [apply contacts_detectCatchAll; exact Hhost|].
    intros [|]; apply contacts_mret.
  - intros [[[isCatchAll status'] reason'] confidence'].
    apply contacts_mbind; [apply contacts_createResult|]. intros. apply contacts_mret.
Qed.

Lemma contacts_tryMXRecords mxRecords startTime :
  Forall (fun mx => Exchange mx ∈ hosts) mxRecords ->
  forall lastErr,
    contacts (session_for hosts email domain)
      (tryMXRecords cfg env mxRecords email domain startTime lastErr).
Proof.
  induction 1 as [|mx rest Hmx _ IH]; intros lastErr; cbn [tryMXRecords].
  - apply contacts_mret.
  - apply contacts_mbind; [apply contacts_verifySMTPWithMX; exact Hmx|].
    intros [result|err]; [|apply IH].
    destruct (_ || _); [apply contacts_mret | apply IH].
Qed.

Lemma contacts_performSMTPVerification mxRecords :
  Forall (fun mx => Exchange mx ∈ hosts) mxRecords ->
  contacts (session_for hosts email domain)
    (performSMTPVerification cfg env email domain mxRecords).
Proof.
  intros Hmx. unfold performSMTPVerification.
  apply contacts_mbind; [apply contacts_quiet; reflexivity|]. intros startTime.
  apply contacts_mbind; [apply contacts_tryMXRecords; exact Hmx|].
  intros [[result|] lastErr]; [apply contacts_mret|].
  apply contacts_mbind; [apply contacts_createResult|]. intros. apply contacts_mret.
Qed.

End Contacts.

(** X14. The SMTP stage only adds to the log of sessions, and every
    session it opens is with the exchange of one of the MX records it was
    given, for the address under verification or for a probe address
    [probeverify<nanoseconds><index>] at the domain of that address. *)
Theorem performSMTPVerification_contacts (U : Unicode) (cfg : Config) (env : Env)
    (email domain : string) (mxRecords : list MXRecord) (w : World) :
  exists new,
    sessions (snd (performSMTPVerification cfg env email domain mxRecords w))
    = sessions w ++ new
    /\ Forall (session_for (map Exchange mxRecords) email domain) new.
Proof.
  apply (contacts_performSMTPVerification cfg env (map Exchange mxRecords) email domain).
  apply Forall_forall. intros mx Hmx. apply list_elem_of_fmap. exists mx. split; [reflexivity|exact Hmx].
Qed.

(** X15. Whatever the outside world does, [Verify] only adds to the log
    of sessions, and the recipient given in RCPT TO of every session it
    opens is the normalized address or a probe address at its domain.
    (The sender given in MAIL FROM is the [MailFrom] of the
    configuration.) *)
Theorem Verify_recipients (U : Unicode) (cfg : Config) (env : Env) (raw : string) (w : World) :
  exists new,
    sessions (snd (Verify cfg env raw w)) = sessions w ++ new
    /\ Forall (fun s => snd s = normalize raw \/ probe_of (domain_of (normalize raw)) (snd s))
         new.
Proof.
  revert w.
  change (contacts (fun s => snd s = normalize raw
                             \/ probe_of (domain_of (normalize raw)) (snd s))
            (Verify cfg env raw)).
  unfold domain_of, normalize, Verify.
  apply contacts_mbind; [apply contacts_quiet; reflexivity|]. intros startTime.
  apply contacts_mbind; [apply contacts_quiet; reflexivity|].
  intros [cached|]; [apply contacts_mret|].
  destruct (isValidEmailSyntax (ToLower (TrimSpace raw))) eqn:Hsyn; cbn [negb];
    [|apply contacts_createResult].
  destruct (isValidEmailSyntax_Split _ Hsyn) as (local & d & ->).
  apply contacts_mbind.
  { apply contacts_keeps, keeps_getMXRecords; reflexivity. }
  intros [mxRecords err].
  destruct (_ || _); [apply contacts_createResult|].
  apply contacts_mbind; [apply contacts_quiet; reflexivity|]. intros domainMeta.
  destruct (match domainMeta with Some meta => MetaIsDisposable meta | None => false end);
    [apply contacts_createResult|].
  apply contacts_mbind.
  { apply (contacts_weaken (session_for (map Exchange mxRecords) (ToLower (TrimSpace raw)) d)).
    - intros s (_ & Hs). exact Hs.
    - apply contacts_performSMTPVerification.
      apply Forall_forall. intros mx Hmx. apply list_elem_of_fmap. exists mx.
      split; [reflexivity|exact Hmx]. }
  intros [result [e|]]; [apply contacts_createResult|].
  apply contacts_mbind; [|intros; apply contacts_mret].
  apply contacts_keeps, keeps_cacheResult; reflexivity.
Qed.


(** ** The retry loop *)

Lemma sessions_snoc_replicate (l : list (string * string)) s k :
  (l ++ [s]) ++ replicate k s = l ++ replicate (S k) s.
Proof. rewrite <- app_assoc. reflexivity. Qed.

Lemma backoffs_shift (cfg : Config) (attempt : Z) (j : nat) :
  backoff cfg attempt
    :: List.map (fun i => backoff cfg (attempt + 1 + Z.of_nat i)) (seq 0 j)
  = List.map (fun i => backoff cfg (attempt + Z.of_nat i)) (seq 0 (S j)).
Proof.
  cbn [seq List.map]. rewrite <- List.seq_shift, List.map_map. f_equal.
  - f_equal. lia.
  - apply List.map_ext. intros i. f_equal. lia.
Qed.

(** A whole backoff factor makes the backoff a product of integers. *)
Lemma backoff_whole_factor (cfg : Config) (factor attempt : Z) :
  (RetryBackoffFactor cfg == inject_Z factor)%Q ->
  backoff cfg attempt = RetryBackoff cfg * (attempt + 1) * factor.
Proof.
  unfold backoff, truncQ, Qeq. cbn [Qnum Qden inject_Z Qmult]. intros H.
  rewrite Z.mul_1_r in H. rewrite H.
  change (Z.pos (1 * 1 * Qden (RetryBackoffFactor cfg)))
    with (Z.pos (Qden (RetryBackoffFactor cfg))).
  rewrite Z.mul_assoc. apply Z.quot_mul. discriminate.
Qed.

(** X16. The retry loop with [n] rounds left opens between one (for
    [n > 0]) and [n] sessions, all with the same MX host for the same
    recipient, and makes no wait once the attempt [MaxRetries - 1] is
    reached.  For a configuration whose backoff factor is a whole number
    and whose products stay below 2^53, where the float64 arithmetic of
    the source is exact, the waits between the sessions are, in order,
    [RetryBackoff * (a + 1) * RetryBackoffFactor] for the attempts
    [a = attempt], [attempt + 1], ...: linear in the attempt. *)
Theorem retryLoop_log (cfg : Config) (env : Env) (email mxHost : string) (n : nat)
    (factor : Z) :
  (RetryBackoffFactor cfg == inject_Z factor)%Q ->
  0 <= factor ->
  0 <= RetryBackoff cfg ->
  RetryBackoff cfg * MaxRetries cfg < 2 ^ 53 ->
  RetryBackoff cfg * MaxRetries cfg * factor < 2 ^ 53 ->
  forall (attempt : Z) (last : Z * string * option error) (w : World),
  0 <= attempt ->
  exists k j : nat,
    (k <= n)%nat /\ (n = 0 \/ 1 <= k)%nat /\ (j <= k)%nat
    /\ attempt + Z.of_nat j <= Z.max attempt (MaxRetries cfg - 1)
    /\ sessions (snd (retryLoop cfg env n attempt email mxHost last w))
       = sessions w ++ replicate k (mxHost, email)
    /\ timers (snd (retryLoop cfg env n attempt email mxHost last w))
       = timers w
         ++ List.map (fun i => RetryBackoff cfg * (attempt + Z.of_nat i + 1) * factor)
              (seq 0 j).
Proof.
  intros Hfactor _ _ _ _.
  assert (Hrun : forall (attempt : Z) (last : Z * string * option error) (w : World) x w',
             retryLoop cfg env n attempt email mxHost last w = (x, w') ->
             exists k j : nat,
               (k <= n)%nat /\ (n = 0 \/ 1 <= k)%nat /\ (j <= k)%nat
               /\ attempt + Z.of_nat j <= Z.max attempt (MaxRetries cfg - 1)
               /\ sessions w' = sessions w ++ replicate k (mxHost, email)
               /\ timers w'
                  = timers w
                    ++ List.map (fun i => backoff cfg (attempt + Z.of_nat i)) (seq 0 j)).
  { induction n as [|n IH]; intros attempt last w x w'.
    { intros H. injection H as <- <-. exists 0%nat, 0%nat. cbn. rewrite !app_nil_r.
      repeat split; try lia. }
    assert (Hone : forall y : Z * string * option error + error,
               (y, log_session (mxHost, email) (set_tick (S (tick w)) w)) = (x, w') ->
               exists k j : nat,
                 (k <= S n)%nat /\ (S n = 0 \/ 1 <= k)%nat /\ (j <= k)%nat
                 /\ attempt + Z.of_nat j <= Z.max attempt (MaxRetries cfg - 1)
                 /\ sessions w' = sessions w ++ replicate k (mxHost, email)
                 /\ timers w'
                    = timers w
                      ++ List.map (fun i => backoff cfg (attempt + Z.of_nat i)) (seq 0 j)).
    { intros y H. injection H as <- <-. exists 1%nat, 0%nat. cbn. rewrite app_nil_r.
      repeat split; try lia. }
    cbn [retryLoop]. unfold mbind at 1, M_bind at 1. rewrite smtpHandshake_run.
    destruct (handshake_returns (smtp env mxHost email (tick w))) as [[code resp] [e|]];
      cbn [snd]; [|apply Hone].
    destruct (negb (isRetryableError (Some e))); [apply Hone|].
    destruct (Z.ltb_spec attempt (MaxRetries cfg - 1)) as [Hlt|Hge].
    - unfold mbind, M_bind. rewrite After_or_Done_run.
      destruct (ctx_done env _) as [ce|].
      + intros H. injection H as <- <-. exists 1%nat, 1%nat. cbn. repeat split; try lia.
        repeat f_equal. lia.
      + intros H. apply IH in H as (k & j & Hk & _ & Hj & Hb & Hs & Ht).
        exists (S k), (S j). rewrite Hs, Ht.
        cbn [sessions timers log_timer log_session set_tick].
        rewrite sessions_snoc_replicate, <- app_assoc, <- backoffs_shift.
        repeat split; try lia.
    - intros H. apply IH in H as (k & j & Hk & _ & Hj & Hb & Hs & Ht).
      assert (j = 0%nat) as -> by lia.
      exists (S k), 0%nat. rewrite Hs, Ht. cbn [sessions timers log_session set_tick].
      rewrite sessions_snoc_replicate. cbn. repeat split; try lia. }
  intros attempt last w _.
  destruct (retryLoop cfg env n attempt email mxHost last w) as [x w'] eqn:E.
  destruct (Hrun attempt last w x w' E) as (k & j & Hk & Hk1 & Hj & Hb & Hs & Ht).
  exists k, j. cbn [snd]. rewrite Ht. repeat split; try assumption.
  f_equal. apply List.map_ext. intros i. apply backoff_whole_factor, Hfactor.
Qed.

Lemma retryLoop_log_witness :
  exists k j : nat,
    (k <= 3)%nat /\ (3 = 0 \/ 1 <= k)%nat /\ (j <= k)%nat
    /\ 0 + Z.of_nat j <= Z.max 0 (MaxRetries DefaultConfig - 1)
    /\ sessions (snd (retryLoop DefaultConfig unreachable_env 3 0 "user@example.com"
                        "mx.example.com" (0, "", None) empty_world))
       = sessions empty_world ++ replicate k ("mx.example.com", "user@example.com")
    /\ timers (snd (retryLoop DefaultConfig unreachable_env 3 0 "user@example.com"
                      "mx.example.com" (0, "", None) empty_world))
       = timers empty_world
         ++ List.map (fun i => RetryBackoff DefaultConfig * (0 + Z.of_nat i + 1) * 2)
              (seq 0 j).
Proof.
  apply (retryLoop_log DefaultConfig unreachable_env "user@example.com" "mx.example.com" 3 2).
  - reflexivity.
  - lia.
  - vm_compute. discriminate.
  - vm_compute. reflexivity.
  - vm_compute. reflexivity.
  - lia.
Defined.


(** ** The cost of catch-all detection *)

Lemma probeEmails_length (env : Env) (domain : string) (n : nat) :
  forall i w, length (fst (probeEmails env n i domain w)) = n.
Proof.
  induction n as [|n IH]; intros i w; cbn [probeEmails]; [reflexivity|].
  unfold mbind, M_bind. rewrite time_Now_run.
  specialize (IH (i + 1) (set_tick (S (tick w)) w)).
  destruct (probeEmails env n (i + 1) domain _) as [rest w1].
  unfold mret, M_ret. cbn [fst length] in *. rewrite IH. reflexivity.
Qed.

Lemma countAccepted_log (env : Env) (mxHost : string) (probes : list string) :
  forall acc w,
    sessions (snd (countAccepted env probes mxHost acc w))
    = sessions w ++ List.map (fun p => (mxHost, p)) probes
    /\ timers (snd (countAccepted env probes mxHost acc w))
       = timers w ++ replicate (length probes) (500 * 1000000).
Proof.
  induction probes as [|p probes IH]; intros acc w; cbn [countAccepted].
  - cbn. rewrite !app_nil_r. split; reflexivity.
  - unfold mbind, M_bind. rewrite smtpHandshake_run.
    destruct (handshake_returns _) as [[code resp] err]. cbv beta iota.
    unfold mbind, M_bind.
    change (Sleep (500 * 1000000) (log_session (mxHost, p) (set_tick (S (tick w)) w)))
      with (tt, log_timer (500 * 1000000)
                  (set_tick (S (S (tick w))) (log_session (mxHost, p) (set_tick (S (tick w)) w)))).
    cbv beta iota.
    match goal with
    | |- context [countAccepted env probes mxHost ?a ?w1] =>
        destruct (IH a w1) as (Hs & Ht); rewrite Hs, Ht
    end.
    cbn [sessions timers log_timer log_session set_tick List.map length replicate].
    rewrite <- !app_assoc. split; reflexivity.
Qed.

Section CatchAllCost.

Variable cfg : Config.
Variable env : Env.
Variable domain : string.
Variable mx : MXRecord.

Lemma detectCatchAll_miss_run w :
  catchall_flags w !! catchall_key domain = None ->
  exists probes w1 acceptCount w2,
    probeEmails env (Z.to_nat (CatchAllProbeCount cfg)) 0 domain (set_tick (S (tick w)) w)
    = (probes, w1)
    /\ countAccepted env probes (Exchange mx) 0 w1 = (acceptCount, w2)
    /\ detectCatchAll cfg env domain mx w
       = (acceptCount >=? Z.quot (CatchAllProbeCount cfg) 2,
          snd (cacheCatchAllStatus env domain
                 (acceptCount >=? Z.quot (CatchAllProbeCount cfg) 2) w2)).
Proof.
  intros Hmiss. unfold detectCatchAll, getCachedCatchAllStatus, mbind, M_bind.
  rewrite redis_Get_run by reflexivity. unfold catchall_key in Hmiss. rewrite Hmiss.
  replace (if redis_ok env (tick w) then None else None) with (None : option string)
    by (destruct (redis_ok env (tick w)); reflexivity).
  unfold mret at 1, M_ret at 1. cbn [option_map].
  destruct (probeEmails env _ _ _ _) as [probes w1].
  destruct (countAccepted env probes (Exchange mx) 0 w1) as [acceptCount w2] eqn:E2.
  exists probes, w1, acceptCount, w2. split; [reflexivity|]. split; [exact E2|].
  destruct (cacheCatchAllStatus env domain _ w2) as [[] w3]. reflexivity.
Qed.

End CatchAllCost.

(** X17. When the catch-all flag of the domain is not cached,
    [detectCatchAll] opens exactly [CatchAllProbeCount] sessions, all with
    the exchange of the MX record and each for a probe address at the
    domain, and sleeps half a second after each of them, whatever the MX
    answers: detection adds no less than [CatchAllProbeCount] half seconds
    to the verification. *)
Theorem detectCatchAll_cost (cfg : Config) (env : Env) (domain : string) (mx : MXRecord)
    (w : World) :
  catchall_flags w !! catchall_key domain = None ->
  exists probes,
    length probes = Z.to_nat (CatchAllProbeCount cfg)
    /\ Forall (probe_of domain) probes
    /\ sessions (snd (detectCatchAll cfg env domain mx w))
       = sessions w ++ List.map (fun p => (Exchange mx, p)) probes
    /\ timers (snd (detectCatchAll cfg env domain mx w))
       = timers w ++ replicate (Z.to_nat (CatchAllProbeCount cfg)) (500 * 1000000).
Proof.
  intros Hmiss.
  destruct (detectCatchAll_miss_run cfg env domain mx w Hmiss)
    as (probes & w1 & acceptCount & w2 & E1 & E2 & ->).
  exists probes.
  pose proof (probeEmails_length env domain (Z.to_nat (CatchAllProbeCount cfg)) 0
                (set_tick (S (tick w)) w)) as Hlen.
  pose proof (probeEmails_probes env domain (Z.to_nat (CatchAllProbeCount cfg)) 0
                (set_tick (S (tick w)) w)) as Hprobes.
  pose proof (keeps_probeEmails env sessions (fun _ _ => eq_refl)
                (Z.to_nat (CatchAllProbeCount cfg)) 0 domain (set_tick (S (tick w)) w)) as Ks.
  pose proof (keeps_probeEmails env timers (fun _ _ => eq_refl)
                (Z.to_nat (CatchAllProbeCount cfg)) 0 domain (set_tick (S (tick w)) w)) as Kt.
  rewrite E1 in Hlen, Hprobes, Ks, Kt. cbn [fst snd] in Hlen, Hprobes, Ks, Kt.
  destruct (countAccepted_log env (Exchange mx) probes 0 w1) as (Hs & Ht).
  rewrite E2 in Hs, Ht. cbn [snd] in Hs, Ht.
  cbn [snd].
  rewrite (keeps_cacheCatchAllStatus env sessions domain (fun _ _ => eq_refl)
             (fun _ _ => eq_refl) _ w2).
  rewrite (keeps_cacheCatchAllStatus env timers domain (fun _ _ => eq_refl)
             (fun _ _ => eq_refl) _ w2).
  rewrite Hs, Ht, Ks, Kt, Hlen. repeat split; try reflexivity. exact Hprobes.
Qed.

Lemma detectCatchAll_cost_witness :
  exists probes,
    length probes = Z.to_nat (CatchAllProbeCount DefaultConfig)
    /\ Forall (probe_of "example.com") probes
    /\ sessions (snd (detectCatchAll DefaultConfig reject_all_env "example.com"
                        (mkMXRecord "mx.example.com" 10) empty_world))
       = sessions empty_world
         ++ List.map (fun p => (Exchange (mkMXRecord "mx.example.com" 10), p)) probes
    /\ timers (snd (detectCatchAll DefaultConfig reject_all_env "example.com"
                      (mkMXRecord "mx.example.com" 10) empty_world))
       = timers empty_world
         ++ replicate (Z.to_nat (CatchAllProbeCount DefaultConfig)) (500 * 1000000).
Proof.
  apply (detectCatchAll_cost DefaultConfig reject_all_env "example.com"
           (mkMXRecord "mx.example.com" 10) empty_world).
  reflexivity.
Defined.



(** ** The MX cache *)

Lemma sortMXRecords_nil_iff (records : list MXRecord) :
  sortMXRecords records = [] <-> records = [].
Proof.
  split; [|intros ->; reflexivity].
  intros H. destruct (sortMXRecords_sorted records) as (_ & Hperm).
  rewrite H in Hperm. symmetry in Hperm. apply Permutation_nil_r in Hperm. exact Hperm.
Qed.





(** ** Verdicts and fingerprints *)

Lemma append_inj_l (p a b : string) : p +:+ a = p +:+ b -> a = b.
Proof.
  induction p as [|c p IH]; cbn [append]; intros H; [exact H|].
  injection H as H. exact (IH H).
Qed.

(** A Result Cache in which every verdict sits under its own fingerprint
    stays so through [Verify] (an empty cache is one), and then the
    verdict returned, fresh or cached, with Redis reachable or not,
    carries the fingerprint of the normalized input. *)
Lemma Verify_keyed_run (U : Unicode) (cfg : Config) (env : Env) (raw : string) (w : World) :
  cache_keyed w ->
  EmailHash (fst (Verify cfg env raw w)) = hashEmail (normalize raw)
  /\ cache_keyed (snd (Verify cfg env raw w)).
Proof.
  intros Hk.
  destruct (redis_ok env (S (tick w))) eqn:Hok;
    [destruct (results w !! result_key raw) as [r|] eqn:Hget|].
  - rewrite (Verify_hit_run U cfg env raw w r Hok Hget). cbn [fst snd]. split; [|exact Hk].
    apply Hk in Hget. unfold result_key in Hget. apply append_inj_l in Hget. congruence.
  - destruct (Verify cfg env raw w) as [r w'] eqn:E. cbn [fst snd].
    destruct (Verify_fresh_run cfg env raw w r w' (or_intror Hget) E) as (_ & Hh & _ & Hcase).
    split; [exact Hh|].
    assert (Hres : results w' = results w \/ results w' = <[result_key raw := r]> (results w)).
    { destruct Hcase as [(_ & _ & _ & H & _)
                        | (_ & _ & [(_ & H & _) | [(_ & H & _) | [(e & _ & H) | (_ & H)]]])];
        try (left; exact H).
      destruct H as [H | (H & _)]; [right | left]; exact H. }
    intros key r'. destruct Hres as [-> | ->]; [apply Hk|].
    intros H. apply lookup_insert_Some in H as [(<- & <-) | (_ & H)]; [|exact (Hk _ _ H)].
    unfold result_key. rewrite Hh. reflexivity.
  - destruct (Verify cfg env raw w) as [r w'] eqn:E. cbn [fst snd].
    destruct (Verify_fresh_run cfg env raw w r w' (or_introl Hok) E) as (_ & Hh & _ & Hcase).
    split; [exact Hh|].
    assert (Hres : results w' = results w \/ results w' = <[result_key raw := r]> (results w)).
    { destruct Hcase as [(_ & _ & _ & H & _)
                        | (_ & _ & [(_ & H & _) | [(_ & H & _) | [(e & _ & H) | (_ & H)]]])];
        try (left; exact H).
      destruct H as [H | (H & _)]; [right | left]; exact H. }
    intros key r'. destruct Hres as [-> | ->]; [apply Hk|].
    intros H. apply lookup_insert_Some in H as [(<- & <-) | (_ & H)]; [|exact (Hk _ _ H)].
    unfold result_key. rewrite Hh. reflexivity.
Qed.

Lemma verifyBatch_keyed_run (U : Unicode) (cfg : Config) (env : Env) (emails : list string) :
  forall w,
    cache_keyed w ->
    Forall2 (fun raw r => EmailHash r = hashEmail (normalize raw)) emails
      (fst (verifyBatch cfg env emails w))
    /\ cache_keyed (snd (verifyBatch cfg env emails w)).
Proof.
  induction emails as [|raw rest IH]; intros w Hk; cbn [verifyBatch].
  - split; [constructor | exact Hk].
  - unfold mbind, M_bind.
    destruct (Verify_keyed_run U cfg env raw w Hk) as (Hh & Hk1).
    destruct (Verify cfg env raw w) as [r w1]. cbn [fst snd] in Hh, Hk1.
    destruct (IH w1 Hk1) as (Hall & Hk2).
    destruct (verifyBatch cfg env rest w1) as [rs w2]. cbn [fst snd] in *.
    split; [constructor; assumption | exact Hk2].
Qed.

Lemma cache_keyed_empty (w : World) : results w = ∅ -> cache_keyed w.
Proof. intros H key r. rewrite H, lookup_empty. discriminate. Qed.

(** X21. The batch handler refuses an empty batch and a batch of more
    than 1000 addresses without touching the verifier; any other batch is
    answered with one verdict per address, in the order of the request,
    each with the fingerprint of its normalized address (the Result Cache
    being keyed by fingerprint). *)
Theorem handleBatchValidate_response (U : Unicode) (cfg : Config) (env : Env)
    (emails : list string) (w : World) :
  cache_keyed w ->
  match fst (handleBatchValidate cfg env emails w) with
  | BatchOK results =>
      (1 <= length emails <= 1000)%nat
      /\ Forall2 (fun raw r => EmailHash r = hashEmail (normalize raw)) emails results
  | BadRequest _ =>
      (emails = [] \/ 1000 < length emails)%nat /\ snd (handleBatchValidate cfg env emails w) = w
  | ResultOK _ => False
  end.
Proof.
  intros Hk. unfold handleBatchValidate.
  destruct (Z.eqb_spec (Z.of_nat (length emails)) 0) as [H0|H0].
  { cbn [fst snd mret M_ret]. split; [|reflexivity]. left. destruct emails; [reflexivity|].
    cbn [length] in H0. lia. }
  destruct (Z.gtb_spec (Z.of_nat (length emails)) 1000) as [H1|H1].
  { cbn [fst snd mret M_ret]. split; [|reflexivity]. right. lia. }
  unfold mbind, M_bind.
  destruct (verifyBatch_keyed_run U cfg env emails w Hk) as (Hall & _).
  destruct (verifyBatch cfg env emails w) as [rs w1]. cbn [fst snd mret M_ret] in *.
  split; [lia | exact Hall].
Qed.

Lemma handleBatchValidate_response_witness :
  match fst (handleBatchValidate (U:=ascii_runtime) DefaultConfig reject_all_env
               ["user@example.com"; "not an address"] empty_world) with
  | BatchOK results =>
      (1 <= length ["user@example.com"; "not an address"] <= 1000)%nat
      /\ Forall2 (fun raw r => EmailHash r
                               = hashEmail (U:=ascii_runtime) (normalize (U:=ascii_runtime) raw))
           ["user@example.com"; "not an address"] results
  | BadRequest _ =>
      (["user@example.com"; "not an address"] = [] 
       \/ 1000 < length ["user@example.com"; "not an address"])%nat
      /\ snd (handleBatchValidate (U:=ascii_runtime) DefaultConfig reject_all_env
                ["user@example.com"; "not an address"] empty_world) = empty_world
  | ResultOK _ => False
  end.
Proof.
  apply (handleBatchValidate_response ascii_runtime DefaultConfig reject_all_env
           ["user@example.com"; "not an address"] empty_world).
  apply cache_keyed_empty. reflexivity.
Defined.

(** X22. The single handler refuses only the empty string: any other
    input, blanks included, is passed to [Verify] and answered with a
    verdict that carries the fingerprint of its normal form. *)
Theorem handleValidate_response (U : Unicode) (cfg : Config) (env : Env) (email : string)
    (w : World) :
  cache_keyed w ->
  email <> "" ->
  exists result,
    handleValidate cfg env email w = (ResultOK result, snd (Verify cfg env email w))
    /\ result = fst (Verify cfg env email w)
    /\ EmailHash result = hashEmail (normalize email).
Proof.
  intros Hk Hne. unfold handleValidate.
  destruct (String.eqb_spec email "") as [->|_]; [congruence|].
  unfold mbind, M_bind.
  destruct (Verify_keyed_run U cfg env email w Hk) as (Hh & _).
  destruct (Verify cfg env email w) as [r w1]. cbn [fst snd] in *.
  exists r. split; [reflexivity|]. split; [reflexivity | exact Hh].
Qed.

Lemma handleValidate_response_witness :
  exists result,
    handleValidate (U:=ascii_runtime) DefaultConfig reject_all_env "   " empty_world
    = (ResultOK result,
       snd (Verify (U:=ascii_runtime) DefaultConfig reject_all_env "   " empty_world))
    /\ result = fst (Verify (U:=ascii_runtime) DefaultConfig reject_all_env "   " empty_world)
    /\ EmailHash result
       = hashEmail (U:=ascii_runtime) (normalize (U:=ascii_runtime) "   ").
Proof.
  apply (handleValidate_response ascii_runtime DefaultConfig reject_all_env "   " empty_world).
  - apply cache_keyed_empty. reflexivity.
  - discriminate.
Defined.

(** ** Disposable domains *)

Lemma getMXRecords_answer (env : Env) (domain : string) (mx0 : NetMX) (mxs : list NetMX) :
  (forall n, dns env domain n = (mx0 :: mxs, None)) ->
  forall w, exists r rs, fst (getMXRecords env domain w) = (r :: rs, None).
Proof.
  intros Hdns w. unfold getMXRecords, mbind, M_bind. rewrite getCachedMXRecords_run.
  assert (Hlookup :
            exists r rs,
              fst (('(mxs, err) ← LookupMX env domain;
                    match err with
                    | Some e => mret ([], Some e)
                    | None =>
                        let records :=
                          map (fun mx => {| Exchange := TrimSuffix (Host mx) ".";
                                            Priority := Pref mx |}) mxs in
                        let records := sortMXRecords records in
                        cacheMXRecords env domain records;; mret (records, None)
                    end) (set_tick (S (tick w)) w)) = (r :: rs, None)).
  { unfold mbind, M_bind. rewrite LookupMX_run, Hdns. cbv beta iota zeta.
    destruct (cacheMXRecords env domain _ _) as [[] w'].
    destruct (sortMXRecords _) as [|r rs] eqn:E; [|exists r, rs; reflexivity].
    apply (proj1 (sortMXRecords_nil_iff _)) in E. discriminate E. }
  destruct (if redis_ok env (tick w) then _ else None) as [[|r rs]|];
    [exact Hlookup | exists r, rs; reflexivity | exact Hlookup].
Qed.

(** X23. The disposable check comes after the MX resolution and before
    any SMTP session: for an address that passes the syntax filter and is
    not in the Result Cache, whose domain resolves to at least one MX
    record and whose metadata in Redis mark it disposable, the verdict is
    risky/disposable_domain with confidence 0.9 and the MX records found,
    no session is opened and the verdict is not cached. *)
Theorem Verify_disposable (U : Unicode) (cfg : Config) (env : Env) (raw : string) (w : World)
    (mx0 : NetMX) (mxs : list NetMX) (meta : DomainMetadata) :
  (forall n, redis_ok env n = true) ->
  results w !! result_key raw = None ->
  isValidEmailSyntax (normalize raw) = true ->
  (forall n, dns env (domain_of (normalize raw)) n = (mx0 :: mxs, None)) ->
  domain_meta w !! ("domain:meta:" +:+ domain_of (normalize raw)) = Some meta ->
  MetaIsDisposable meta = true ->
  verdict_is (fst (Verify cfg env raw w)) StatusRisky "disposable_domain" 0.9%Q
  /\ MXRecords (fst (Verify cfg env raw w)) <> []
  /\ sessions (snd (Verify cfg env raw w)) = sessions w
  /\ results (snd (Verify cfg env raw w)) = results w.
Proof.
  unfold result_key, normalize, domain_of. intros Hredis Hmiss Hsyn Hdns Hmeta Hdisp.
  unfold Verify, mbind, M_bind.
  rewrite time_Now_run, (getCachedResult_miss _ _ _ Hmiss), Hsyn. cbn [negb]. cbv beta iota.
  destruct (isValidEmailSyntax_Split _ Hsyn) as (local & domain & Hsplit).
  rewrite Hsplit in Hdns, Hmeta |- *. cbv beta iota.
  destruct (getMXRecords_answer env domain mx0 mxs Hdns (set_tick (S (S (tick w))) w))
    as (r & rs & Hans).
  pose proof (keeps_getMXRecords env domain_meta domain (fun _ _ => eq_refl)
                (fun _ _ => eq_refl) (set_tick (S (S (tick w))) w)) as Km.
  pose proof (keeps_getMXRecords env results domain (fun _ _ => eq_refl)
                (fun _ _ => eq_refl) (set_tick (S (S (tick w))) w)) as Kr.
  pose proof (keeps_getMXRecords env sessions domain (fun _ _ => eq_refl)
                (fun _ _ => eq_refl) (set_tick (S (S (tick w))) w)) as Ks.
  destruct (getMXRecords env domain (set_tick (S (S (tick w))) w)) as [[mxRecords err] w2].
  cbn [fst snd] in Hans, Km, Kr, Ks. injection Hans as -> ->.
  change (bool_decide (None ≠ None) || (Z.of_nat (length (r :: rs)) =? 0)) with false.
  cbv beta iota.
  unfold getDomainMetadata. rewrite redis_Get_run by reflexivity.
  rewrite Hredis, Km. cbn [domain_meta set_tick]. rewrite Hmeta, Hdisp.
  rewrite createResult_run. unfold verdict_is. cbn.
  repeat split; try reflexivity; try assumption. discriminate.
Qed.

Lemma Verify_disposable_witness :
  verdict_is (fst (Verify (U:=ascii_runtime) DefaultConfig reject_all_env "x@tempmail.test"
                     disposable_world)) StatusRisky "disposable_domain" 0.9%Q
  /\ MXRecords (fst (Verify (U:=ascii_runtime) DefaultConfig reject_all_env "x@tempmail.test"
                       disposable_world)) <> []
  /\ sessions (snd (Verify (U:=ascii_runtime) DefaultConfig reject_all_env "x@tempmail.test"
                      disposable_world)) = sessions disposable_world
  /\ results (snd (Verify (U:=ascii_runtime) DefaultConfig reject_all_env "x@tempmail.test"
                     disposable_world)) = results disposable_world.
Proof.
  apply (Verify_disposable ascii_runtime DefaultConfig reject_all_env "x@tempmail.test"
           disposable_world (mkNetMX "mx.example.com." 10) []
           (mkDomainMetadata None None true [] (steady_clock 0))).
  - intros n. reflexivity.
  - reflexivity.
  - reflexivity.
  - intros n. reflexivity.
  - reflexivity.
  - reflexivity.
Defined.

(** ** The rate-limit mark *)

Lemma whole_second (now : Z) :
  0 <= now ->
  Z.quot now Second * Second <= now < Z.quot now Second * Second + Second
  /\ Z.rem (Z.quot now Second * Second) Second = 0.
Proof.
  intros Hnow. unfold Second. rewrite Z.quot_div_nonneg by lia.
  split; [|apply Z.rem_mul; lia].
  pose proof (Z.div_mod now 1000000000 ltac:(lia)) as Hdm.
  pose proof (Z.mod_pos_bound now 1000000000 ltac:(lia)) as Hb. lia.
Qed.

(** X24. With Redis reachable and a clock that is not before the epoch,
    [waitForRateLimit] waits at most once, for a positive time, and then
    either gives up with the error of the context, leaving the mark of
    the domain as it was, or sets the mark to a reading of the clock cut
    down to a whole second, which is up to a second earlier than that
    reading. *)
Theorem waitForRateLimit_mark (cfg : Config) (env : Env) (domain mxHost : string) (w : World) :
  (forall n, redis_ok env n = true) ->
  (forall n, 0 <= clock env n) ->
  (exists waits,
      timers (snd (waitForRateLimit cfg env domain mxHost w)) = timers w ++ waits
      /\ (waits = [] \/ exists d, waits = [d] /\ 0 < d))
  /\ match fst (waitForRateLimit cfg env domain mxHost w) with
     | Some e =>
         rate_marks (snd (waitForRateLimit cfg env domain mxHost w)) = rate_marks w
         /\ exists n, ctx_done env n = Some e
     | None =>
         exists n mark,
           rate_marks (snd (waitForRateLimit cfg env domain mxHost w))
           = <[rate_key domain := mark]> (rate_marks w)
           /\ mark <= clock env n < mark + Second
           /\ Z.rem mark Second = 0
     end.
Proof.
  intros Hredis Hclock.
  destruct (waitForRateLimit cfg env domain mxHost w) as [res w'] eqn:E. cbn [fst snd].
  revert E. unfold waitForRateLimit, mbind, M_bind.
  rewrite redis_Get_run by reflexivity. rewrite Hredis.
  destruct (rate_marks w !! _) as [lastTime|].
  - rewrite time_Now_run.
    destruct (Z.ltb_spec (clock env (tick (set_tick (S (tick w)) w)) - lastTime)
                (DomainRateLimit cfg)) as [Hlt|Hge].
    + rewrite After_or_Done_run. destruct (ctx_done env _) as [ce|] eqn:Hctx.
      * unfold mret, M_ret. intros E. injection E as <- <-. cbn. split.
        -- eexists. split; [reflexivity|]. right. eexists. split; [reflexivity|]. cbn in Hlt. lia.
        -- split; [reflexivity|]. eexists. exact Hctx.
      * rewrite time_Now_run, (redis_Set_run env Hredis).
        unfold mret, M_ret. intros E. injection E as <- <-. cbn. split.
        -- eexists. split; [reflexivity|]. right. eexists. split; [reflexivity|]. cbn in Hlt. lia.
        -- eexists _, _. split; [reflexivity|]. apply whole_second, Hclock.
    + unfold mret at 1, M_ret at 1. rewrite time_Now_run, (redis_Set_run env Hredis).
      unfold mret, M_ret. intros E. injection E as <- <-. cbn. split.
      * exists []. rewrite app_nil_r. split; [reflexivity|]. left. reflexivity.
      * eexists _, _. split; [reflexivity|]. apply whole_second, Hclock.
  - unfold mret at 1, M_ret at 1. rewrite time_Now_run, (redis_Set_run env Hredis).
    unfold mret, M_ret. intros E. injection E as <- <-. cbn. split.
    + exists []. rewrite app_nil_r. split; [reflexivity|]. left. reflexivity.
    + eexists _, _. split; [reflexivity|]. apply whole_second, Hclock.
Qed.

Lemma waitForRateLimit_mark_witness :
  (exists waits,
      timers (snd (waitForRateLimit DefaultConfig reject_all_env "example.com" "mx.example.com"
                     verified_world)) = timers verified_world ++ waits
      /\ (waits = [] \/ exists d, waits = [d] /\ 0 < d))
  /\ match fst (waitForRateLimit DefaultConfig reject_all_env "example.com" "mx.example.com"
                  verified_world) with
     | Some e =>
         rate_marks (snd (waitForRateLimit DefaultConfig reject_all_env "example.com"
                            "mx.example.com" verified_world)) = rate_marks verified_world
         /\ exists n, ctx_done reject_all_env n = Some e
     | None =>
         exists n mark,
           rate_marks (snd (waitForRateLimit DefaultConfig reject_all_env "example.com"
                              "mx.example.com" verified_world))
           = <[rate_key "example.com" := mark]> (rate_marks verified_world)
           /\ mark <= clock reject_all_env n < mark + Second
           /\ Z.rem mark Second = 0
     end.
Proof.
  apply (waitForRateLimit_mark DefaultConfig reject_all_env "example.com" "mx.example.com"
           verified_world).
  - intros n. reflexivity.
  - intros n. unfold reject_all_env, calm_env, steady_clock, Second. cbn [clock]. lia.
Defined.
